(** * Pex lock files: the JSON codec and the local-project extractor

    A shallow embedding of [pex/resolve/lockfile/json_codec.py] ([loads],
    [as_json_data] and the typed accessor [get]) and of
    [pex/pip/local_project.py] ([digest_local_project] with its
    [is_within_directory] and [safe_extract] helpers), followed by the
    properties of the codec and of the extractor. *)

From Stdlib Require Import String Ascii ZArith List Bool Lia DecimalString SpecFloat.
From stdpp Require Import base option list strings gmap.

#[local] Set Warnings "-register-all".
#[local] Open Scope string_scope.

(** ** Python values

    [json.loads] yields [None], [bool], [int], [float], [str], [list] and
    [dict] values. A [dict] is kept as the list of its items in insertion
    order (CPython preserves it); its keys are pairwise distinct. Strings are
    sequences of characters. *)

Inductive json :=
| JNull
| JBool (b : bool)
| JInt (n : Z)
| JFloat (f : spec_float)
| JStr (s : string)
| JList (l : list json)
| JObj (m : list (string * json)).

(** [type(v).__name__] *)
Definition type_name (v : json) : string :=
  match v with
  | JNull => "NoneType"
  | JBool _ => "bool"
  | JInt _ => "int"
  | JFloat _ => "float"
  | JStr _ => "str"
  | JList _ => "list"
  | JObj _ => "dict"
  end.

(** [bool(v)]: the truth value Python tests in [if v], [not v], [v or w]. *)
Definition truthy (v : json) : bool :=
  match v with
  | JNull => false
  | JBool b => b
  | JInt n => negb (n =? 0)%Z
  | JFloat (S754_zero _) => false
  | JFloat _ => true
  | JStr EmptyString => false
  | JStr _ => true
  | JList [] => false
  | JList _ => true
  | JObj [] => false
  | JObj _ => true
  end.

(** [key in d] and [d[key]] *)
Fixpoint dict_get (d : list (string * json)) (key : string) : option json :=
  match d with
  | [] => None
  | (k, v) :: d' => if String.eqb k key then Some v else dict_get d' key
  end.

(** [d[key] = v]: an existing key keeps its position. *)
Fixpoint dict_set (d : list (string * json)) (key : string) (v : json)
  : list (string * json) :=
  match d with
  | [] => [(key, v)]
  | (k, w) :: d' =>
      if String.eqb k key then (k, v) :: d' else (k, w) :: dict_set d' key v
  end.

Definition dict_keys (d : list (string * json)) : list string := map fst d.

(** The one-character strings a [str] iterates over. *)
Definition chars (s : string) : list json :=
  map (fun c => JStr (String c EmptyString)) (list_ascii_of_string s).

Definition is_str (v : json) : bool :=
  match v with JStr _ => true | _ => false end.

(** Lists and dicts are unhashable. *)
Definition hashable (v : json) : bool :=
  match v with JList _ | JObj _ => false | _ => true end.

(** The text of a list index, as [str.format] writes an [int]. *)
Definition nat_str (n : nat) : string := NilZero.string_of_uint (Nat.to_uint n).

(** The double quote character, as a string. *)
Definition dq : string := String "034"%char EmptyString.

(** [", ".join(l)] *)
Fixpoint comma_join (l : list string) : string :=
  match l with
  | [] => EmptyString
  | [s] => s
  | s :: l' => s ++ ", " ++ comma_join l'
  end.

(** [needle in hay], on strings. *)
Fixpoint contains (needle hay : string) : bool :=
  String.prefix needle hay ||
  match hay with
  | EmptyString => false
  | String _ hay' => contains needle hay'
  end.

(** ** Exceptions and results *)

(** [ParseError] and its subclass [PathMappingError], which carries the two
    attributes [required_path_mappings] and [unspecified_paths]. The set
    [unspecified_paths] is kept as the list of its elements, read up to order
    and repetition. *)
Inductive ParseError :=
| ParseError_msg (message : string)
| PathMappingError (required_path_mappings : json) (unspecified_paths : list json).

(** What a call can raise: a [ParseError], or an exception of another class
    that the codec does not catch ([TypeError], [KeyError], or whatever a
    collaborator raises). *)
Inductive exception :=
| ParseError_exn (e : ParseError)
| TypeError
| KeyError
| Foreign (what : string).

Inductive result (A : Type) :=
| Ok (a : A)
| Raise (e : exception).
Arguments Ok {A} a.
Arguments Raise {A} e.

#[global] Instance result_ret : MRet result := fun A a => Ok a.
#[global] Instance result_bind : MBind result := fun A B f m =>
  match m with
  | Ok a => f a
  | Raise e => Raise e
  end.
#[global] Instance result_fmap : FMap result := fun A B f m =>
  match m with
  | Ok a => Ok (f a)
  | Raise e => Raise e
  end.

Definition raise_parse {A} (message : string) : result A :=
  Raise (ParseError_exn (ParseError_msg message)).

Definition is_ok {A} (r : result A) : bool :=
  match r with Ok _ => true | Raise _ => false end.

(** [[f(i, x) for i, x in enumerate(l)]] with the index starting at [i]: the
    first element that raises ends the loop. *)
Fixpoint mapM_enum {A B} (f : nat -> A -> result B) (i : nat) (l : list A)
  : result (list B) :=
  match l with
  | [] => Ok []
  | x :: l' =>
      y ← f i x;
      ys ← mapM_enum f (S i) l';
      Ok (y :: ys)
  end.

(** Iterating a value ([for c in v], [enumerate(v)]): a dict yields its keys,
    a number, a bool or [None] raises [TypeError]. [len(v)] is defined on the
    same values and is the number of items iterated. *)
Definition py_iter (v : json) : result (list json) :=
  match v with
  | JList l => Ok l
  | JStr s => Ok (chars s)
  | JObj d => Ok (map JStr (dict_keys d))
  | _ => Raise TypeError
  end.

(** [set(v)]: as [py_iter], and every element has to be hashable. *)
Definition py_set (v : json) : result (list json) :=
  items ← py_iter v;
  if forallb hashable items then Ok items else Raise TypeError.

(** ** The typed accessor [get] *)

(** The expected types the codec passes to [get]: [compatibility.string]
    (the tuple [(str,)] on Python 3), [list], [dict] and [bool]. *)
Inductive ptype := t_str | t_list | t_dict | t_bool.

Definition isinstance (v : json) (t : ptype) : bool :=
  match t, v with
  | t_str, JStr _ => true
  | t_list, JList _ => true
  | t_dict, JObj _ => true
  | t_bool, JBool _ => true
  | _, _ => false
  end.

(** [" or ".join(t.__name__ for t in expected_type)], or
    [expected_type.__name__]. *)
Definition ptype_name (t : ptype) : string :=
  match t with
  | t_str => "str"
  | t_list => "list"
  | t_dict => "dict"
  | t_bool => "bool"
  end.

(** [repr(key)] of the keys the codec asks for (none holds a quote or a
    backslash). *)
Definition repr_key (key : string) : string := "'" ++ key ++ "'".

Section Messages.
(** [str(value)], as [str.format] renders a Python value. *)
Variable py_str : json -> string.

Definition msg_invalid_json (source err : string) : string :=
  "The lock file at " ++ source ++ " does not contain valid JSON: " ++ err.

Definition msg_not_object (path key source : string) (data : json) : string :=
  "Cannot retrieve '" ++ path ++ "[" ++ dq ++ key ++ dq ++ "]' in " ++ source
  ++ " because '" ++ path ++ "' is not a JSON object but a "
  ++ type_name data ++ " with value " ++ py_str data ++ ".".

Definition msg_missing_key (path source key : string) : string :=
  "The object at '" ++ path ++ "' in " ++ source
  ++ " did not have the expected key " ++ repr_key key ++ ".".

Definition msg_wrong_type (path key source : string) (expected_type : ptype)
    (value : json) : string :=
  "Expected '" ++ path ++ "[" ++ dq ++ key ++ dq ++ "]' in " ++ source
  ++ " to be of type " ++ ptype_name expected_type ++ " but given "
  ++ type_name value ++ " with value " ++ py_str value ++ ".".

Definition msg_invalid_enum (path err : string) : string :=
  "The '" ++ path ++ "' is invalid: " ++ err.

Definition msg_invalid_requirement (path err : string) : string :=
  "The requirement string at '" ++ path ++ "' is invalid: " ++ err.

Definition msg_invalid_specifier (path err : string) : string :=
  "The version specifier at '" ++ path ++ "' is invalid: " ++ err.

Definition msg_tag (path : string) (items : list json) (components : json)
  : string :=
  "The tag at '" ++ path ++ "' must have 3 string components. Given "
  ++ nat_str (length items) ++ " with types ["
  ++ comma_join (map type_name items) ++ "]: " ++ py_str components.

Definition msg_no_artifact (path source : string) : string :=
  "Expected '" ++ path ++ "' in " ++ source ++ " to have at least one artifact.".

(** The closure [get] of [loads]; [source] is the variable it captures. A
    missing optional key gives [None]. *)
Definition get (source key : string) (expected_type : ptype) (data : json)
    (path : string) (optional : bool) : result json :=
  match data with
  | JObj d =>
      match dict_get d key with
      | None =>
          if optional then Ok JNull
          else raise_parse (msg_missing_key path source key)
      | Some value =>
          if negb optional && negb (isinstance value expected_type)
          then raise_parse (msg_wrong_type path key source expected_type value)
          else Ok value
      end
  | _ => raise_parse (msg_not_object path key source data)
  end.
End Messages.

(** ** Path mappings *)

(** Modelled from the spec: the [PathMapping] and [PathMappings] values of
    [pex/resolve/path_mappings.py]. A mapping declares a symbolic
    placeholder [name] for the concrete path [path]; the codec reads
    [name], [description] and [mappings]. *)
Record PathMapping := {
  pm_path : string;
  pm_name : string;
  pm_description : option string;
}.

Record PathMappings := { mappings : list PathMapping }.

(** [set(mapping.name for mapping in path_mappings.mappings)] *)
Definition given_mappings (path_mappings : PathMappings) : gset string :=
  list_to_set (map pm_name (mappings path_mappings)).

(** ** Collaborators

    The requirement, specifier, version, project-name and tag grammars, the
    closed enum vocabularies, the default Pip version, the two path-mapping
    transforms and Python's rendering of values are consumed through their
    interface only. A parser that rejects its input returns the text of the
    exception ([inr]); a constructor that may raise returns [None] then.
    [SpecifierSet_len] is [len] of a specifier set, the number of its
    specifiers: Python takes a specifier set for true when it is not 0.
    [Tag_new] is the constructor [tags.Tag(interpreter, abi, platform)]. *)

(** [Enum.for_value] (raising [ValueError]) and [str] of an enum value. *)
Class Enum (T : Type) := {
  for_value : json -> T + string;
  enum_str : T -> string;
}.

Class Externals := {
  py_str : json -> string;
  Requirement : Type;
  Requirement_parse : string -> Requirement + string;
  Requirement_str : Requirement -> string;
  SpecifierSet : Type;
  SpecifierSet_new : string -> SpecifierSet + string;
  SpecifierSet_str : SpecifierSet -> string;
  SpecifierSet_len : SpecifierSet -> nat;
  Version : Type;
  Version_new : string -> option Version;
  Version_str : Version -> string;
  ProjectName : Type;
  ProjectName_new : string -> option ProjectName;
  ProjectName_str : ProjectName -> string;
  Tag : Type;
  Tag_new : string -> string -> string -> Tag;
  interpreter : Tag -> string;
  abi : Tag -> string;
  platform : Tag -> string;
  LockStyle : Type;
  LockStyle_enum :: Enum LockStyle;
  TargetSystem : Type;
  TargetSystem_enum :: Enum TargetSystem;
  PipVersion : Type;
  PipVersion_enum :: Enum PipVersion;
  ResolverVersion : Type;
  ResolverVersion_enum :: Enum ResolverVersion;
  (** [_DEFAULT_PIP_CONFIGURATION.version] *)
  DEFAULT_PIP_VERSION : PipVersion;
  maybe_reify : PathMappings -> string -> string;
  maybe_canonicalize : PathMappings -> string -> string;
}.

Section Codec.
Context `{Externals}.

(** *** The value model *)

(** Modelled from the spec: the records of [pex/resolve/locked_resolve.py],
    [pex/resolve/resolved_requirement.py] and
    [pex/resolve/lockfile/model.py], with the fields of section 3 of the
    specification. The constructors [Artifact.from_url],
    [LockedRequirement.create] and [Lockfile.create] store what they are
    given, a sequence in the order in which the codec hands it over. *)
Record Fingerprint := { algorithm : string; hash : string }.

Record Artifact := { url : string; fingerprint : Fingerprint }.

Definition Artifact_from_url (url : string) (fingerprint : Fingerprint)
  : Artifact :=
  {| url := url; fingerprint := fingerprint |}.

Record Pin := { project_name : ProjectName; version : Version }.

Record LockedRequirement := {
  pin : Pin;
  lr_requires_python : option SpecifierSet;
  requires_dists : list Requirement;
  artifact : Artifact;
  additional_artifacts : list Artifact;
}.

Definition LockedRequirement_create (pin : Pin)
    (requires_python : option SpecifierSet) (requires_dists : list Requirement)
    (artifact : Artifact) (additional_artifacts : list Artifact)
  : LockedRequirement :=
  {| pin := pin; lr_requires_python := requires_python;
     requires_dists := requires_dists; artifact := artifact;
     additional_artifacts := additional_artifacts |}.

(** [LockedRequirement.iter_artifacts]: the primary artifact, then the
    additional ones. *)
Definition iter_artifacts (req : LockedRequirement) : list Artifact :=
  artifact req :: additional_artifacts req.

Record LockedResolve := {
  locked_requirements : list LockedRequirement;
  platform_tag : option Tag;
}.

(** The fields [requires_python] and [use_pep517] hold the Python values
    the codec hands over: [loads] does not check the elements of the
    first, nor the type of the second. The field [source] of the model is
    [lockfile_source] here. *)
Record Lockfile := {
  pex_version : string;
  style : LockStyle;
  requires_python : list json;
  target_systems : list TargetSystem;
  pip_version : PipVersion;
  resolver_version : ResolverVersion;
  requirements : list Requirement;
  constraints : list Requirement;
  allow_prereleases : bool;
  allow_wheels : bool;
  allow_builds : bool;
  prefer_older_binary : bool;
  use_pep517 : json;
  build_isolation : bool;
  transitive : bool;
  locked_resolves : list LockedResolve;
  lockfile_source : string;
}.

(** The same lock with another provenance. *)
Definition with_source (src : string) (l : Lockfile) : Lockfile :=
  {| pex_version := pex_version l; style := style l;
     requires_python := requires_python l;
     target_systems := target_systems l; pip_version := pip_version l;
     resolver_version := resolver_version l;
     requirements := requirements l; constraints := constraints l;
     allow_prereleases := allow_prereleases l;
     allow_wheels := allow_wheels l; allow_builds := allow_builds l;
     prefer_older_binary := prefer_older_binary l;
     use_pep517 := use_pep517 l; build_isolation := build_isolation l;
     transitive := transitive l; locked_resolves := locked_resolves l;
     lockfile_source := src |}.

(** Modelled from the spec: [SortedTuple] of [pex/sorted_tuple.py], the
    tuple of [sorted(iterable)]. Python's sort is stable and compares with
    [<] only; [lt] is that comparison on locked requirements. *)
Section Sorted.
Context {A : Type} (lt : A -> A -> bool).

Fixpoint insert_sorted (x : A) (l : list A) : list A :=
  match l with
  | [] => [x]
  | y :: l' => if lt y x then y :: insert_sorted x l' else x :: l
  end.

Definition SortedTuple (l : list A) : list A := foldr insert_sorted [] l.

(** No element is followed at once by a smaller one. *)
Fixpoint ascending (l : list A) : bool :=
  match l with
  | x :: ((y :: _) as l') => negb (lt y x) && ascending l'
  | _ => true
  end.
End Sorted.

Variable LockedRequirement_lt : LockedRequirement -> LockedRequirement -> bool.

(** *** [loads] *)

Section Loads.
Variable source : string.
Variable path_mappings : PathMappings.

Definition _load_json (lockfile_contents : json + string) : result json :=
  match lockfile_contents with
  | inl data => Ok data
  | inr err => raise_parse (msg_invalid_json source err)
  end.

(** The payload of a value whose type [get] has checked. A value that is
    not a string makes the string operation it is handed to raise. *)
Definition as_str (v : json) : result string :=
  match v with JStr s => Ok s | _ => Raise (Foreign "not a str") end.
Definition as_list (v : json) : result (list json) :=
  match v with JList l => Ok l | _ => Raise TypeError end.
Definition as_bool (v : json) : result bool :=
  match v with JBool b => Ok b | _ => Raise TypeError end.

Definition get_str (key : string) (data : json) (path : string)
  : result string :=
  get py_str source key t_str data path false ≫= as_str.
Definition get_list (key : string) (data : json) (path : string)
  : result (list json) :=
  get py_str source key t_list data path false ≫= as_list.
Definition get_bool (key : string) (data : json) (path : string)
  : result bool :=
  get py_str source key t_bool data path false ≫= as_bool.

Definition parse_enum_value {T} `{Enum T} (value : json) (path : string)
  : result T :=
  match for_value value with
  | inl v => Ok v
  | inr err => raise_parse (msg_invalid_enum path err)
  end.

(** [get(key, path=path, optional=default is not None)], then the
    default when the value is falsy and a default is given. *)
Definition get_enum_value {T} `{Enum T} (data : json) (key path : string)
    (default : option T) : result T :=
  value ← get py_str source key t_str data path (bool_decide (is_Some default));
  match default with
  | Some d =>
      if negb (truthy value) then Ok d
      else parse_enum_value value (path ++ "[" ++ dq ++ key ++ dq ++ "]")
  | None => parse_enum_value value (path ++ "[" ++ dq ++ key ++ dq ++ "]")
  end.

(** A raw requirement that is not a string makes the string transform
    raise. *)
Definition parse_requirement (raw_requirement : json) (path : string)
  : result Requirement :=
  raw ← as_str raw_requirement;
  match Requirement_parse (maybe_reify path_mappings raw) with
  | inl r => Ok r
  | inr err => raise_parse (msg_invalid_requirement path err)
  end.

Definition parse_version_specifier (raw_version_specifier : json)
    (path : string) : result SpecifierSet :=
  raw ← as_str raw_version_specifier;
  match SpecifierSet_new raw with
  | inl s => Ok s
  | inr err => raise_parse (msg_invalid_specifier path err)
  end.

(** [set(required_path_mappings) - given_mappings]: a name is removed when
    it equals a given name; an element that is not a string never does. *)
Definition unspecified (declared : list json) : list json :=
  List.filter
    (fun k =>
       match k with
       | JStr n => bool_decide (n ∉ given_mappings path_mappings)
       | _ => true
       end)
    declared.

(** The statements on [required_path_mappings]: [get(...) or {}], the set
    difference and the [PathMappingError]. *)
Definition check_path_mappings (data : json) : result unit :=
  declared ← get py_str source "path_mappings" t_dict data "." true;
  let required_path_mappings := if truthy declared then declared else JObj [] in
  names ← py_set required_path_mappings;
  match unspecified names with
  | [] => Ok ()
  | unspecified_paths =>
      Raise (ParseError_exn
               (PathMappingError required_path_mappings unspecified_paths))
  end.

(** [get("target_systems", list, optional=True) or ()], enumerated. *)
Definition load_target_systems (data : json) : result (list TargetSystem) :=
  given ← get py_str source "target_systems" t_list data "." true;
  items ← py_iter (if truthy given then given else JList []);
  mapM_enum
    (fun index target_system =>
       parse_enum_value target_system (".target_systems[" ++ nat_str index ++ "]"))
    0 items.

Definition load_requirements (data : json) : result (list Requirement) :=
  items ← get_list "requirements" data ".";
  mapM_enum
    (fun index req => parse_requirement req (".requirements[" ++ nat_str index ++ "]"))
    0 items.

Definition load_constraints (data : json) : result (list Requirement) :=
  items ← get_list "constraints" data ".";
  mapM_enum
    (fun index constraint =>
       parse_requirement constraint (".constraints[" ++ nat_str index ++ "]"))
    0 items.

(** [len(components)] and the iterations over [components] raise
    [TypeError] on the same values; indexing a dict with [0] raises
    [KeyError], its keys being strings. *)
Definition assemble_tag (components : json) (path : string) : result Tag :=
  items ← py_iter components;
  if negb (length items =? 3)%nat || negb (forallb is_str items)
  then raise_parse (msg_tag py_str path items components)
  else
    match components, items with
    | JObj _, _ => Raise KeyError
    | _, [JStr i; JStr a; JStr p] => Ok (Tag_new i a p)
    | _, _ => Raise TypeError
    end.

Definition load_platform_tag (lock_path : string) (locked_resolve : json)
  : result (option Tag) :=
  platform_tag_components ←
    get py_str source "platform_tag" t_list locked_resolve lock_path true;
  if truthy platform_tag_components
  then Some <$> assemble_tag platform_tag_components
                  (lock_path ++ "[" ++ dq ++ "platform_tag" ++ dq ++ "]")
  else Ok None.

Definition load_artifact (ap : string) (artifact : json) : result Artifact :=
  url ← get_str "url" artifact ap;
  algorithm ← get_str "algorithm" artifact ap;
  hash ← get_str "hash" artifact ap;
  Ok (Artifact_from_url (maybe_reify path_mappings url)
        {| algorithm := algorithm; hash := hash |}).

Definition load_artifacts (req_path : string) (req : json)
  : result (list Artifact) :=
  items ← get_list "artifacts" req req_path;
  mapM_enum
    (fun i artifact =>
       load_artifact
         (req_path ++ "[" ++ dq ++ "artifacts" ++ dq ++ "][" ++ nat_str i ++ "]")
         artifact)
    0 items.

(** The body of the loop over [locked_requirements]. *)
Definition load_locked_requirement (req_path : string) (req : json)
  : result LockedRequirement :=
  artifacts ← load_artifacts req_path req;
  match artifacts with
  | [] => raise_parse (msg_no_artifact req_path source)
  | artifact :: additional_artifacts =>
      version_specifier ←
        get py_str source "requires_python" t_str req req_path true;
      requires_python ←
        (if truthy version_specifier
         then Some <$> parse_version_specifier version_specifier
                         (req_path ++ "[" ++ dq ++ "requires_python" ++ dq ++ "]")
         else Ok None);
      raw_project_name ← get_str "project_name" req req_path;
      project_name ←
        from_option Ok (Raise (Foreign "ProjectName")) (ProjectName_new raw_project_name);
      raw_version ← get_str "version" req req_path;
      version ← from_option Ok (Raise (Foreign "Version")) (Version_new raw_version);
      items ← get_list "requires_dists" req req_path;
      requires_dists ←
        mapM_enum
          (fun i requires_dist =>
             parse_requirement requires_dist
               (req_path ++ "[" ++ dq ++ "requires_dists" ++ dq ++ "]["
                ++ nat_str i ++ "]"))
          0 items;
      Ok (LockedRequirement_create
            {| project_name := project_name; version := version |}
            requires_python requires_dists artifact additional_artifacts)
  end.

Definition lock_path (lock_index : nat) : string :=
  ".locked_resolves[" ++ nat_str lock_index ++ "]".

Definition req_path (lock_index req_index : nat) : string :=
  lock_path lock_index ++ "[" ++ nat_str req_index ++ "]".

(** The body of the loop over [locked_resolves]. *)
Definition load_locked_resolve (lock_index : nat) (locked_resolve : json)
  : result LockedResolve :=
  platform_tag ← load_platform_tag (lock_path lock_index) locked_resolve;
  items ← get_list "locked_requirements" locked_resolve (lock_path lock_index);
  locked_reqs ←
    mapM_enum (fun req_index req => load_locked_requirement (req_path lock_index req_index) req)
      0 items;
  Ok {| locked_requirements := SortedTuple LockedRequirement_lt locked_reqs;
        platform_tag := platform_tag |}.

Definition load_locked_resolves (data : json) : result (list LockedResolve) :=
  items ← get_list "locked_resolves" data ".";
  mapM_enum load_locked_resolve 0 items.

(** The arguments of the final [Lockfile.create], in their order. *)
Definition create_lockfile (data : json) (target_systems : list TargetSystem)
    (requirements constraints : list Requirement)
    (locked_resolves : list LockedResolve) : result Lockfile :=
  pex_version ← get_str "pex_version" data ".";
  style ← get_enum_value data "style" "." None;
  requires_python ← get_list "requires_python" data ".";
  pip_version ← get_enum_value data "pip_version" "." (Some DEFAULT_PIP_VERSION);
  resolver_version ← get_enum_value data "resolver_version" "." None;
  allow_prereleases ← get_bool "allow_prereleases" data ".";
  allow_wheels ← get_bool "allow_wheels" data ".";
  allow_builds ← get_bool "allow_builds" data ".";
  prefer_older_binary ← get_bool "prefer_older_binary" data ".";
  use_pep517 ← get py_str source "use_pep517" t_bool data "." true;
  build_isolation ← get_bool "build_isolation" data ".";
  transitive ← get_bool "transitive" data ".";
  Ok {| pex_version := pex_version; style := style;
        requires_python := requires_python; target_systems := target_systems;
        pip_version := pip_version; resolver_version := resolver_version;
        requirements := requirements; constraints := constraints;
        allow_prereleases := allow_prereleases; allow_wheels := allow_wheels;
        allow_builds := allow_builds;
        prefer_older_binary := prefer_older_binary; use_pep517 := use_pep517;
        build_isolation := build_isolation; transitive := transitive;
        locked_resolves := locked_resolves; lockfile_source := source |}.

(** [loads]. The text [lockfile_contents] is given by what [json.loads]
    makes of it: the decoded value, or the text of its [ValueError]. *)
Definition loads (lockfile_contents : json + string) : result Lockfile :=
  data ← _load_json lockfile_contents;
  _ ← check_path_mappings data;
  target_systems ← load_target_systems data;
  requirements ← load_requirements data;
  constraints ← load_constraints data;
  locked_resolves ← load_locked_resolves data;
  create_lockfile data target_systems requirements constraints locked_resolves.
End Loads.

(** *** [as_json_data] *)

Definition json_of_option_str (o : option string) : json :=
  match o with Some s => JStr s | None => JNull end.

Definition artifact_json (path_mappings : PathMappings) (artifact : Artifact)
  : json :=
  JObj [ ("url", JStr (maybe_canonicalize path_mappings (url artifact)));
         ("algorithm", JStr (algorithm (fingerprint artifact)));
         ("hash", JStr (hash (fingerprint artifact))) ].

(** The entry of a locked requirement; [if req.requires_python] tests the
    length of the specifier set. *)
Definition locked_requirement_json (path_mappings : PathMappings)
    (req : LockedRequirement) : json :=
  JObj [ ("project_name", JStr (ProjectName_str (project_name (pin req))));
         ("version", JStr (Version_str (version (pin req))));
         ("requires_dists",
           JList (map (fun dependency =>
                         JStr (maybe_canonicalize path_mappings
                                 (Requirement_str dependency)))
                    (requires_dists req)));
         ("requires_python",
           match lr_requires_python req with
           | Some s => if (0 <? SpecifierSet_len s)%nat
                       then JStr (SpecifierSet_str s) else JNull
           | None => JNull
           end);
         ("artifacts",
           JList (map (artifact_json path_mappings) (iter_artifacts req))) ].

Definition locked_resolve_json (path_mappings : PathMappings)
    (locked_resolve : LockedResolve) : json :=
  JObj [ ("platform_tag",
           match platform_tag locked_resolve with
           | Some tag =>
               JList [JStr (interpreter tag); JStr (abi tag); JStr (platform tag)]
           | None => JNull
           end);
         ("locked_requirements",
           JList (map (locked_requirement_json path_mappings)
                    (locked_requirements locked_resolve))) ].

(** [{m.name: m.description for m in path_mappings.mappings}] *)
Definition path_mappings_json (path_mappings : PathMappings) : json :=
  JObj (fold_left
          (fun d m => dict_set d (pm_name m) (json_of_option_str (pm_description m)))
          (mappings path_mappings) []).

Definition as_json_data (lockfile : Lockfile) (path_mappings : PathMappings)
  : json :=
  JObj [ ("pex_version", JStr (pex_version lockfile));
         ("style", JStr (enum_str (style lockfile)));
         ("requires_python", JList (requires_python lockfile));
         ("target_systems",
           JList (map (fun target_system => JStr (enum_str target_system))
                    (target_systems lockfile)));
         ("pip_version", JStr (enum_str (pip_version lockfile)));
         ("resolver_version", JStr (enum_str (resolver_version lockfile)));
         ("requirements",
           JList (map (fun req =>
                         JStr (maybe_canonicalize path_mappings (Requirement_str req)))
                    (requirements lockfile)));
         ("constraints",
           JList (map (fun constraint => JStr (Requirement_str constraint))
                    (constraints lockfile)));
         ("allow_prereleases", JBool (allow_prereleases lockfile));
         ("allow_wheels", JBool (allow_wheels lockfile));
         ("allow_builds", JBool (allow_builds lockfile));
         ("prefer_older_binary", JBool (prefer_older_binary lockfile));
         ("use_pep517", use_pep517 lockfile);
         ("build_isolation", JBool (build_isolation lockfile));
         ("transitive", JBool (transitive lockfile));
         ("locked_resolves",
           JList (map (locked_resolve_json path_mappings)
                    (locked_resolves lockfile)));
         ("path_mappings", path_mappings_json path_mappings) ].
End Codec.

Arguments get_str {_} source key data path.
Arguments get_list {_} source key data path.
Arguments get_bool {_} source key data path.

(** ** [os.path] on POSIX

    The functions of [posixpath] that [local_project.py] calls, on strings;
    [abspath] takes the current directory that [os.getcwd()] returns. *)
Module os_path.

Definition sep : string := "/".

Definition isabs (s : string) : bool := String.prefix sep s.

Fixpoint endswith_sep (s : string) : bool :=
  match s with
  | EmptyString => false
  | String c EmptyString => Ascii.eqb c "/"
  | String _ s' => endswith_sep s'
  end.

(** [join(a, b)]: an absolute [b] replaces [a]. *)
Definition join (a b : string) : string :=
  if isabs b then b
  else
    match a with
    | EmptyString => b
    | _ => if endswith_sep a then a ++ b else a ++ sep ++ b
    end.

(** [s.split("/")] *)
Fixpoint split_sep (s : string) : list string :=
  match s with
  | EmptyString => [EmptyString]
  | String c s' =>
      if Ascii.eqb c "/" then EmptyString :: split_sep s'
      else
        match split_sep s' with
        | w :: ws => String c w :: ws
        | [] => [String c EmptyString]
        end
  end.

(** ["/".join(comps)] *)
Fixpoint sep_join (comps : list string) : string :=
  match comps with
  | [] => EmptyString
  | [c] => c
  | c :: comps' => c ++ sep ++ sep_join comps'
  end.

(** One or two leading slashes are kept, three or more count as one. *)
Definition initial_slashes (path : string) : nat :=
  if String.prefix "///" path then 1
  else if String.prefix "//" path then 2
  else if String.prefix "/" path then 1
  else 0.

(** The loop of [normpath]; [new_comps] is held last component first. *)
Definition norm_step (slashes : nat) (new_comps : list string) (comp : string)
  : list string :=
  if String.eqb comp EmptyString || String.eqb comp "." then new_comps
  else if negb (String.eqb comp "..")
          || ((slashes =? 0)%nat && bool_decide (new_comps = []))
          || match new_comps with
             | top :: _ => String.eqb top ".."
             | [] => false
             end
       then comp :: new_comps
       else tail new_comps.

Definition normpath (path : string) : string :=
  match path with
  | EmptyString => "."
  | _ =>
      let slashes := initial_slashes path in
      let comps := rev (fold_left (norm_step slashes) (split_sep path) []) in
      let joined :=
        match slashes with
        | 0 => sep_join comps
        | 1 => sep ++ sep_join comps
        | _ => sep ++ sep ++ sep_join comps
        end in
      match joined with
      | EmptyString => "."
      | _ => joined
      end
  end.

Definition abspath (cwd path : string) : string :=
  normpath (if isabs path then path else join cwd path).

(** The longest common leading run of characters. *)
Fixpoint common_chars (s1 s2 : string) : string :=
  match s1, s2 with
  | String c1 r1, String c2 r2 =>
      if Ascii.eqb c1 c2 then String c1 (common_chars r1 r2) else EmptyString
  | _, _ => EmptyString
  end.

Definition str_min (a b : string) : string := if String.leb a b then a else b.
Definition str_max (a b : string) : string := if String.leb a b then b else a.

(** [commonprefix(m)]: character by character, on the least and the
    greatest string of [m]. *)
Definition commonprefix (m : list string) : string :=
  match m with
  | [] => EmptyString
  | s :: m' => common_chars (fold_left str_min m' s) (fold_left str_max m' s)
  end.

(** The components of a normalized absolute path. *)
Definition components (path : string) : list string :=
  List.filter (fun c => negb (String.eqb c EmptyString)) (split_sep path).

End os_path.

(** ** [local_project.py] *)
Module local_project.

(** A member of the archive, as [TarFile.getmembers] lists it. *)
Record TarInfo := { name : string }.

(** What the function finds around it: the current directory, the
    temporary directory of [temporary_dir()], the outcome of
    [pep_517.build_sdist] (an [Error], or the members of the sdist it
    built) and the answer of [os.listdir] once the archive is extracted:
    the entries of a directory that is there. *)
Record World := {
  getcwd : string;
  td : string;
  build_sdist : string + list TarInfo;
  listdir : string -> list string;
}.

(** What the call leaves behind: the paths [extractall] wrote to, and the
    directory whose content went into the digest. *)
Record Effects := {
  written : list string;
  hashed : option string;
}.

Inductive Outcome :=
| Returned (path : string)
| ReturnedError (error : string)
| RaisedException (message : string)
| RaisedAssertionError (message : string).

Section InWorld.
Variable w : World.

Definition is_within_directory (directory target : string) : bool :=
  let abs_directory := os_path.abspath (getcwd w) directory in
  let abs_target := os_path.abspath (getcwd w) target in
  let prefix := os_path.commonprefix [abs_directory; abs_target] in
  String.eqb prefix abs_directory.

(** [tar.extractall(path)] writes each member at [os.path.join(path,
    member.name)]. *)
Definition extractall (tar : list TarInfo) (path : string) : list string :=
  map (fun member => os_path.join path (name member)) tar.

(** Every member is checked before the first one is extracted. *)
Definition safe_extract (tar : list TarInfo) (path : string)
  : string + list string :=
  if forallb
       (fun member => is_within_directory path (os_path.join path (name member)))
       tar
  then inr (extractall tar path)
  else inl "Attempted Path Traversal in Tar File".

Definition newline : string := String "010"%char EmptyString.

Fixpoint newline_join (l : list string) : string :=
  match l with
  | [] => EmptyString
  | [s] => s
  | s :: l' => s ++ newline ++ newline_join l'
  end.

Definition msg_listing (directory : string) (listing : list string) : string :=
  "Expected sdist generated for " ++ directory
  ++ " to contain one top-level directory, found:" ++ newline
  ++ newline_join listing.

(** [dest_dir or os.path.join(td, "extracted")] *)
Definition extract_dir (dest_dir : option string) : string :=
  match dest_dir with
  | Some (String c d) => String c d
  | _ => os_path.join (td w) "extracted"
  end.

Definition digest_local_project (directory : string) (dest_dir : option string)
  : Outcome * Effects :=
  match build_sdist w with
  | inl error => (ReturnedError error, {| written := []; hashed := None |})
  | inr tf =>
      match safe_extract tf (extract_dir dest_dir) with
      | inl message =>
          (RaisedException message, {| written := []; hashed := None |})
      | inr files =>
          match listdir w (extract_dir dest_dir) with
          | [entry] =>
              let project_dir := os_path.join (extract_dir dest_dir) entry in
              (Returned (os_path.join (extract_dir dest_dir) project_dir),
               {| written := files; hashed := Some project_dir |})
          | listing =>
              (RaisedAssertionError (msg_listing directory listing),
               {| written := files; hashed := None |})
          end
      end
  end.
End InWorld.

(** The containment the extraction root asks for, on path components:
    [target] is [root] or lies below it. Both are normalized absolute
    paths. *)
Fixpoint components_below (root target : list string) : bool :=
  match root, target with
  | [], _ => true
  | r :: root', t :: target' => String.eqb r t && components_below root' target'
  | _ :: _, [] => false
  end.

Definition path_below (root target : string) : bool :=
  components_below (os_path.components root) (os_path.components target).

End local_project.

(** ** A concrete set of collaborators

    One instance of [Externals], on which the codec can be run: requirement
    strings, specifiers, versions and project names are kept as their text,
    and the enums have the vocabularies of Pex. *)
Module Demo.
Module Impl.

(** [s.replace(old, new)] for a non-empty [old]: occurrences are taken from
    the left and do not overlap; [skip] counts the characters of a match
    still to drop. *)
Fixpoint replace_from (old new : string) (skip : nat) (s : string) : string :=
  match s with
  | EmptyString => EmptyString
  | String c s' =>
      match skip with
      | S k => replace_from old new k s'
      | O =>
          if String.prefix old s
          then new ++ replace_from old new (String.length old - 1) s'
          else String c (replace_from old new 0 s')
      end
  end.

Definition replace (old new s : string) : string :=
  match old with
  | EmptyString =>
      new ++ String.concat EmptyString
               (map (fun c => String c new) (list_ascii_of_string s))
  | _ => replace_from old new 0 s
  end.

(** The placeholder of a mapping. *)
Definition ref (m : PathMapping) : string := "${" ++ pm_name m ++ "}".

(** Modelled from the spec: [PathMappings.maybe_reify] and
    [PathMappings.maybe_canonicalize] of [pex/resolve/path_mappings.py].
    Reifying substitutes the concrete path for each placeholder occurring in
    the text; canonicalizing replaces the occurrences of a mapping's
    concrete path with its placeholder. *)
Definition maybe_reify (path_mappings : PathMappings) (text : string) : string :=
  fold_left (fun t m => replace (ref m) (pm_path m) t) (mappings path_mappings) text.

Definition maybe_canonicalize (path_mappings : PathMappings) (text : string)
  : string :=
  fold_left (fun t m => replace (pm_path m) (ref m) t) (mappings path_mappings) text.

(** A rendering of values in Python's manner; a float is shown by its
    kind only. *)
Definition repr_str (s : string) : string := "'" ++ s ++ "'".

Fixpoint py_repr (v : json) : string :=
  match v with
  | JNull => "None"
  | JBool true => "True"
  | JBool false => "False"
  | JInt n => NilZero.string_of_int (Z.to_int n)
  | JFloat (S754_zero _) => "0.0"
  | JFloat (S754_infinity _) => "inf"
  | JFloat S754_nan => "nan"
  | JFloat (S754_finite _ _ _) => "float"
  | JStr s => repr_str s
  | JList l => "[" ++ comma_join (map py_repr l) ++ "]"
  | JObj m =>
      "{" ++ comma_join (map (fun kv => repr_str (fst kv) ++ ": " ++ py_repr (snd kv)) m)
      ++ "}"
  end.

Definition py_str (v : json) : string :=
  match v with
  | JStr s => s
  | _ => py_repr v
  end.

Inductive LockStyle := STRICT | SOURCES | UNIVERSAL.
Inductive TargetSystem := LINUX | MAC | WINDOWS.
Inductive PipVersion := v20_3_4_patched | v22_2_2 | v22_3.
Inductive ResolverVersion := PIP_LEGACY | PIP_2020.

(** [Enum.for_value]: the value whose text equals the argument, or a
    [ValueError]. *)
Definition lookup_value {T} (values : list (string * T)) (v : json) : T + string :=
  match v with
  | JStr s =>
      match List.find (fun kv => String.eqb (fst kv) s) values with
      | Some kv => inl (snd kv)
      | None => inr (repr_str s ++ " is not a known value")
      end
  | _ => inr (py_repr v ++ " is not a known value")
  end.

Definition LockStyle_str (v : LockStyle) : string :=
  match v with STRICT => "strict" | SOURCES => "sources" | UNIVERSAL => "universal" end.
Definition TargetSystem_str (v : TargetSystem) : string :=
  match v with LINUX => "linux" | MAC => "mac" | WINDOWS => "windows" end.
Definition PipVersion_str (v : PipVersion) : string :=
  match v with
  | v20_3_4_patched => "20.3.4-patched"
  | v22_2_2 => "22.2.2"
  | v22_3 => "22.3"
  end.
Definition ResolverVersion_str (v : ResolverVersion) : string :=
  match v with PIP_LEGACY => "pip-legacy-resolver" | PIP_2020 => "pip-2020-resolver" end.

Definition enum_of {T} (str : T -> string) (values : list T) : Enum T :=
  {| for_value := lookup_value (map (fun v => (str v, v)) values);
     enum_str := str |}.

(** A requirement is kept as its text; the empty text is no requirement. An
    empty specifier set has length 0, as [SpecifierSet.__len__] counts the
    specifiers. *)
Definition Requirement_parse (s : string) : string + string :=
  match s with
  | EmptyString => inr "Parse error at end of input"
  | _ => inl s
  end.

Definition SpecifierSet_len (s : string) : nat :=
  match s with EmptyString => 0 | _ => 1 end.

End Impl.

#[export] Instance externals : Externals := {|
  py_str := Impl.py_str;
  Requirement := string;
  Requirement_parse := Impl.Requirement_parse;
  Requirement_str := id;
  SpecifierSet := string;
  SpecifierSet_new := inl;
  SpecifierSet_str := id;
  SpecifierSet_len := Impl.SpecifierSet_len;
  Version := string;
  Version_new := Some;
  Version_str := id;
  ProjectName := string;
  ProjectName_new := Some;
  ProjectName_str := id;
  Tag := string * string * string;
  Tag_new := fun i a p => (i, a, p);
  interpreter := fun t => fst (fst t);
  abi := fun t => snd (fst t);
  platform := snd;
  LockStyle_enum :=
    Impl.enum_of Impl.LockStyle_str [Impl.STRICT; Impl.SOURCES; Impl.UNIVERSAL];
  TargetSystem_enum :=
    Impl.enum_of Impl.TargetSystem_str [Impl.LINUX; Impl.MAC; Impl.WINDOWS];
  PipVersion_enum :=
    Impl.enum_of Impl.PipVersion_str
      [Impl.v20_3_4_patched; Impl.v22_2_2; Impl.v22_3];
  ResolverVersion_enum :=
    Impl.enum_of Impl.ResolverVersion_str [Impl.PIP_LEGACY; Impl.PIP_2020];
  DEFAULT_PIP_VERSION := Impl.v20_3_4_patched;
  maybe_reify := Impl.maybe_reify;
  maybe_canonicalize := Impl.maybe_canonicalize;
|}.

(** Locked requirements compare by the text of their pin. *)
Definition pin_key (r : LockedRequirement) : string :=
  project_name (pin r) ++ "==" ++ version (pin r).

Definition LockedRequirement_lt (a b : LockedRequirement) : bool :=
  String.ltb (pin_key a) (pin_key b).

End Demo.

Arguments msg_invalid_json : simpl never.
Arguments msg_not_object : simpl never.
Arguments msg_missing_key : simpl never.
Arguments msg_wrong_type : simpl never.
Arguments msg_invalid_enum : simpl never.
Arguments msg_invalid_requirement : simpl never.
Arguments msg_invalid_specifier : simpl never.
Arguments msg_tag : simpl never.
Arguments msg_no_artifact : simpl never.
Arguments lock_path : simpl never.
Arguments req_path : simpl never.

Section Reaching.
Context `{Externals}.
Variable LockedRequirement_lt : LockedRequirement -> LockedRequirement -> bool.
Variable source : string.
Variable path_mappings : PathMappings.

(** The statements of [loads] that come before the loop over
    [locked_resolves] all pass. *)
Definition reaches_locked_resolves (data : json) : bool :=
  is_ok (check_path_mappings source path_mappings data)
  && is_ok (load_target_systems source data)
  && is_ok (load_requirements source path_mappings data)
  && is_ok (load_constraints source path_mappings data).

(** The loop over [locked_resolves] gets as far as the locked resolve at
    [lock_index]. *)
Definition reaches_locked_resolve (data : json) (resolves : list json)
    (lock_index : nat) : bool :=
  reaches_locked_resolves data
  && is_ok (mapM_enum (load_locked_resolve LockedRequirement_lt source path_mappings)
              0 (take lock_index resolves)).

(** Within the locked resolve at [lock_index], the loop over
    [locked_requirements] gets as far as the requirement at [req_index]. *)
Definition reaches_locked_requirement (data : json) (resolves : list json)
    (lock_index : nat) (locked_resolve : json) (reqs : list json)
    (req_index : nat) : bool :=
  reaches_locked_resolve data resolves lock_index
  && is_ok (load_platform_tag source (lock_path lock_index) locked_resolve)
  && is_ok (mapM_enum
              (fun j req =>
                 load_locked_requirement source path_mappings (req_path lock_index j) req)
              0 (take req_index reqs)).
End Reaching.

(** [v[key]] on a value that is an object. *)
Definition json_get (v : json) (key : string) : option json :=
  match v with
  | JObj d => dict_get d key
  | _ => None
  end.

(** The top-level keys that [loads] reads with [optional=False], with the
    type it expects. *)
Definition required_keys : list (string * ptype) :=
  [ ("requirements", t_list); ("constraints", t_list);
    ("locked_resolves", t_list); ("pex_version", t_str); ("style", t_str);
    ("requires_python", t_list); ("resolver_version", t_str);
    ("allow_prereleases", t_bool); ("allow_wheels", t_bool);
    ("allow_builds", t_bool); ("prefer_older_binary", t_bool);
    ("build_isolation", t_bool); ("transitive", t_bool) ].

(** ** Values that survive printing and parsing

    What the round trip asks of a lock and of the path mappings it is
    written and read with: each collaborator reads the text of a value back
    as that value, and reifying restores what canonicalizing wrote. *)
Section Stable.
Context `{Externals}.
Variable LockedRequirement_lt : LockedRequirement -> LockedRequirement -> bool.
Variable path_mappings : PathMappings.

Definition enum_stable {T} `{Enum T} (v : T) : Prop :=
  for_value (JStr (enum_str v)) = inl v.

(** A requirement string that [as_json_data] canonicalizes. *)
Definition requirement_stable (r : Requirement) : Prop :=
  Requirement_parse
    (maybe_reify path_mappings
       (maybe_canonicalize path_mappings (Requirement_str r))) = inl r.

(** A requirement string that [as_json_data] writes as it is. *)
Definition constraint_stable (r : Requirement) : Prop :=
  Requirement_parse (maybe_reify path_mappings (Requirement_str r)) = inl r.

Definition artifact_stable (a : Artifact) : Prop :=
  maybe_reify path_mappings (maybe_canonicalize path_mappings (url a)) = url a.

(** A specifier set, when there is one, is not empty, and neither is its
    text. *)
Definition specifier_stable (o : option SpecifierSet) : Prop :=
  match o with
  | None => True
  | Some s =>
      (0 <? SpecifierSet_len s)%nat = true
      /\ truthy (JStr (SpecifierSet_str s)) = true
      /\ SpecifierSet_new (SpecifierSet_str s) = inl s
  end.

Definition tag_stable (o : option Tag) : Prop :=
  match o with
  | None => True
  | Some t => Tag_new (interpreter t) (abi t) (platform t) = t
  end.

Definition locked_requirement_stable (req : LockedRequirement) : Prop :=
  ProjectName_new (ProjectName_str (project_name (pin req)))
  = Some (project_name (pin req))
  /\ Version_new (Version_str (version (pin req))) = Some (version (pin req))
  /\ specifier_stable (lr_requires_python req)
  /\ Forall requirement_stable (requires_dists req)
  /\ Forall artifact_stable (iter_artifacts req).

Definition locked_resolve_stable (locked_resolve : LockedResolve) : Prop :=
  tag_stable (platform_tag locked_resolve)
  /\ ascending LockedRequirement_lt (locked_requirements locked_resolve) = true
  /\ Forall locked_requirement_stable (locked_requirements locked_resolve).

Definition lockfile_stable (lockfile : Lockfile) : Prop :=
  enum_stable (style lockfile)
  /\ Forall enum_stable (target_systems lockfile)
  /\ enum_stable (pip_version lockfile)
  /\ truthy (JStr (enum_str (pip_version lockfile))) = true
  /\ enum_stable (resolver_version lockfile)
  /\ Forall requirement_stable (requirements lockfile)
  /\ Forall constraint_stable (constraints lockfile)
  /\ Forall locked_resolve_stable (locked_resolves lockfile).
End Stable.

(** ** Sample documents, locks and archives *)
Module Samples.
Import Demo.

Definition no_mappings : PathMappings := {| mappings := [] |}.

Definition home : PathMappings :=
  {| mappings :=
       [ {| pm_path := "/home/u"; pm_name := "HOME";
            pm_description := Some "the home directory" |} ] |}.

(** The items of a document with every required key but ["requirements"],
    after the items [extra]. *)
Definition without_requirements (extra : list (string * json))
    (resolves : list json) : list (string * json) :=
  extra ++
  [ ("pex_version", JStr "2.1.100"); ("style", JStr "strict");
    ("requires_python", JList [JStr ">=3.7"]);
    ("resolver_version", JStr "pip-2020-resolver");
    ("constraints", JList []);
    ("allow_prereleases", JBool false); ("allow_wheels", JBool true);
    ("allow_builds", JBool true); ("prefer_older_binary", JBool false);
    ("build_isolation", JBool true); ("transitive", JBool true);
    ("locked_resolves", JList resolves) ].

Definition document (extra : list (string * json)) (resolves : list json)
  : list (string * json) :=
  ("requirements", JList [JStr "foo"]) :: without_requirements extra resolves.

Definition declares_home : list (string * json) :=
  document [("path_mappings", JObj [("HOME", JStr "the home directory")])] [].

Definition with_use_pep517_text : list (string * json) :=
  document [("use_pep517", JStr "yes")] [].

Definition resolve_with_tag (tag : json) : list (string * json) :=
  [ ("platform_tag", tag); ("locked_requirements", JList []) ].

Definition resolve_without_artifacts : list (string * json) :=
  [ ("platform_tag", JNull);
    ("locked_requirements",
      JList [ JObj [ ("project_name", JStr "foo"); ("version", JStr "1.0");
                     ("requires_dists", JList []); ("requires_python", JNull);
                     ("artifacts", JList []) ] ]) ].

Definition foo (requires_python : option string) : LockedRequirement :=
  {| pin := {| project_name := "foo"; version := "1.0" |};
     lr_requires_python := requires_python;
     requires_dists := ["bar>=1"];
     artifact :=
       {| url := "file:///home/u/dists/foo-1.0.tar.gz";
          fingerprint := {| algorithm := "sha256"; hash := "0a1b" |} |};
     additional_artifacts :=
       [ {| url := "https://example.org/foo-1.0-py3-none-any.whl";
            fingerprint := {| algorithm := "sha256"; hash := "2c3d" |} |} ] |}.

(** A lock with a local requirement and the same local constraint. *)
Definition lock (requires_python : option string) : Lockfile :=
  {| pex_version := "2.1.100"; style := Impl.STRICT;
     requires_python := [JStr ">=3.7"];
     target_systems := [Impl.LINUX; Impl.MAC];
     pip_version := Impl.v22_2_2; resolver_version := Impl.PIP_2020;
     requirements := ["foo @ file:///home/u/foo"];
     constraints := ["foo @ file:///home/u/foo"];
     allow_prereleases := false; allow_wheels := true; allow_builds := true;
     prefer_older_binary := false; use_pep517 := JNull;
     build_isolation := true; transitive := true;
     locked_resolves :=
       [ {| locked_requirements := [foo requires_python];
            platform_tag := Some ("cp39", "cp39", "linux_x86_64") |} ];
     lockfile_source := "<string>" |}.

(** An sdist with one member that climbs out of the extraction directory
    into a sibling whose name starts with the name of that directory. *)
Definition sibling_world : local_project.World :=
  {| local_project.getcwd := "/work";
     local_project.td := "/tmp/td";
     local_project.build_sdist :=
       inr [ {| local_project.name := "proj-1.0/setup.py" |};
             {| local_project.name := "../extracted_evil/passwd" |} ];
     local_project.listdir := fun _ => ["proj-1.0"] |}.

(** An sdist with a member that climbs to [/etc/passwd]. *)
Definition climbing_world : local_project.World :=
  {| local_project.getcwd := "/work";
     local_project.td := "/tmp/td";
     local_project.build_sdist :=
       inr [ {| local_project.name := "proj-1.0/setup.py" |};
             {| local_project.name := "../../etc/passwd" |} ];
     local_project.listdir := fun _ => [] |}.

(** An sdist as the build backend makes it. *)
Definition plain_world : local_project.World :=
  {| local_project.getcwd := "/work";
     local_project.td := "/tmp/td";
     local_project.build_sdist :=
       inr [ {| local_project.name := "proj-1.0/setup.py" |} ];
     local_project.listdir := fun _ => ["proj-1.0"] |}.

End Samples.

(** ** [load] *)
Section Load.
Context `{Externals}.
Variable LockedRequirement_lt : LockedRequirement -> LockedRequirement -> bool.

Definition msg_read_failed (path err : string) : string :=
  "Failed to read lock file at " ++ path ++ ": " ++ err.

(** [load]. [read_file] is [open(lockfile_path).read()]: the text of the
    file, given by what [json.loads] makes of it, or the text of the
    [IOError] raised. The path of the file is the [source] of the lock. *)
Definition load (read_file : string -> string + (json + string))
    (lockfile_path : string) (path_mappings : PathMappings) : result Lockfile :=
  match read_file lockfile_path with
  | inr lockfile_contents =>
      loads LockedRequirement_lt lockfile_path path_mappings lockfile_contents
  | inl err => raise_parse (msg_read_failed lockfile_path err)
  end.
End Load.

Arguments msg_read_failed : simpl never.

(** The components of a path that [normpath] keeps: all but the empty ones
    and the dots. *)
Definition kept (comp : string) : bool :=
  negb (String.eqb comp EmptyString || String.eqb comp ".").

(** A member name that stays where it is put: relative, and without a
    [..] among its components. *)
Definition plain_name (name : string) : bool :=
  negb (os_path.isabs name)
  && forallb (fun comp => negb (String.eqb comp "..")) (os_path.split_sep name).

(** ** More samples *)
Module MoreSamples.
Import Demo Samples.

(** The items of the document written for the sample lock. *)
Definition written_items : list (string * json) :=
  match as_json_data (lock (Some ">=3.7")) home with
  | JObj d => d
  | _ => []
  end.

(** The items of the entry written for the sample locked requirement. *)
Definition written_requirement : list (string * json) :=
  match locked_requirement_json home (foo (Some ">=3.7")) with
  | JObj d => d
  | _ => []
  end.

(** A document whose second requirement is the empty string, which the
    grammar rejects. *)
Definition with_empty_requirement : list (string * json) :=
  ("requirements", JList [JStr "foo"; JStr EmptyString])
  :: without_requirements [] [].

Definition with_numeric_path_mappings : list (string * json) :=
  document [("path_mappings", JInt 5)] [].

Definition with_unknown_style : list (string * json) :=
  [ ("style", JStr "lenient") ].

(** A file system with one lock file. *)
Definition one_file (path : string) : string + (json + string) :=
  if String.eqb path "lock.json"
  then inr (inl (as_json_data (lock (Some ">=3.7")) home))
  else inl "No such file or directory".

(** An sdist whose extraction leaves two entries behind. *)
Definition two_entries_world : local_project.World :=
  {| local_project.getcwd := "/work";
     local_project.td := "/tmp/td";
     local_project.build_sdist :=
       inr [ {| local_project.name := "proj-1.0/setup.py" |};
             {| local_project.name := "./README" |} ];
     local_project.listdir := fun _ => ["proj-1.0"; "README"] |}.

End MoreSamples.

(** ** The keys that [loads] asks for below the top level *)

(** The keys of a locked resolve, of a locked requirement and of an
    artifact, in the order in which [loads] asks for them: the key, the
    expected type and whether the key is optional. *)
Definition locked_resolve_keys : list (string * ptype * bool) :=
  [ ("platform_tag", t_list, true); ("locked_requirements", t_list, false) ].

Definition locked_requirement_keys : list (string * ptype * bool) :=
  [ ("artifacts", t_list, false); ("requires_python", t_str, true);
    ("project_name", t_str, false); ("version", t_str, false);
    ("requires_dists", t_list, false) ].

Definition artifact_keys : list (string * ptype * bool) :=
  [ ("url", t_str, false); ("algorithm", t_str, false); ("hash", t_str, false) ].

(** The path [ap] of the artifact at [index] of a locked requirement. *)
Definition artifact_path (req_path : string) (index : nat) : string :=
  req_path ++ "[" ++ dq ++ "artifacts" ++ dq ++ "][" ++ nat_str index ++ "]".

(** An entry that is no object is found out at the first key asked of it,
    whichever keys come later. *)
Definition asked_first (first_key : string) (entry : json) (key : string)
  : Prop :=
  match entry with
  | JObj _ => True
  | _ => key = first_key
  end.

(** The entry with the value [w] under [key]. *)
Definition repair (entry : json) (key : string) (w : json) : json :=
  match entry with
  | JObj m => JObj (dict_set m key w)
  | _ => JObj [(key, w)]
  end.

(** The object [d] with [entry] at [index] of the list under [key]. *)
Definition replace_entry (d : list (string * json)) (key : string)
    (items : list json) (index : nat) (entry : json) : json :=
  JObj (dict_set d key (JList (<[index := entry]> items))).

(** [r] raises [e], unless a statement before the one that raises [e]
    raises first: then [r'], which runs the same statements up to there,
    raises the same exception as [r]. *)
Definition raises_unless_earlier {A} (r : result A) (e : exception)
    (r' : result A) : Prop :=
  r = Raise e \/ exists e', r = Raise e' /\ r' = Raise e'.

(** ** Sample documents for the diagnostics *)
Module KeySamples.
Import Samples.

(** An artifact whose hash is a number. *)
Definition numeric_hash : list (string * json) :=
  [ ("url", JStr "https://example.org/foo-1.0.tar.gz");
    ("algorithm", JStr "sha256"); ("hash", JInt 7) ].

Definition requirement_entry (artifacts : list json) : list (string * json) :=
  [ ("project_name", JStr "foo"); ("version", JStr "1.0");
    ("requires_dists", JList []); ("requires_python", JNull);
    ("artifacts", JList artifacts) ].

Definition resolve_entry (reqs : list json) : list (string * json) :=
  [ ("platform_tag", JNull); ("locked_requirements", JList reqs) ].

(** A document whose only artifact has the numeric hash. *)
Definition with_numeric_hash : list (string * json) :=
  document [] [JObj (resolve_entry [JObj (requirement_entry [JObj numeric_hash])])].

End KeySamples.

(** * Properties *)

(** ** Strings *)

Lemma append_assoc (a b c : string) : (a ++ b) ++ c = a ++ (b ++ c).
Proof.
  induction a as [|x a IH]; [reflexivity|].
  change (String x ((a ++ b) ++ c) = String x (a ++ (b ++ c))).
  rewrite IH. reflexivity.
Qed.

Lemma length_append (a b : string) :
  String.length (a ++ b) = String.length a + String.length b.
Proof.
  induction a as [|x a IH]; [reflexivity|].
  change (S (String.length (a ++ b)) = S (String.length a + String.length b)).
  rewrite IH. reflexivity.
Qed.

(** ** Lists of results *)

Lemma mapM_enum_map_ok {A B C} (f : nat -> B -> result C) (g : A -> B)
    (h : A -> C) (l : list A) :
  (forall i x, In x l -> f i (g x) = Ok (h x)) ->
  forall i, mapM_enum f i (map g l) = Ok (map h l).
Proof.
  induction l as [|x l IH]; intros Hf i; [reflexivity|].
  cbn [map mapM_enum]. rewrite Hf by (left; reflexivity). cbn.
  rewrite IH; [reflexivity|]. intros j y Hy. apply Hf. right; exact Hy.
Qed.

Lemma mapM_enum_ok_lookup {A B} (f : nat -> A -> result B) (l : list A) :
  forall i ys k x,
    mapM_enum f i l = Ok ys -> l !! k = Some x ->
    exists y, f (i + k) x = Ok y /\ ys !! k = Some y.
Proof.
  induction l as [|a l IH]; intros i ys k x Hm Hk; [discriminate|].
  cbn [mapM_enum] in Hm.
  destruct (f i a) as [b|e] eqn:Hfa; cbn in Hm; [|discriminate].
  destruct (mapM_enum f (S i) l) as [bs|e] eqn:Hrest; cbn in Hm; [|discriminate].
  injection Hm as <-.
  destruct k as [|k]; cbn in Hk.
  - injection Hk as <-. exists b. rewrite Nat.add_0_r. split; [exact Hfa|reflexivity].
  - destruct (IH (S i) bs k x Hrest Hk) as (y & Hy & Hl).
    exists y. split; [|exact Hl].
    replace (i + S k) with (S i + k) by lia. exact Hy.
Qed.

Lemma mapM_enum_raise_at {A B} (f : nat -> A -> result B) (l : list A) :
  forall i k x e,
    l !! k = Some x ->
    is_ok (mapM_enum f i (take k l)) = true ->
    f (i + k) x = Raise e ->
    mapM_enum f i l = Raise e.
Proof.
  induction l as [|a l IH]; intros i k x e Hk Hpre Hx; [discriminate|].
  destruct k as [|k]; cbn in Hk.
  - injection Hk as ->. cbn [mapM_enum]. rewrite Nat.add_0_r in Hx.
    rewrite Hx. reflexivity.
  - cbn [take mapM_enum] in Hpre. cbn [mapM_enum].
    destruct (f i a) as [b|e'] eqn:Hfa; cbn in Hpre |- *; [|discriminate].
    rewrite (IH (S i) k x e Hk); [reflexivity| |].
    + destruct (mapM_enum f (S i) (take k l)); [reflexivity|discriminate].
    + replace (S i + k) with (i + S k) by lia. exact Hx.
Qed.

Lemma mapM_enum_insert {A B} (f : nat -> A -> result B) (l : list A) :
  forall i k x x',
    l !! k = Some x ->
    f (i + k) x' = f (i + k) x ->
    mapM_enum f i (<[k := x']> l) = mapM_enum f i l.
Proof.
  induction l as [|a l IH]; intros i k x x' Hk Hf; [discriminate|].
  destruct k as [|k]; cbn in Hk.
  - injection Hk as ->. cbn [mapM_enum]. rewrite Nat.add_0_r in Hf.
    cbn. rewrite Hf. reflexivity.
  - change (<[S k := x']> (a :: l)) with (a :: <[k := x']> l).
    cbn [mapM_enum]. rewrite (IH (S i) k x x' Hk); [reflexivity|].
    replace (S i + k) with (i + S k) by lia. exact Hf.
Qed.

(** ** Dicts *)

Lemma dict_get_set_ne d key key' v :
  key <> key' -> dict_get (dict_set d key v) key' = dict_get d key'.
Proof.
  intros Hne. induction d as [|[k w] d IH]; cbn.
  - destruct (String.eqb_spec key key'); [contradiction|reflexivity].
  - destruct (String.eqb_spec k key) as [->|Hk]; cbn.
    + destruct (String.eqb_spec key key'); [contradiction|reflexivity].
    + rewrite IH. reflexivity.
Qed.

Lemma dict_get_set_eq d key v : dict_get (dict_set d key v) key = Some v.
Proof.
  induction d as [|[k w] d IH]; cbn.
  - rewrite String.eqb_refl. reflexivity.
  - destruct (String.eqb_spec k key) as [->|Hk]; cbn.
    + rewrite String.eqb_refl. reflexivity.
    + destruct (String.eqb_spec k key); [contradiction|exact IH].
Qed.

Lemma dict_get_keys d key v : dict_get d key = Some v -> In key (dict_keys d).
Proof.
  induction d as [|[k w] d IH]; cbn; [discriminate|].
  destruct (String.eqb_spec k key) as [->|Hk]; [left; reflexivity|].
  intros Hd. right. apply IH, Hd.
Qed.

(** ** The accessor and the steps of [loads] *)

Lemma bind_ok_inv {A B} (m : result A) (f : A -> result B) (b : B) :
  m ≫= f = Ok b -> exists a, m = Ok a /\ f a = Ok b.
Proof. destruct m as [a|e]; cbn; [eauto|discriminate]. Qed.

Lemma is_ok_true {A} (r : result A) : is_ok r = true -> exists a, r = Ok a.
Proof. destruct r; [eauto|discriminate]. Qed.

Section CodecFacts.
Context `{Externals}.
Variable lt : LockedRequirement -> LockedRequirement -> bool.
Variable source : string.
Variable pm : PathMappings.

Lemma get_optional_present d key t path v :
  dict_get d key = Some v -> get py_str source key t (JObj d) path true = Ok v.
Proof. intros Hd. unfold get. rewrite Hd. reflexivity. Qed.

Lemma get_required_present d key t path v :
  dict_get d key = Some v -> isinstance v t = true ->
  get py_str source key t (JObj d) path false = Ok v.
Proof. intros Hd Ht. unfold get. rewrite Hd, Ht. reflexivity. Qed.

Lemma get_required_ok_inv data key t path v :
  get py_str source key t data path false = Ok v ->
  exists d, data = JObj d /\ dict_get d key = Some v /\ isinstance v t = true.
Proof.
  unfold get. destruct data; try discriminate.
  destruct (dict_get m key) as [w|] eqn:Hd; [|discriminate].
  cbn. destruct (isinstance w t) eqn:Ht; cbn; [|discriminate].
  intros [= <-]. eauto.
Qed.

Lemma get_list_present d key path l :
  dict_get d key = Some (JList l) -> get_list source key (JObj d) path = Ok l.
Proof.
  intros Hd. unfold get_list.
  rewrite (get_required_present d key t_list path _ Hd eq_refl). reflexivity.
Qed.

Lemma get_list_ok_inv data key path l :
  get_list source key data path = Ok l ->
  exists d, data = JObj d /\ dict_get d key = Some (JList l).
Proof.
  unfold get_list. intros Hg. apply bind_ok_inv in Hg as (v & Hv & Hl).
  apply get_required_ok_inv in Hv as (d & -> & Hd & Ht).
  destruct v; try discriminate. injection Hl as ->. eauto.
Qed.

Lemma unspecified_names (names : list string) :
  unspecified pm (map JStr names)
  = map JStr (List.filter (fun n => bool_decide (n ∉ given_mappings pm)) names).
Proof.
  unfold unspecified. induction names as [|n names IH]; [reflexivity|].
  cbn [map List.filter].
  destruct (bool_decide (n ∉ given_mappings pm)); cbn [map]; rewrite IH; reflexivity.
Qed.

Lemma hashable_names (names : list string) : forallb hashable (map JStr names) = true.
Proof. induction names; [reflexivity|exact IHnames]. Qed.

Lemma loads_ok_inv d L :
  loads lt source pm (inl (JObj d)) = Ok L ->
  exists ts reqs cs lrs,
    check_path_mappings source pm (JObj d) = Ok ()
    /\ load_target_systems source (JObj d) = Ok ts
    /\ load_requirements source pm (JObj d) = Ok reqs
    /\ load_constraints source pm (JObj d) = Ok cs
    /\ load_locked_resolves lt source pm (JObj d) = Ok lrs
    /\ create_lockfile source (JObj d) ts reqs cs lrs = Ok L.
Proof.
  unfold loads. cbn [_load_json]. intros Hl.
  change (Ok (JObj d) ≫= _) with
    (check_path_mappings source pm (JObj d) ≫= fun _ =>
     load_target_systems source (JObj d) ≫= fun ts =>
     load_requirements source pm (JObj d) ≫= fun reqs =>
     load_constraints source pm (JObj d) ≫= fun cs =>
     load_locked_resolves lt source pm (JObj d) ≫= fun lrs =>
     create_lockfile source (JObj d) ts reqs cs lrs) in Hl.
  apply bind_ok_inv in Hl as ([] & H1 & Hl).
  apply bind_ok_inv in Hl as (ts & H2 & Hl).
  apply bind_ok_inv in Hl as (reqs & H3 & Hl).
  apply bind_ok_inv in Hl as (cs & H4 & Hl).
  apply bind_ok_inv in Hl as (lrs & H5 & Hl).
  exists ts, reqs, cs, lrs.
  exact (conj H1 (conj H2 (conj H3 (conj H4 (conj H5 Hl))))).
Qed.

Lemma loads_reaching d :
  reaches_locked_resolves source pm (JObj d) = true ->
  forall e,
    load_locked_resolves lt source pm (JObj d) = Raise e ->
    loads lt source pm (inl (JObj d)) = Raise e.
Proof.
  unfold reaches_locked_resolves. intros Hr e He.
  apply andb_prop in Hr as [Hr H4]. apply andb_prop in Hr as [Hr H3].
  apply andb_prop in Hr as [H1 H2].
  apply is_ok_true in H1 as ([] & H1). apply is_ok_true in H2 as (ts & H2).
  apply is_ok_true in H3 as (reqs & H3). apply is_ok_true in H4 as (cs & H4).
  unfold loads. cbn [_load_json].
  change (Ok (JObj d) ≫= ?f) with (f (JObj d)). cbv beta.
  rewrite H1; cbn [mbind result_bind]. rewrite H2; cbn [mbind result_bind].
  rewrite H3; cbn [mbind result_bind]. rewrite H4; cbn [mbind result_bind].
  rewrite He. reflexivity.
Qed.

Lemma load_locked_resolves_ok_inv d lrs :
  load_locked_resolves lt source pm (JObj d) = Ok lrs ->
  exists resolves,
    dict_get d "locked_resolves" = Some (JList resolves)
    /\ mapM_enum (load_locked_resolve lt source pm) 0 resolves = Ok lrs.
Proof.
  unfold load_locked_resolves. intros Hl.
  apply bind_ok_inv in Hl as (resolves & Hg & Hm).
  apply get_list_ok_inv in Hg as (d' & [= <-] & Hd). eauto.
Qed.

Lemma load_locked_resolve_ok_inv lock_index x r :
  load_locked_resolve lt source pm lock_index x = Ok r ->
  exists tag reqs locked_reqs,
    load_platform_tag source (lock_path lock_index) x = Ok tag
    /\ get_list source "locked_requirements" x (lock_path lock_index) = Ok reqs
    /\ mapM_enum
         (fun j req => load_locked_requirement source pm (req_path lock_index j) req)
         0 reqs = Ok locked_reqs
    /\ r = {| locked_requirements := SortedTuple lt locked_reqs;
              platform_tag := tag |}.
Proof.
  unfold load_locked_resolve. intros Hl.
  apply bind_ok_inv in Hl as (tag & Ht & Hl).
  apply bind_ok_inv in Hl as (reqs & Hg & Hl).
  apply bind_ok_inv in Hl as (locked_reqs & Hm & Hl).
  injection Hl as <-. exists tag, reqs, locked_reqs. auto.
Qed.

Lemma create_lockfile_ok_inv data ts reqs cs lrs L :
  create_lockfile source data ts reqs cs lrs = Ok L ->
  target_systems L = ts /\ requirements L = reqs /\ constraints L = cs
  /\ locked_resolves L = lrs /\ lockfile_source L = source
  /\ get py_str source "use_pep517" t_bool data "." true = Ok (use_pep517 L).
Proof.
  unfold create_lockfile. intros Hc.
  repeat (apply bind_ok_inv in Hc as (? & ? & Hc)).
  injection Hc as <-. cbn. auto 10.
Qed.

(** A locked requirement that raises makes its locked resolve raise, once
    the loop has come to it. *)
Lemma load_locked_resolve_raise_at lock_index lr reqs req_index x e :
  dict_get lr "locked_requirements" = Some (JList reqs) ->
  reqs !! req_index = Some x ->
  is_ok (load_platform_tag source (lock_path lock_index) (JObj lr)) = true ->
  is_ok (mapM_enum
           (fun j req => load_locked_requirement source pm (req_path lock_index j) req)
           0 (take req_index reqs)) = true ->
  load_locked_requirement source pm (req_path lock_index req_index) x = Raise e ->
  load_locked_resolve lt source pm lock_index (JObj lr) = Raise e.
Proof.
  intros Hd Hx Ht Hpre He. unfold load_locked_resolve.
  apply is_ok_true in Ht as (tag & ->). cbn [mbind result_bind].
  rewrite (get_list_present _ _ _ _ Hd). cbn [mbind result_bind].
  rewrite (mapM_enum_raise_at _ reqs 0 req_index x e Hx Hpre He). reflexivity.
Qed.

Lemma load_locked_resolve_not_ok lock_index lr reqs req_index x :
  dict_get lr "locked_requirements" = Some (JList reqs) ->
  reqs !! req_index = Some x ->
  is_ok (load_locked_requirement source pm (req_path lock_index req_index) x) = false ->
  is_ok (load_locked_resolve lt source pm lock_index (JObj lr)) = false.
Proof.
  intros Hd Hx He.
  destruct (load_locked_resolve lt source pm lock_index (JObj lr)) as [r|] eqn:Hl;
    [|reflexivity].
  apply load_locked_resolve_ok_inv in Hl as (tag & reqs' & lreqs & _ & Hg & Hm & _).
  rewrite (get_list_present _ _ _ _ Hd) in Hg. injection Hg as <-.
  destruct (mapM_enum_ok_lookup _ _ _ _ _ _ Hm Hx) as (y & Hy & _).
  cbn in Hy. rewrite Hy in He. discriminate.
Qed.

(** A locked resolve that raises makes [loads] raise, once the loop has
    come to it; and [loads] cannot succeed in any case. *)
Lemma loads_raise_at_resolve d resolves lock_index x e :
  dict_get d "locked_resolves" = Some (JList resolves) ->
  resolves !! lock_index = Some x ->
  reaches_locked_resolve lt source pm (JObj d) resolves lock_index = true ->
  load_locked_resolve lt source pm lock_index x = Raise e ->
  loads lt source pm (inl (JObj d)) = Raise e.
Proof.
  intros Hd Hx Hr He. unfold reaches_locked_resolve in Hr.
  apply andb_prop in Hr as [Hr Hpre].
  apply loads_reaching; [exact Hr|].
  unfold load_locked_resolves. rewrite (get_list_present _ _ _ _ Hd).
  cbn [mbind result_bind].
  exact (mapM_enum_raise_at _ resolves 0 lock_index x e Hx Hpre He).
Qed.

Lemma loads_not_ok_resolve d resolves lock_index x :
  dict_get d "locked_resolves" = Some (JList resolves) ->
  resolves !! lock_index = Some x ->
  is_ok (load_locked_resolve lt source pm lock_index x) = false ->
  forall L, loads lt source pm (inl (JObj d)) <> Ok L.
Proof.
  intros Hd Hx He L Hl.
  apply loads_ok_inv in Hl as (ts & reqs & cs & lrs & _ & _ & _ & _ & Hr & _).
  apply load_locked_resolves_ok_inv in Hr as (resolves' & Hd' & Hm).
  rewrite Hd in Hd'. injection Hd' as <-.
  destruct (mapM_enum_ok_lookup _ _ _ _ _ _ Hm Hx) as (y & Hy & _).
  cbn in Hy. rewrite Hy in He. discriminate.
Qed.

Lemma load_platform_tag_present lock_path lr v :
  dict_get lr "platform_tag" = Some v ->
  load_platform_tag source lock_path (JObj lr)
  = if truthy v
    then Some <$> assemble_tag v (lock_path ++ "[" ++ dq ++ "platform_tag" ++ dq ++ "]")
    else Ok None.
Proof.
  intros Hd. unfold load_platform_tag.
  rewrite (get_optional_present _ _ _ _ _ Hd). reflexivity.
Qed.

Lemma get_typed_ok_inv {A} (as_type : json -> result A) data key t path (a : A) :
  get py_str source key t data path false ≫= as_type = Ok a ->
  exists d v, data = JObj d /\ dict_get d key = Some v /\ isinstance v t = true.
Proof.
  intros Hg. apply bind_ok_inv in Hg as (v & Hv & _).
  apply get_required_ok_inv in Hv as (d & -> & Hd & Ht). eauto.
Qed.

Lemma get_enum_value_required_inv {T} `{Enum T} data key path (v : T) :
  get_enum_value source data key path None = Ok v ->
  exists d w, data = JObj d /\ dict_get d key = Some w /\ isinstance w t_str = true.
Proof.
  unfold get_enum_value. intros Hg. apply bind_ok_inv in Hg as (w & Hw & _).
  change (bool_decide (is_Some None)) with false in Hw.
  apply get_required_ok_inv in Hw as (d & -> & Hd & Ht). eauto.
Qed.

(** A lock is returned only if every required top-level key is there with
    a value of its type. *)
Lemma loads_ok_required_keys d L :
  loads lt source pm (inl (JObj d)) = Ok L ->
  forall key t,
    In (key, t) required_keys ->
    exists v, dict_get d key = Some v /\ isinstance v t = true.
Proof.
  intros HL.
  apply loads_ok_inv in HL as (ts & reqs & cs & lrs & _ & _ & Hr & Hc & Hl & Hcreate).
  unfold load_requirements in Hr. apply bind_ok_inv in Hr as (? & Hr & _).
  unfold load_constraints in Hc. apply bind_ok_inv in Hc as (? & Hc & _).
  unfold load_locked_resolves in Hl. apply bind_ok_inv in Hl as (? & Hl & _).
  unfold create_lockfile in Hcreate.
  apply bind_ok_inv in Hcreate as (? & Hpex & Hcreate).
  apply bind_ok_inv in Hcreate as (? & Hstyle & Hcreate).
  apply bind_ok_inv in Hcreate as (? & Hpython & Hcreate).
  apply bind_ok_inv in Hcreate as (? & _ & Hcreate).
  apply bind_ok_inv in Hcreate as (? & Hresolver & Hcreate).
  apply bind_ok_inv in Hcreate as (? & Hpre & Hcreate).
  apply bind_ok_inv in Hcreate as (? & Hwheels & Hcreate).
  apply bind_ok_inv in Hcreate as (? & Hbuilds & Hcreate).
  apply bind_ok_inv in Hcreate as (? & Holder & Hcreate).
  apply bind_ok_inv in Hcreate as (? & _ & Hcreate).
  apply bind_ok_inv in Hcreate as (? & Hiso & Hcreate).
  apply bind_ok_inv in Hcreate as (? & Htrans & _).
  apply get_typed_ok_inv in Hr as (? & v1 & [= <-] & Hr).
  apply get_typed_ok_inv in Hc as (? & v2 & [= <-] & Hc).
  apply get_typed_ok_inv in Hl as (? & v3 & [= <-] & Hl).
  apply get_typed_ok_inv in Hpex as (? & v4 & [= <-] & Hpex).
  apply get_enum_value_required_inv in Hstyle as (? & v5 & [= <-] & Hstyle).
  apply get_typed_ok_inv in Hpython as (? & v6 & [= <-] & Hpython).
  apply get_enum_value_required_inv in Hresolver as (? & v7 & [= <-] & Hresolver).
  apply get_typed_ok_inv in Hpre as (? & v8 & [= <-] & Hpre).
  apply get_typed_ok_inv in Hwheels as (? & v9 & [= <-] & Hwheels).
  apply get_typed_ok_inv in Hbuilds as (? & v10 & [= <-] & Hbuilds).
  apply get_typed_ok_inv in Holder as (? & v11 & [= <-] & Holder).
  apply get_typed_ok_inv in Hiso as (? & v12 & [= <-] & Hiso).
  apply get_typed_ok_inv in Htrans as (? & v13 & [= <-] & Htrans).
  intros key t Hin. unfold required_keys in Hin. cbn [In] in Hin.
  repeat (destruct Hin as [[= <- <-]|Hin]; [eauto|]). destruct Hin.
Qed.

End CodecFacts.

Section CodecClaims.
Context `{Externals}.
Variable lt : LockedRequirement -> LockedRequirement -> bool.
Variable source : string.
Variable pm : PathMappings.

(** ** Path mappings the caller does not supply *)

(** C5. A document whose [path_mappings] object declares a name that the
    caller's path mappings do not give makes [loads] raise a
    [PathMappingError], the subclass of [ParseError] that carries the
    declared object and the names left unspecified: exactly the declared
    names that are not given. Nothing else of the document is looked at:
    the rest of [d] is arbitrary. *)
Theorem loads_unspecified_path_mappings (d declared : list (string * json)) :
  dict_get d "path_mappings" = Some (JObj declared) ->
  (exists n, In n (dict_keys declared) /\ n ∉ given_mappings pm) ->
  let names :=
    List.filter (fun n => bool_decide (n ∉ given_mappings pm)) (dict_keys declared) in
  loads lt source pm (inl (JObj d))
  = Raise (ParseError_exn (PathMappingError (JObj declared) (map JStr names)))
  /\ (forall n, In n names <-> In n (dict_keys declared) /\ n ∉ given_mappings pm).
Proof.
  intros Hd (n & Hn & Hgap) names.
  assert (Hnames : forall m, In m names <-> In m (dict_keys declared) /\ m ∉ given_mappings pm).
  { intros m. unfold names. rewrite filter_In, bool_decide_eq_true. reflexivity. }
  split; [|exact Hnames].
  assert (Hin : In n names) by (apply Hnames; auto).
  unfold loads. cbn [_load_json].
  change (Ok (JObj d) ≫= ?f) with (f (JObj d)). cbv beta.
  assert (Hc : check_path_mappings source pm (JObj d)
               = Raise (ParseError_exn (PathMappingError (JObj declared) (map JStr names)))).
  { unfold check_path_mappings.
    rewrite (get_optional_present source d "path_mappings" t_dict "." _ Hd).
    cbn [mbind result_bind].
    assert (Ht : truthy (JObj declared) = true).
    { destruct declared; [destruct Hn|reflexivity]. }
    rewrite Ht. unfold py_set. cbn [py_iter mbind result_bind].
    rewrite hashable_names. cbn [mbind result_bind].
    rewrite unspecified_names. fold names.
    destruct names; [destruct Hin|reflexivity]. }
  rewrite Hc. reflexivity.
Qed.

(** ** Locked requirements without artifacts *)

Lemma load_locked_requirement_artifacts path req q :
  load_locked_requirement source pm path req = Ok q ->
  load_artifacts source pm path req = Ok (iter_artifacts q).
Proof.
  unfold load_locked_requirement. intros Hl.
  apply bind_ok_inv in Hl as (artifacts & Ha & Hl). rewrite Ha.
  destruct artifacts as [|a more]; [discriminate|].
  repeat (apply bind_ok_inv in Hl as (? & ? & Hl)).
  injection Hl as <-. reflexivity.
Qed.

(** C7. A locked requirement whose ["artifacts"] list is empty is
    rejected. Its own processing raises the [ParseError] that names its
    path, [.locked_resolves[i][j]], before it reads any other key of the
    requirement; [loads] never returns a lock for such a document; and
    [loads] raises that very error once its loops have come to the
    requirement. Whatever locked requirement is built holds the artifacts
    read from the document, and at least one. *)
Theorem loads_rejects_empty_artifacts
    (d : list (string * json)) (resolves : list json) (lock_index : nat)
    (lr : list (string * json)) (reqs : list json) (req_index : nat)
    (r : list (string * json)) :
  dict_get d "locked_resolves" = Some (JList resolves) ->
  resolves !! lock_index = Some (JObj lr) ->
  dict_get lr "locked_requirements" = Some (JList reqs) ->
  reqs !! req_index = Some (JObj r) ->
  dict_get r "artifacts" = Some (JList []) ->
  let message :=
    "Expected '.locked_resolves[" ++ nat_str lock_index ++ "][" ++ nat_str req_index
    ++ "]' in " ++ source ++ " to have at least one artifact." in
  load_locked_requirement source pm (req_path lock_index req_index) (JObj r)
  = raise_parse message
  /\ (forall L, loads lt source pm (inl (JObj d)) <> Ok L)
  /\ (reaches_locked_requirement lt source pm (JObj d) resolves lock_index
        (JObj lr) reqs req_index = true ->
      loads lt source pm (inl (JObj d)) = raise_parse message)
  /\ (forall path req q,
        load_locked_requirement source pm path req = Ok q ->
        load_artifacts source pm path req = Ok (iter_artifacts q)
        /\ 1 <= length (iter_artifacts q)).
Proof.
  intros Hd Hlr Hreqs Hr Ha message.
  assert (Hq : load_locked_requirement source pm (req_path lock_index req_index) (JObj r)
               = raise_parse message).
  { unfold load_locked_requirement, load_artifacts.
    rewrite (get_list_present source r "artifacts" _ [] Ha).
    cbn [mbind result_bind mapM_enum].
    unfold message, msg_no_artifact, req_path, lock_path.
    rewrite !append_assoc. reflexivity. }
  split; [exact Hq|]. split; [|split].
  - eapply loads_not_ok_resolve; [exact Hd|exact Hlr|].
    eapply load_locked_resolve_not_ok; [exact Hreqs|exact Hr|].
    rewrite Hq. reflexivity.
  - unfold reaches_locked_requirement. intros Hreach.
    apply andb_prop in Hreach as [Hreach Hpre].
    apply andb_prop in Hreach as [Hreach Htag].
    eapply loads_raise_at_resolve; [exact Hd|exact Hlr|exact Hreach|].
    eapply load_locked_resolve_raise_at; [exact Hreqs|exact Hr|exact Htag|exact Hpre|].
    exact Hq.
  - intros path req q Hl. split.
    + apply load_locked_requirement_artifacts, Hl.
    + cbn. lia.
Qed.

(** ** Platform tags *)

Lemma assemble_tag_arity (components : list json) (path : string) :
  (length components =? 3)%nat && forallb is_str components = false ->
  assemble_tag (JList components) path
  = raise_parse (msg_tag py_str path components (JList components)).
Proof.
  intros Hbad. unfold assemble_tag. cbn [py_iter mbind result_bind].
  destruct (length components =? 3)%nat; cbn in Hbad |- *; [|reflexivity].
  rewrite Hbad. reflexivity.
Qed.

(** C8, amended. A platform tag that is a non-empty list has to have
    exactly 3 components, all strings. Otherwise its locked resolve raises
    the [ParseError] that cites the 3-component rule, the number of
    components given, their types and the components; [loads] never
    returns a lock for such a document, and raises that very error once its
    loop has come to the locked resolve. *)
Theorem loads_platform_tag_arity
    (d : list (string * json)) (resolves : list json) (lock_index : nat)
    (lr : list (string * json)) (components : list json) :
  dict_get d "locked_resolves" = Some (JList resolves) ->
  resolves !! lock_index = Some (JObj lr) ->
  dict_get lr "platform_tag" = Some (JList components) ->
  components <> [] ->
  (length components =? 3)%nat && forallb is_str components = false ->
  let message :=
    "The tag at '.locked_resolves[" ++ nat_str lock_index ++ "][" ++ dq
    ++ "platform_tag" ++ dq ++ "]' must have 3 string components. Given "
    ++ nat_str (length components) ++ " with types ["
    ++ comma_join (map type_name components) ++ "]: "
    ++ py_str (JList components) in
  load_locked_resolve lt source pm lock_index (JObj lr) = raise_parse message
  /\ (forall L, loads lt source pm (inl (JObj d)) <> Ok L)
  /\ (reaches_locked_resolve lt source pm (JObj d) resolves lock_index = true ->
      loads lt source pm (inl (JObj d)) = raise_parse message).
Proof.
  intros Hd Hlr Htag Hne Hbad message.
  assert (Hq : load_locked_resolve lt source pm lock_index (JObj lr) = raise_parse message).
  { unfold load_locked_resolve.
    rewrite (load_platform_tag_present source _ lr _ Htag).
    assert (Ht : truthy (JList components) = true)
      by (destruct components; [contradiction|reflexivity]).
    rewrite Ht, (assemble_tag_arity _ _ Hbad). cbn [fmap result_fmap mbind result_bind].
    unfold message, msg_tag, lock_path.
    rewrite !append_assoc. reflexivity. }
  split; [exact Hq|]. split.
  - eapply loads_not_ok_resolve; [exact Hd|exact Hlr|]. rewrite Hq. reflexivity.
  - intros Hreach. eapply loads_raise_at_resolve; eauto.
Qed.

(** C9. A ["platform_tag"] that is the empty list raises no arity error:
    the tag is taken as absent. The locked resolve is processed as with
    ["platform_tag": null], and a lock that [loads] returns has no platform
    tag at that locked resolve. *)
Theorem loads_empty_platform_tag_is_absent
    (d : list (string * json)) (resolves : list json) (lock_index : nat)
    (lr : list (string * json)) :
  dict_get d "locked_resolves" = Some (JList resolves) ->
  resolves !! lock_index = Some (JObj lr) ->
  dict_get lr "platform_tag" = Some (JList []) ->
  load_platform_tag source (lock_path lock_index) (JObj lr) = Ok None
  /\ load_locked_resolve lt source pm lock_index (JObj lr)
     = load_locked_resolve lt source pm lock_index
         (JObj (dict_set lr "platform_tag" JNull))
  /\ loads lt source pm (inl (JObj d))
     = loads lt source pm
         (inl (JObj (dict_set d "locked_resolves"
                       (JList (<[lock_index := JObj (dict_set lr "platform_tag" JNull)]>
                                 resolves)))))
  /\ (forall L,
        loads lt source pm (inl (JObj d)) = Ok L ->
        exists locked_resolve,
          locked_resolves L !! lock_index = Some locked_resolve
          /\ platform_tag locked_resolve = None).
Proof.
  intros Hd Hlr Htag.
  assert (H1 : load_platform_tag source (lock_path lock_index) (JObj lr) = Ok None).
  { rewrite (load_platform_tag_present source _ lr _ Htag). reflexivity. }
  assert (H2 : load_locked_resolve lt source pm lock_index (JObj lr)
               = load_locked_resolve lt source pm lock_index
                   (JObj (dict_set lr "platform_tag" JNull))).
  { unfold load_locked_resolve. rewrite H1.
    rewrite (load_platform_tag_present source _ _ _ (dict_get_set_eq lr "platform_tag" JNull)).
    cbn [truthy mbind result_bind]. unfold get_list, get.
    rewrite dict_get_set_ne by discriminate. reflexivity. }
  split; [exact H1|]. split; [exact H2|]. split.
  - unfold loads. cbn [_load_json].
    change (Ok (JObj ?x) ≫= ?f) with (f (JObj x)). cbv beta.
    unfold check_path_mappings, load_target_systems, load_requirements,
      load_constraints, load_locked_resolves, create_lockfile, get_enum_value,
      get_str, get_list, get_bool, get.
    rewrite dict_get_set_eq, Hd.
    rewrite !dict_get_set_ne by discriminate.
    cbn [isinstance negb andb mbind result_bind as_list].
    rewrite (mapM_enum_insert _ resolves 0 lock_index (JObj lr) _ Hlr (eq_sym H2)).
    reflexivity.
  - intros L HL.
    apply loads_ok_inv in HL as (ts & reqs & cs & lrs & _ & _ & _ & _ & Hr & Hc).
    apply load_locked_resolves_ok_inv in Hr as (resolves' & Hd' & Hm).
    rewrite Hd in Hd'. injection Hd' as <-.
    destruct (mapM_enum_ok_lookup _ _ _ _ _ _ Hm Hlr) as (y & Hy & Hk).
    apply create_lockfile_ok_inv in Hc as (_ & _ & _ & -> & _).
    exists y. split; [exact Hk|].
    change (0 + lock_index) with lock_index in Hy.
    apply load_locked_resolve_ok_inv in Hy as (tag & ? & ? & Ht & _ & _ & ->).
    rewrite H1 in Ht. injection Ht as <-. reflexivity.
Qed.

(** ** A document without ["requirements"] *)

(** C6, amended. A document that is a JSON object without the key
    ["requirements"] never parses. Once the path-mapping check and the
    target systems have passed, [loads] raises the [ParseError] of a missing
    key, which names the object at path [.] and the key ['requirements']. *)
Theorem loads_missing_requirements (d : list (string * json)) :
  dict_get d "requirements" = None ->
  (forall L, loads lt source pm (inl (JObj d)) <> Ok L)
  /\ (is_ok (check_path_mappings source pm (JObj d)) = true ->
      is_ok (load_target_systems source (JObj d)) = true ->
      loads lt source pm (inl (JObj d))
      = raise_parse ("The object at '.' in " ++ source
                     ++ " did not have the expected key 'requirements'.")).
Proof.
  intros Hd.
  assert (Hq : load_requirements source pm (JObj d)
               = raise_parse (msg_missing_key "." source "requirements")).
  { unfold load_requirements, get_list, get. rewrite Hd. reflexivity. }
  split.
  - intros L HL.
    apply loads_ok_inv in HL as (ts & reqs & cs & lrs & _ & _ & Hr & _).
    rewrite Hq in Hr. discriminate.
  - intros H1 H2. apply is_ok_true in H1 as ([] & H1). apply is_ok_true in H2 as (ts & H2).
    unfold loads. cbn [_load_json].
    change (Ok (JObj d) ≫= ?f) with (f (JObj d)). cbv beta.
    rewrite H1; cbn [mbind result_bind]. rewrite H2; cbn [mbind result_bind].
    rewrite Hq. reflexivity.
Qed.

(** ** What the accessor reports, and [loads] with it *)

Lemma raises_bind_same {A B} (m : result A) (f g : A -> result B) e :
  (forall a, m = Ok a -> raises_unless_earlier (f a) e (g a)) ->
  raises_unless_earlier (m ≫= f) e (m ≫= g).
Proof.
  intros Hf. destruct m as [a|e']; cbn; [exact (Hf a eq_refl)|].
  right. exists e'. split; reflexivity.
Qed.

Lemma raises_bind {A B} (m m' : result A) (f g : A -> result B) e :
  raises_unless_earlier m e m' -> raises_unless_earlier (m ≫= f) e (m' ≫= g).
Proof.
  intros [->|(e' & -> & ->)]; [left; reflexivity|].
  right. exists e'. split; reflexivity.
Qed.

Lemma mapM_enum_raises {A B} (f : nat -> A -> result B) (l : list A) :
  forall i k x x' e,
    l !! k = Some x ->
    raises_unless_earlier (f (i + k) x) e (f (i + k) x') ->
    raises_unless_earlier (mapM_enum f i l) e (mapM_enum f i (<[k := x']> l)).
Proof.
  induction l as [|a l IH]; intros i k x x' e Hk Hf; [discriminate|].
  destruct k as [|k].
  - injection Hk as ->. rewrite Nat.add_0_r in Hf. cbn [mapM_enum].
    apply raises_bind. exact Hf.
  - change (<[S k := x']> (a :: l)) with (a :: <[k := x']> l). cbn [mapM_enum].
    apply raises_bind_same. intros y _. apply raises_bind.
    apply (IH (S i) k x x' e Hk).
    replace (S i + k) with (i + S k) by lia. exact Hf.
Qed.

Lemma get_set_ne d key key' w t path optional :
  key <> key' ->
  get py_str source key' t (JObj (dict_set d key w)) path optional
  = get py_str source key' t (JObj d) path optional.
Proof. intros Hne. unfold get. rewrite dict_get_set_ne by exact Hne. reflexivity. Qed.

Lemma get_optional_object key t d path e :
  get py_str source key t (JObj d) path true <> Raise e.
Proof. unfold get. destruct (dict_get d key); discriminate. Qed.

Ltac other_keys :=
  repeat match goal with
    | |- context [get ?p ?s ?k' ?t (JObj (dict_set ?d ?k ?w)) ?path ?o] =>
        rewrite (get_set_ne d k k' w t path o) by discriminate
    end.

Ltac raises_steps :=
  repeat first
    [ apply raises_bind_same; intros ? _
    | match goal with
      | |- raises_unless_earlier (match ?l with [] => _ | _ :: _ => _ end) _ _ =>
          destruct l; [right; eexists; split; reflexivity|]
      end ].

Lemma load_artifact_raises ap x key t optional w e :
  In (key, t, optional) artifact_keys ->
  asked_first "url" x key ->
  get py_str source key t x ap optional = Raise e ->
  raises_unless_earlier
    (load_artifact source pm ap x) e (load_artifact source pm ap (repair x key w)).
Proof.
  intros Hin Hfirst Hget. unfold load_artifact, get_str.
  destruct x as [| | | | | |a].
  1-6: (cbn in Hfirst; subst key; left;
        cbv [get raise_parse] in Hget; injection Hget as <-; reflexivity).
  cbn [repair]. cbn [In artifact_keys] in Hin.
  repeat (destruct Hin as [[= <- <- <-]|Hin];
          [other_keys; rewrite Hget; raises_steps; left; reflexivity|]).
  destruct Hin.
Qed.

Lemma load_locked_requirement_raises path y key t optional w e :
  In (key, t, optional) locked_requirement_keys ->
  asked_first "artifacts" y key ->
  get py_str source key t y path optional = Raise e ->
  raises_unless_earlier
    (load_locked_requirement source pm path y) e
    (load_locked_requirement source pm path (repair y key w)).
Proof.
  intros Hin Hfirst Hget.
  unfold load_locked_requirement, load_artifacts, get_str, get_list.
  destruct y as [| | | | | |r].
  1-6: (cbn in Hfirst; subst key; left;
        cbv [get raise_parse] in Hget; injection Hget as <-; reflexivity).
  cbn [repair]. cbn [In locked_requirement_keys] in Hin.
  repeat (destruct Hin as [[= <- <- <-]|Hin];
          [first [ destruct (get_optional_object _ _ _ _ _ Hget)
                 | other_keys; rewrite Hget; raises_steps; left; reflexivity ]|]).
  destruct Hin.
Qed.

Lemma load_locked_resolve_raises lock_index x key t optional w e :
  In (key, t, optional) locked_resolve_keys ->
  asked_first "platform_tag" x key ->
  get py_str source key t x (lock_path lock_index) optional = Raise e ->
  raises_unless_earlier
    (load_locked_resolve lt source pm lock_index x) e
    (load_locked_resolve lt source pm lock_index (repair x key w)).
Proof.
  intros Hin Hfirst Hget.
  unfold load_locked_resolve, load_platform_tag, get_list.
  destruct x as [| | | | | |lr].
  1-6: (cbn in Hfirst; subst key; left;
        cbv [get raise_parse] in Hget; injection Hget as <-; reflexivity).
  cbn [repair]. cbn [In locked_resolve_keys] in Hin.
  repeat (destruct Hin as [[= <- <- <-]|Hin];
          [first [ destruct (get_optional_object _ _ _ _ _ Hget)
                 | other_keys; rewrite Hget; raises_steps; left; reflexivity ]|]).
  destruct Hin.
Qed.

Lemma loads_raises d key t w e :
  In (key, t) required_keys ->
  get py_str source key t (JObj d) "." false = Raise e ->
  raises_unless_earlier
    (loads lt source pm (inl (JObj d))) e
    (loads lt source pm (inl (JObj (dict_set d key w)))).
Proof.
  intros Hin Hget.
  unfold loads, check_path_mappings, load_target_systems, load_requirements,
    load_constraints, load_locked_resolves, create_lockfile, get_enum_value,
    get_str, get_list, get_bool.
  cbn [_load_json]. change (Ok ?x ≫= ?f) with (f x). cbv beta.
  change (bool_decide (is_Some None)) with false.
  cbn [In required_keys] in Hin.
  repeat (destruct Hin as [[= <- <-]|Hin];
          [other_keys; rewrite Hget; raises_steps; left; reflexivity|]).
  destruct Hin.
Qed.

(** An artifact that raises makes its locked requirement raise, unless an
    earlier artifact does. *)
Lemma load_locked_requirement_raises_at path r arts k z z' e :
  dict_get r "artifacts" = Some (JList arts) ->
  arts !! k = Some z ->
  raises_unless_earlier
    (load_artifact source pm (artifact_path path k) z) e
    (load_artifact source pm (artifact_path path k) z') ->
  raises_unless_earlier
    (load_locked_requirement source pm path (JObj r)) e
    (load_locked_requirement source pm path (replace_entry r "artifacts" arts k z')).
Proof.
  intros Hd Hk Hz. unfold load_locked_requirement, replace_entry.
  apply raises_bind. unfold load_artifacts.
  rewrite (get_list_present source _ _ _ _ Hd).
  rewrite (get_list_present source _ _ _ _ (dict_get_set_eq r "artifacts" _)).
  cbn [mbind result_bind].
  exact (mapM_enum_raises _ arts 0 k z z' e Hk Hz).
Qed.

(** A locked requirement that raises makes its locked resolve raise, unless
    the platform tag or an earlier locked requirement does. *)
Lemma load_locked_resolve_raises_at lock_index lr reqs j y y' e :
  dict_get lr "locked_requirements" = Some (JList reqs) ->
  reqs !! j = Some y ->
  raises_unless_earlier
    (load_locked_requirement source pm (req_path lock_index j) y) e
    (load_locked_requirement source pm (req_path lock_index j) y') ->
  raises_unless_earlier
    (load_locked_resolve lt source pm lock_index (JObj lr)) e
    (load_locked_resolve lt source pm lock_index
       (replace_entry lr "locked_requirements" reqs j y')).
Proof.
  intros Hd Hj Hy. unfold load_locked_resolve, replace_entry, load_platform_tag.
  other_keys. apply raises_bind_same. intros tag _.
  rewrite (get_list_present source _ _ _ _ Hd).
  rewrite (get_list_present source _ _ _ _ (dict_get_set_eq lr "locked_requirements" _)).
  cbn [mbind result_bind]. apply raises_bind.
  exact (mapM_enum_raises _ reqs 0 j y y' e Hj Hy).
Qed.

(** A locked resolve that raises makes [loads] raise, unless an earlier
    statement or an earlier locked resolve does. *)
Lemma loads_raises_at d resolves i x x' e :
  dict_get d "locked_resolves" = Some (JList resolves) ->
  resolves !! i = Some x ->
  raises_unless_earlier
    (load_locked_resolve lt source pm i x) e
    (load_locked_resolve lt source pm i x') ->
  raises_unless_earlier
    (loads lt source pm (inl (JObj d))) e
    (loads lt source pm (inl (replace_entry d "locked_resolves" resolves i x'))).
Proof.
  intros Hd Hi Hx.
  unfold loads, replace_entry, check_path_mappings, load_target_systems,
    load_requirements, load_constraints, load_locked_resolves, get_list.
  cbn [_load_json]. change (Ok ?x ≫= ?f) with (f x). cbv beta.
  other_keys. do 4 (apply raises_bind_same; intros ? _).
  apply raises_bind.
  rewrite (get_required_present source d "locked_resolves" t_list "." _ Hd eq_refl).
  rewrite (get_required_present source _ "locked_resolves" t_list "."
             (JList (<[i := x']> resolves))
             (dict_get_set_eq d "locked_resolves" _) eq_refl).
  cbn [mbind result_bind as_list].
  exact (mapM_enum_raises _ resolves 0 i x x' e Hi Hx).
Qed.

(** C4, amended. What the accessor reports, and [loads] with it. A value
    that is not an object raises a [ParseError] with the path, the key, the
    type found and the value, whether the key is optional or not. A missing
    key raises one with the path and the key when the key is required, and
    gives [None] when it is optional. A value of another type than the
    expected one raises a [ParseError] with the path, the key, the expected
    type, the type found and the value when the key is required; the value
    of an optional key is returned without a look at its type. [loads]
    raises what the accessor raises, for every required key of the top
    level and for every key of a locked resolve, of a locked requirement
    and of an artifact: either [loads] raises that very exception, or an
    earlier statement raises first, and [loads] then raises what it raises
    on the document in which the value under the key is replaced. It
    returns no lock when a required key of the top level holds a value of
    another type than the expected one. *)
Theorem loads_diagnostics :
  (forall key expected_type data path optional,
     (forall d, data <> JObj d) ->
     get py_str source key expected_type data path optional
     = raise_parse
         ("Cannot retrieve '" ++ path ++ "[" ++ dq ++ key ++ dq ++ "]' in " ++ source
          ++ " because '" ++ path ++ "' is not a JSON object but a "
          ++ type_name data ++ " with value " ++ py_str data ++ "."))
  /\ (forall key expected_type d path,
        dict_get d key = None ->
        get py_str source key expected_type (JObj d) path false
        = raise_parse
            ("The object at '" ++ path ++ "' in " ++ source
             ++ " did not have the expected key '" ++ key ++ "'.")
        /\ get py_str source key expected_type (JObj d) path true = Ok JNull)
  /\ (forall key expected_type d path value,
        dict_get d key = Some value ->
        isinstance value expected_type = false ->
        get py_str source key expected_type (JObj d) path false
        = raise_parse
            ("Expected '" ++ path ++ "[" ++ dq ++ key ++ dq ++ "]' in " ++ source
             ++ " to be of type " ++ ptype_name expected_type ++ " but given "
             ++ type_name value ++ " with value " ++ py_str value ++ ".")
        /\ get py_str source key expected_type (JObj d) path true = Ok value)
  /\ (forall key expected_type d value,
        In (key, expected_type) required_keys ->
        dict_get d key = Some value ->
        isinstance value expected_type = false ->
        forall L, loads lt source pm (inl (JObj d)) <> Ok L)
  /\ (forall d key expected_type w e,
        In (key, expected_type) required_keys ->
        get py_str source key expected_type (JObj d) "." false = Raise e ->
        raises_unless_earlier
          (loads lt source pm (inl (JObj d))) e
          (loads lt source pm (inl (JObj (dict_set d key w)))))
  /\ (forall d resolves lock_index locked_resolve key expected_type optional w e,
        dict_get d "locked_resolves" = Some (JList resolves) ->
        resolves !! lock_index = Some locked_resolve ->
        In (key, expected_type, optional) locked_resolve_keys ->
        asked_first "platform_tag" locked_resolve key ->
        get py_str source key expected_type locked_resolve (lock_path lock_index)
          optional = Raise e ->
        raises_unless_earlier
          (loads lt source pm (inl (JObj d))) e
          (loads lt source pm
             (inl (replace_entry d "locked_resolves" resolves lock_index
                     (repair locked_resolve key w)))))
  /\ (forall d resolves lock_index lr reqs req_index req key expected_type
             optional w e,
        dict_get d "locked_resolves" = Some (JList resolves) ->
        resolves !! lock_index = Some (JObj lr) ->
        dict_get lr "locked_requirements" = Some (JList reqs) ->
        reqs !! req_index = Some req ->
        In (key, expected_type, optional) locked_requirement_keys ->
        asked_first "artifacts" req key ->
        get py_str source key expected_type req (req_path lock_index req_index)
          optional = Raise e ->
        raises_unless_earlier
          (loads lt source pm (inl (JObj d))) e
          (loads lt source pm
             (inl (replace_entry d "locked_resolves" resolves lock_index
                     (replace_entry lr "locked_requirements" reqs req_index
                        (repair req key w))))))
  /\ (forall d resolves lock_index lr reqs req_index r artifacts i artifact key
             expected_type optional w e,
        dict_get d "locked_resolves" = Some (JList resolves) ->
        resolves !! lock_index = Some (JObj lr) ->
        dict_get lr "locked_requirements" = Some (JList reqs) ->
        reqs !! req_index = Some (JObj r) ->
        dict_get r "artifacts" = Some (JList artifacts) ->
        artifacts !! i = Some artifact ->
        In (key, expected_type, optional) artifact_keys ->
        asked_first "url" artifact key ->
        get py_str source key expected_type artifact
          (artifact_path (req_path lock_index req_index) i) optional = Raise e ->
        raises_unless_earlier
          (loads lt source pm (inl (JObj d))) e
          (loads lt source pm
             (inl (replace_entry d "locked_resolves" resolves lock_index
                     (replace_entry lr "locked_requirements" reqs req_index
                        (replace_entry r "artifacts" artifacts i
                           (repair artifact key w))))))).
Proof.
  repeat apply conj.
  - intros key t data path optional Hnot. unfold get.
    destruct data; try reflexivity. destruct (Hnot m eq_refl).
  - intros key t d path Hd. unfold get. rewrite Hd. split; [|reflexivity].
    cbn [negb]. unfold msg_missing_key, repr_key. rewrite !append_assoc. reflexivity.
  - intros key t d path value Hd Ht. unfold get. rewrite Hd, Ht. split; reflexivity.
  - intros key t d value Hin Hd Ht L HL.
    destruct (loads_ok_required_keys lt source pm d L HL key t Hin) as (v & Hv & Hvt).
    rewrite Hd in Hv. injection Hv as <-. rewrite Ht in Hvt. discriminate.
  - intros d key t w e Hin Hget. exact (loads_raises d key t w e Hin Hget).
  - intros d resolves i x key t optional w e Hd Hi Hin Hfirst Hget.
    apply (loads_raises_at d resolves i x _ e Hd Hi).
    exact (load_locked_resolve_raises i x key t optional w e Hin Hfirst Hget).
  - intros d resolves i lr reqs j y key t optional w e Hd Hi Hlr Hj Hin Hfirst Hget.
    apply (loads_raises_at d resolves i (JObj lr) _ e Hd Hi).
    apply (load_locked_resolve_raises_at i lr reqs j y _ e Hlr Hj).
    exact (load_locked_requirement_raises _ y key t optional w e Hin Hfirst Hget).
  - intros d resolves i lr reqs j r arts k z key t optional w e
      Hd Hi Hlr Hj Hr Hk Hin Hfirst Hget.
    apply (loads_raises_at d resolves i (JObj lr) _ e Hd Hi).
    apply (load_locked_resolve_raises_at i lr reqs j (JObj r) _ e Hlr Hj).
    apply (load_locked_requirement_raises_at _ r arts k z _ e Hr Hk).
    exact (load_artifact_raises _ z key t optional w e Hin Hfirst Hget).
Qed.

End CodecClaims.

(** ** Writing a lock and reading it back *)

Section RoundTrip.
Context `{Externals}.
Variable lt : LockedRequirement -> LockedRequirement -> bool.
Variable source : string.
Variable pm : PathMappings.

Lemma or_empty_dict (d : list (string * json)) :
  (if truthy (JObj d) then JObj d else JObj []) = JObj d.
Proof. destruct d; reflexivity. Qed.

Lemma or_empty_list (l : list json) :
  (if truthy (JList l) then JList l else JList []) = JList l.
Proof. destruct l; reflexivity. Qed.

Lemma dict_keys_set d key v k :
  In k (dict_keys (dict_set d key v)) -> k = key \/ In k (dict_keys d).
Proof.
  induction d as [|[k' w] d IH]; cbn.
  - intros [<-|[]]. left; reflexivity.
  - destruct (String.eqb_spec k' key) as [->|Hne]; cbn.
    + intros [<-|Hk]; [left; reflexivity|right; right; exact Hk].
    + intros [<-|Hk]; [right; left; reflexivity|].
      destruct (IH Hk) as [->|Hd]; [left; reflexivity|right; right; exact Hd].
Qed.

Lemma path_mappings_keys (ms : list PathMapping) :
  forall acc k,
    In k (dict_keys
            (fold_left
               (fun d m => dict_set d (pm_name m) (json_of_option_str (pm_description m)))
               ms acc)) ->
    In k (dict_keys acc) \/ In k (map pm_name ms).
Proof.
  induction ms as [|m ms IH]; intros acc k Hk; [left; exact Hk|].
  cbn [fold_left] in Hk. destruct (IH _ _ Hk) as [Hacc|Hms].
  - apply dict_keys_set in Hacc as [->|Hacc]; [right; left; reflexivity|left; exact Hacc].
  - right; right; exact Hms.
Qed.

Lemma all_given (names : list string) :
  (forall n, In n names -> n ∈ given_mappings pm) ->
  List.filter (fun n => bool_decide (n ∉ given_mappings pm)) names = [].
Proof.
  induction names as [|n names IH]; intros Hall; [reflexivity|].
  cbn [List.filter].
  rewrite bool_decide_eq_false_2 by (intros Hn; apply Hn, Hall; left; reflexivity).
  apply IH. intros m Hm. apply Hall. right; exact Hm.
Qed.

Lemma check_path_mappings_written L :
  check_path_mappings source pm (as_json_data L pm) = Ok ().
Proof.
  unfold check_path_mappings.
  replace (get py_str source "path_mappings" t_dict (as_json_data L pm) "." true)
    with (Ok (path_mappings_json pm)) by reflexivity.
  cbn [mbind result_bind]. unfold path_mappings_json.
  rewrite or_empty_dict. unfold py_set. cbn [py_iter mbind result_bind].
  rewrite hashable_names. cbn [mbind result_bind]. rewrite unspecified_names.
  rewrite all_given; [reflexivity|].
  intros n Hn. apply path_mappings_keys in Hn as [[]|Hn].
  unfold given_mappings. apply elem_of_list_to_set, list_elem_of_In, Hn.
Qed.

Lemma parse_enum_value_stable {T} `{Enum T} (v : T) (path : string) :
  enum_stable v -> parse_enum_value (JStr (enum_str v)) path = Ok v.
Proof. unfold enum_stable, parse_enum_value. intros ->. reflexivity. Qed.

Lemma Forall_In_iff {A} (P : A -> Prop) (l : list A) :
  Forall P l -> forall x, In x l -> P x.
Proof. intros HP x Hx. rewrite Forall_forall in HP. apply HP, list_elem_of_In, Hx. Qed.

Lemma load_target_systems_written L :
  Forall enum_stable (target_systems L) ->
  load_target_systems source (as_json_data L pm) = Ok (target_systems L).
Proof.
  intros Hs. unfold load_target_systems.
  replace (get py_str source "target_systems" t_list (as_json_data L pm) "." true)
    with (Ok (JList (map (fun t => JStr (enum_str t)) (target_systems L))))
    by reflexivity.
  cbn [mbind result_bind]. rewrite or_empty_list. cbn [py_iter mbind result_bind].
  rewrite (mapM_enum_map_ok _ _ id); [rewrite map_id; reflexivity|].
  intros i x Hx. apply parse_enum_value_stable, (Forall_In_iff _ _ Hs), Hx.
Qed.

Lemma load_requirements_written L :
  Forall (requirement_stable pm) (requirements L) ->
  load_requirements source pm (as_json_data L pm) = Ok (requirements L).
Proof.
  intros Hs. unfold load_requirements.
  replace (get_list source "requirements" (as_json_data L pm) ".")
    with (Ok (map (fun r => JStr (maybe_canonicalize pm (Requirement_str r)))
                (requirements L)) : result (list json)) by reflexivity.
  cbn [mbind result_bind].
  rewrite (mapM_enum_map_ok _ _ id); [rewrite map_id; reflexivity|].
  intros i x Hx. unfold parse_requirement. cbn [as_str mbind result_bind].
  rewrite (Forall_In_iff _ _ Hs x Hx). reflexivity.
Qed.

Lemma load_constraints_written L :
  Forall (constraint_stable pm) (constraints L) ->
  load_constraints source pm (as_json_data L pm) = Ok (constraints L).
Proof.
  intros Hs. unfold load_constraints.
  replace (get_list source "constraints" (as_json_data L pm) ".")
    with (Ok (map (fun r => JStr (Requirement_str r)) (constraints L))
          : result (list json)) by reflexivity.
  cbn [mbind result_bind].
  rewrite (mapM_enum_map_ok _ _ id); [rewrite map_id; reflexivity|].
  intros i x Hx. unfold parse_requirement. cbn [as_str mbind result_bind].
  rewrite (Forall_In_iff _ _ Hs x Hx). reflexivity.
Qed.

Lemma load_artifact_written (ap : string) (a : Artifact) :
  artifact_stable pm a -> load_artifact source pm ap (artifact_json pm a) = Ok a.
Proof.
  unfold artifact_stable, load_artifact. intros Hs.
  replace (get_str source "url" (artifact_json pm a) ap)
    with (Ok (maybe_canonicalize pm (url a)) : result string) by reflexivity.
  replace (get_str source "algorithm" (artifact_json pm a) ap)
    with (Ok (algorithm (fingerprint a)) : result string) by reflexivity.
  replace (get_str source "hash" (artifact_json pm a) ap)
    with (Ok (hash (fingerprint a)) : result string) by reflexivity.
  cbn [mbind result_bind]. rewrite Hs.
  destruct a as [u [alg h]]. reflexivity.
Qed.

Lemma SortedTuple_ascending {A} (lt' : A -> A -> bool) (l : list A) :
  ascending lt' l = true -> SortedTuple lt' l = l.
Proof.
  induction l as [|x l IH]; [reflexivity|].
  intros Ha. cbn [SortedTuple foldr]. fold (SortedTuple lt' l).
  destruct l as [|y l]; [reflexivity|].
  cbn [ascending] in Ha. apply andb_prop in Ha as [Hxy Ha].
  rewrite (IH Ha). cbn [insert_sorted].
  apply negb_true_iff in Hxy. rewrite Hxy. reflexivity.
Qed.

Lemma load_locked_requirement_written (path : string) (req : LockedRequirement) :
  locked_requirement_stable pm req ->
  load_locked_requirement source pm path (locked_requirement_json pm req) = Ok req.
Proof.
  destruct req as [[pn v] rp rd a more].
  intros (Hname & Hversion & Hspec & Hdists & Harts).
  cbn [pin project_name version lr_requires_python requires_dists iter_artifacts
       artifact additional_artifacts] in *.
  set (req := {| pin := {| project_name := pn; version := v |};
                 lr_requires_python := rp; requires_dists := rd; artifact := a;
                 additional_artifacts := more |}).
  unfold load_locked_requirement, load_artifacts.
  replace (get_list source "artifacts" (locked_requirement_json pm req) path)
    with (Ok (map (artifact_json pm) (a :: more)) : result (list json))
    by reflexivity.
  cbn [mbind result_bind].
  rewrite (mapM_enum_map_ok _ _ id);
    [rewrite map_id|intros i x Hx; apply load_artifact_written, (Forall_In_iff _ _ Harts), Hx].
  cbn [mbind result_bind].
  replace (get py_str source "requires_python" t_str (locked_requirement_json pm req) path true)
    with (Ok match rp with
             | Some s => if (0 <? SpecifierSet_len s)%nat
                         then JStr (SpecifierSet_str s) else JNull
             | None => JNull
             end) by reflexivity.
  cbn [mbind result_bind].
  assert (Hrp :
    (let version_specifier :=
       match rp with
       | Some s => if (0 <? SpecifierSet_len s)%nat
                   then JStr (SpecifierSet_str s) else JNull
       | None => JNull
       end in
     if truthy version_specifier
     then Some <$> parse_version_specifier version_specifier
                     (path ++ "[" ++ dq ++ "requires_python" ++ dq ++ "]")
     else Ok None) = Ok rp).
  { unfold specifier_stable in Hspec. destruct rp as [s|]; [|reflexivity].
    destruct Hspec as (Hlen & Htruthy & Hnew). cbv zeta. rewrite Hlen, Htruthy.
    unfold parse_version_specifier. cbn [as_str mbind result_bind].
    rewrite Hnew. reflexivity. }
  cbv zeta in Hrp. rewrite Hrp. cbn [mbind result_bind].
  replace (get_str source "project_name" (locked_requirement_json pm req) path)
    with (Ok (ProjectName_str pn) : result string) by reflexivity.
  cbn [mbind result_bind]. rewrite Hname. cbn [from_option mbind result_bind].
  replace (get_str source "version" (locked_requirement_json pm req) path)
    with (Ok (Version_str v) : result string) by reflexivity.
  cbn [mbind result_bind]. rewrite Hversion. cbn [from_option mbind result_bind].
  replace (get_list source "requires_dists" (locked_requirement_json pm req) path)
    with (Ok (map (fun r => JStr (maybe_canonicalize pm (Requirement_str r))) rd)
          : result (list json)) by reflexivity.
  cbn [mbind result_bind].
  rewrite (mapM_enum_map_ok _ _ id);
    [rewrite map_id; reflexivity|].
  intros i x Hx. unfold parse_requirement. cbn [as_str mbind result_bind].
  rewrite (Forall_In_iff _ _ Hdists x Hx). reflexivity.
Qed.

Lemma load_platform_tag_written (path : string) (locked_resolve : LockedResolve) :
  tag_stable (platform_tag locked_resolve) ->
  load_platform_tag source path (locked_resolve_json pm locked_resolve)
  = Ok (platform_tag locked_resolve).
Proof.
  intros Ht. unfold locked_resolve_json.
  erewrite load_platform_tag_present by reflexivity.
  destruct (platform_tag locked_resolve) as [tag|]; [|reflexivity].
  cbn in Ht |- *. rewrite Ht. reflexivity.
Qed.

Lemma load_locked_resolve_written (lock_index : nat) (locked_resolve : LockedResolve) :
  locked_resolve_stable lt pm locked_resolve ->
  load_locked_resolve lt source pm lock_index (locked_resolve_json pm locked_resolve)
  = Ok locked_resolve.
Proof.
  intros (Htag & Hasc & Hreqs). unfold load_locked_resolve.
  rewrite (load_platform_tag_written _ _ Htag). cbn [mbind result_bind].
  replace (get_list source "locked_requirements"
             (locked_resolve_json pm locked_resolve) (lock_path lock_index))
    with (Ok (map (locked_requirement_json pm) (locked_requirements locked_resolve))
          : result (list json)) by reflexivity.
  cbn [mbind result_bind].
  rewrite (mapM_enum_map_ok _ _ id);
    [rewrite map_id
    |intros i x Hx; apply load_locked_requirement_written, (Forall_In_iff _ _ Hreqs), Hx].
  cbn [mbind result_bind]. rewrite (SortedTuple_ascending _ _ Hasc).
  destruct locked_resolve. reflexivity.
Qed.

Lemma load_locked_resolves_written L :
  Forall (locked_resolve_stable lt pm) (locked_resolves L) ->
  load_locked_resolves lt source pm (as_json_data L pm) = Ok (locked_resolves L).
Proof.
  intros Hs. unfold load_locked_resolves.
  replace (get_list source "locked_resolves" (as_json_data L pm) ".")
    with (Ok (map (locked_resolve_json pm) (locked_resolves L)) : result (list json))
    by reflexivity.
  cbn [mbind result_bind].
  rewrite (mapM_enum_map_ok _ _ id); [rewrite map_id; reflexivity|].
  intros i x Hx. apply load_locked_resolve_written, (Forall_In_iff _ _ Hs), Hx.
Qed.

Lemma get_enum_value_written {T} `{Enum T} (data : json) (key : string)
    (v : T) (default : option T) :
  json_get data key = Some (JStr (enum_str v)) ->
  enum_stable v ->
  (is_Some default -> truthy (JStr (enum_str v)) = true) ->
  get_enum_value source data key "." default = Ok v.
Proof.
  intros Hd Hs Ht. unfold get_enum_value, get.
  destruct data; try discriminate. cbn [json_get] in Hd. rewrite Hd.
  cbn [isinstance negb andb]. rewrite andb_false_r. cbn [mbind result_bind].
  destruct default as [dflt|].
  - rewrite Ht by eauto. cbn [negb]. apply parse_enum_value_stable, Hs.
  - apply parse_enum_value_stable, Hs.
Qed.

Lemma create_lockfile_written L :
  enum_stable (style L) ->
  enum_stable (pip_version L) ->
  truthy (JStr (enum_str (pip_version L))) = true ->
  enum_stable (resolver_version L) ->
  create_lockfile source (as_json_data L pm) (target_systems L) (requirements L)
    (constraints L) (locked_resolves L)
  = Ok (with_source source L).
Proof.
  intros Hstyle Hpip Hpip_text Hresolver. unfold create_lockfile.
  rewrite (get_enum_value_written (as_json_data L pm) "style" (style L) None
             eq_refl Hstyle) by (intros [? [=]]).
  rewrite (get_enum_value_written (as_json_data L pm) "pip_version" (pip_version L)
             _ eq_refl Hpip) by (intros _; exact Hpip_text).
  rewrite (get_enum_value_written (as_json_data L pm) "resolver_version"
             (resolver_version L) None eq_refl Hresolver) by (intros [? [=]]).
  reflexivity.
Qed.

(** C1, amended. Reading back what [as_json_data] writes for a lock gives
    the lock again, with the [source] of the call as its provenance, when
    the lock is stable under the path mappings, that is: [for_value] reads
    the style, every target system, the Pip version and the resolver
    version back from their text, and the text of the Pip version is not
    empty; the requirement grammar reads every requirement, and every
    dependency of a locked requirement, back from its string canonicalized
    and then reified, and every constraint back from its string reified;
    the project name and the version of every pin are rebuilt from their
    text; a specifier set that is present has a length that is not zero
    and a text that is not empty, from which it is parsed back; reifying
    restores the URL of every artifact from its canonicalized form; every
    platform tag that is present is rebuilt from its three components; and
    the locked requirements of each locked resolve are in ascending
    order. *)
Theorem loads_as_json_data_roundtrip (L : Lockfile) :
  lockfile_stable lt pm L ->
  loads lt source pm (inl (as_json_data L pm)) = Ok (with_source source L).
Proof.
  intros (Hstyle & Hts & Hpip & Hpip_text & Hresolver & Hreqs & Hcs & Hlrs).
  unfold loads. cbn [_load_json].
  change (Ok (as_json_data L pm) ≫= ?f) with (f (as_json_data L pm)). cbv beta.
  rewrite check_path_mappings_written; cbn [mbind result_bind].
  rewrite (load_target_systems_written _ Hts); cbn [mbind result_bind].
  rewrite (load_requirements_written _ Hreqs); cbn [mbind result_bind].
  rewrite (load_constraints_written _ Hcs); cbn [mbind result_bind].
  rewrite (load_locked_resolves_written _ Hlrs); cbn [mbind result_bind].
  apply create_lockfile_written; assumption.
Qed.

End RoundTrip.

(** ** The local-project extractor *)

Section Extractor.
Import local_project.

Lemma isabs_cons (c : ascii) (r : string) :
  os_path.isabs (String c r) = Ascii.eqb c "/".
Proof.
  unfold os_path.isabs, os_path.sep. cbn [String.prefix].
  destruct (ascii_dec "/" c) as [<-|Hne].
  - destruct r; reflexivity.
  - symmetry. apply Ascii.eqb_neq. congruence.
Qed.

Lemma isabs_append (a b : string) :
  a <> EmptyString -> os_path.isabs (a ++ b) = os_path.isabs a.
Proof.
  destruct a as [|c r]; [contradiction|]. intros _.
  change (String c r ++ b) with (String c (r ++ b)).
  rewrite !isabs_cons. reflexivity.
Qed.

Lemma join_relative (a b : string) :
  a <> EmptyString -> os_path.isabs b = false ->
  os_path.join a b
  = a ++ (if os_path.endswith_sep a then EmptyString else "/") ++ b.
Proof.
  intros Ha Hb. unfold os_path.join. rewrite Hb.
  destruct a as [|c r]; [contradiction|].
  destruct (os_path.endswith_sep (String c r)); reflexivity.
Qed.

Lemma extract_dir_nonempty (w : World) (dest_dir : option string) :
  extract_dir w dest_dir <> EmptyString.
Proof.
  assert (Hdefault : os_path.join (td w) "extracted" <> EmptyString).
  { unfold os_path.join. cbn [os_path.isabs os_path.sep String.prefix].
    destruct (ascii_dec "/" "e"); [discriminate|].
    destruct (td w) as [|c r]; [discriminate|].
    destruct (os_path.endswith_sep (String c r)); discriminate. }
  unfold extract_dir. destruct dest_dir as [[|c d]|]; try exact Hdefault. discriminate.
Qed.

(** C10. On success [digest_local_project] returns
    [os.path.join(extract_dir, project_dir)], where [project_dir] is already
    [os.path.join(extract_dir, entry)] for the sole entry of the listing.
    The second join gives [project_dir] back exactly when the extraction
    directory is absolute; under a relative extraction directory the path
    returned has that directory in front twice. With an absolute temporary
    directory the default extraction directory is absolute, and a relative
    extraction directory can only be the [dest_dir] given. *)
Theorem digest_local_project_double_join
    (w : World) (directory : string) (dest_dir : option string)
    (tf : list TarInfo) (files : list string) (entry : string) :
  build_sdist w = inr tf ->
  safe_extract w tf (extract_dir w dest_dir) = inr files ->
  listdir w (extract_dir w dest_dir) = [entry] ->
  os_path.isabs entry = false ->
  let e := extract_dir w dest_dir in
  let project_dir := os_path.join e entry in
  let s := if os_path.endswith_sep e then EmptyString else "/" in
  fst (digest_local_project w directory dest_dir)
  = Returned (os_path.join e project_dir)
  /\ project_dir = e ++ s ++ entry
  /\ (os_path.join e project_dir = project_dir <-> os_path.isabs e = true)
  /\ (os_path.isabs e = false ->
      os_path.join e project_dir = e ++ s ++ e ++ s ++ entry)
  /\ (os_path.isabs (td w) = true ->
      (dest_dir = None -> os_path.isabs e = true)
      /\ (os_path.isabs e = false -> dest_dir = Some e)).
Proof.
  intros Hbuild Hextract Hlist Hentry e project_dir s.
  pose proof (extract_dir_nonempty w dest_dir) as He. fold e in He.
  assert (Hp : project_dir = e ++ s ++ entry)
    by (apply join_relative; assumption).
  assert (Hpabs : os_path.isabs project_dir = os_path.isabs e)
    by (rewrite Hp; apply isabs_append, He).
  assert (Hdefault : os_path.isabs (td w) = true ->
                     os_path.isabs (os_path.join (td w) "extracted") = true).
  { intros Htd. destruct (td w) as [|c r] eqn:Etd; [discriminate|].
    rewrite join_relative by (reflexivity || discriminate).
    rewrite isabs_append by discriminate. exact Htd. }
  split; [|split; [exact Hp|split; [|split]]].
  - unfold digest_local_project. rewrite Hbuild, Hextract, Hlist. reflexivity.
  - split.
    + intros Hsame. destruct (os_path.isabs e) eqn:Habs; [reflexivity|].
      rewrite join_relative in Hsame by (assumption || congruence).
      apply (f_equal String.length) in Hsame.
      rewrite !length_append in Hsame.
      destruct e; [contradiction|]. cbn [String.length] in Hsame. lia.
    + intros Habs. unfold os_path.join at 1. rewrite Hpabs, Habs. reflexivity.
  - intros Hrel. rewrite join_relative by (assumption || congruence).
    fold s. rewrite Hp. reflexivity.
  - intros Htd. split.
    + intros ->. apply Hdefault, Htd.
    + unfold e, extract_dir. destruct dest_dir as [[|c d]|]; [| reflexivity |];
        intros Hrel; rewrite (Hdefault Htd) in Hrel; discriminate.
Qed.

End Extractor.

(** ** The properties on the samples *)

Section OnSamples.
Import Demo Samples local_project.

#[local] Abbreviation lt := Demo.LockedRequirement_lt.

(** C1, counterexample. A lock whose locked requirement holds an empty
    specifier set is written with ["requires_python": null], so that
    reading it back gives a lock without the specifier set: the round trip
    does not return the lock it started from. *)
Lemma roundtrip_loses_empty_specifier_set :
  exists L,
    loads lt "<string>" home
      (inl (as_json_data (lock (Some EmptyString)) home)) = Ok L
    /\ L = lock None
    /\ L <> lock (Some EmptyString).
Proof.
  exists (lock None). split; [vm_compute; reflexivity|]. split; [reflexivity|].
  intros Heq. apply (f_equal locked_resolves) in Heq. cbn in Heq. discriminate.
Qed.

Lemma loads_as_json_data_roundtrip_witness :
  lockfile_stable lt home (lock (Some ">=3.7"))
  /\ loads lt "lock.json" home (inl (as_json_data (lock (Some ">=3.7")) home))
     = Ok (with_source "lock.json" (lock (Some ">=3.7"))).
Proof.
  split; [repeat constructor|].
  apply (loads_as_json_data_roundtrip lt "lock.json" home (lock (Some ">=3.7"))).
  repeat constructor.
Defined.

(** C2. [as_json_data] canonicalizes the requirement strings and the URLs
    but writes the constraints as they are: of the same string, held as a
    requirement and as a constraint, only the first gets the placeholder. *)
Theorem as_json_data_writes_constraints_as_they_are :
  requirements (lock None) = constraints (lock None)
  /\ json_get (as_json_data (lock None) home) "requirements"
     = Some (JList [JStr "foo @ file://${HOME}/foo"])
  /\ json_get (as_json_data (lock None) home) "constraints"
     = Some (JList [JStr "foo @ file:///home/u/foo"])
  /\ maybe_canonicalize home "foo @ file:///home/u/foo" = "foo @ file://${HOME}/foo".
Proof. repeat split; vm_compute; reflexivity. Qed.

(** C3. The check of [safe_extract] compares the two absolute paths
    character by character: a member that climbs into a sibling of the
    extraction directory whose name starts with the name of that directory
    passes, and [extractall] writes it outside the extraction root. *)
Theorem safe_extract_lets_a_sibling_through :
  digest_local_project sibling_world "/src/proj" None
  = (Returned "/tmp/td/extracted/proj-1.0",
     {| written := [ "/tmp/td/extracted/proj-1.0/setup.py";
                     "/tmp/td/extracted/../extracted_evil/passwd" ];
        hashed := Some "/tmp/td/extracted/proj-1.0" |})
  /\ is_within_directory sibling_world "/tmp/td/extracted"
       "/tmp/td/extracted/../extracted_evil/passwd" = true
  /\ os_path.abspath (getcwd sibling_world)
       "/tmp/td/extracted/../extracted_evil/passwd"
     = "/tmp/td/extracted_evil/passwd"
  /\ path_below "/tmp/td/extracted" "/tmp/td/extracted_evil/passwd" = false.
Proof. repeat split; vm_compute; reflexivity. Qed.

(** A member that climbs to [/etc/passwd] is refused, and nothing is
    written. *)
Lemma safe_extract_refuses_a_climb :
  digest_local_project climbing_world "/src/proj" None
  = (RaisedException "Attempted Path Traversal in Tar File",
     {| written := []; hashed := None |}).
Proof. vm_compute. reflexivity. Qed.

(** C4, counterexample. The optional key ["use_pep517"] holds a string:
    [loads] raises nothing and hands the string over as the value of
    [use_pep517]. And the [ParseError] for a required key that is missing
    names the path and the key, but no type and no value. *)
Lemma optional_use_pep517_is_not_checked :
  dict_get with_use_pep517_text "use_pep517" = Some (JStr "yes")
  /\ isinstance (JStr "yes") t_bool = false
  /\ get py_str "<string>" "use_pep517" t_bool (JObj with_use_pep517_text) "." true
     = Ok (JStr "yes")
  /\ (exists L,
        loads lt "<string>" no_mappings (inl (JObj with_use_pep517_text)) = Ok L
        /\ use_pep517 L = JStr "yes")
  /\ dict_get (without_requirements [] []) "requirements" = None
  /\ loads lt "<string>" no_mappings (inl (JObj (without_requirements [] [])))
     = raise_parse
         "The object at '.' in <string> did not have the expected key 'requirements'."
  /\ contains "list"
       "The object at '.' in <string> did not have the expected key 'requirements'."
     = false.
Proof.
  split; [reflexivity|]. split; [reflexivity|]. split; [vm_compute; reflexivity|].
  split; [eexists; split; vm_compute; reflexivity|].
  split; [reflexivity|]. split; vm_compute; reflexivity.
Qed.

Lemma loads_diagnostics_witness :
  dict_get KeySamples.with_numeric_hash "locked_resolves"
  = Some (JList [JObj (KeySamples.resolve_entry
                         [JObj (KeySamples.requirement_entry
                                  [JObj KeySamples.numeric_hash])])])
  /\ In ("hash", t_str, false) artifact_keys
  /\ get py_str "<string>" "hash" t_str (JObj KeySamples.numeric_hash)
       (artifact_path (req_path 0 0) 0) false
     = raise_parse
         ("Expected '.locked_resolves[0][0][" ++ dq ++ "artifacts" ++ dq ++ "][0]["
          ++ dq ++ "hash" ++ dq
          ++ "]' in <string> to be of type str but given int with value 7.")
  /\ loads lt "<string>" no_mappings (inl (JObj KeySamples.with_numeric_hash))
     = raise_parse
         ("Expected '.locked_resolves[0][0][" ++ dq ++ "artifacts" ++ dq ++ "][0]["
          ++ dq ++ "hash" ++ dq
          ++ "]' in <string> to be of type str but given int with value 7.").
Proof.
  split; [reflexivity|]. split; [right; right; left; reflexivity|].
  split; [vm_compute; reflexivity|].
  destruct (loads_diagnostics lt "<string>" no_mappings)
    as (_ & _ & _ & _ & _ & _ & _ & Hartifact).
  destruct
    (Hartifact KeySamples.with_numeric_hash
       [JObj (KeySamples.resolve_entry
                [JObj (KeySamples.requirement_entry [JObj KeySamples.numeric_hash])])]
       0 (KeySamples.resolve_entry
            [JObj (KeySamples.requirement_entry [JObj KeySamples.numeric_hash])])
       [JObj (KeySamples.requirement_entry [JObj KeySamples.numeric_hash])]
       0 (KeySamples.requirement_entry [JObj KeySamples.numeric_hash])
       [JObj KeySamples.numeric_hash] 0 (JObj KeySamples.numeric_hash)
       "hash" t_str false (JStr "0a1b")
       (ParseError_exn
          (ParseError_msg
             ("Expected '.locked_resolves[0][0][" ++ dq ++ "artifacts" ++ dq ++ "][0]["
              ++ dq ++ "hash" ++ dq
              ++ "]' in <string> to be of type str but given int with value 7.")))
       eq_refl eq_refl eq_refl eq_refl eq_refl eq_refl
       (or_intror (or_intror (or_introl eq_refl))) I)
    as [Hl|(e' & _ & Hrepaired)].
  - vm_compute. reflexivity.
  - exact Hl.
  - vm_compute in Hrepaired. discriminate Hrepaired.
Defined.


Lemma loads_unspecified_path_mappings_witness :
  dict_get declares_home "path_mappings"
  = Some (JObj [("HOME", JStr "the home directory")])
  /\ ("HOME" ∉ given_mappings no_mappings)
  /\ loads lt "<string>" no_mappings (inl (JObj declares_home))
     = Raise (ParseError_exn
                (PathMappingError (JObj [("HOME", JStr "the home directory")])
                   [JStr "HOME"])).
Proof.
  assert (Hgap : "HOME" ∉ given_mappings no_mappings) by (vm_compute; set_solver).
  split; [reflexivity|]. split; [exact Hgap|].
  exact (proj1 (loads_unspecified_path_mappings lt "<string>" no_mappings
                  declares_home [("HOME", JStr "the home directory")] eq_refl
                  (ex_intro _ "HOME" (conj (or_introl eq_refl) Hgap)))).
Defined.

(** C6, counterexample. The empty object has no ["requirements"]: the
    [ParseError] names the object at path [.] and the key, and the text
    [.requirements] is nowhere in its message. *)
Lemma missing_requirements_is_reported_at_the_root :
  loads lt "<string>" no_mappings (inl (JObj []))
  = raise_parse
      "The object at '.' in <string> did not have the expected key 'requirements'."
  /\ contains ".requirements"
       "The object at '.' in <string> did not have the expected key 'requirements'."
     = false.
Proof. split; vm_compute; reflexivity. Qed.

Lemma loads_missing_requirements_witness :
  dict_get (without_requirements [] []) "requirements" = None
  /\ is_ok (check_path_mappings "lock.json" home (JObj (without_requirements [] [])))
     = true
  /\ is_ok (load_target_systems "lock.json" (JObj (without_requirements [] []))) = true
  /\ loads lt "lock.json" home (inl (JObj (without_requirements [] [])))
     = raise_parse
         "The object at '.' in lock.json did not have the expected key 'requirements'.".
Proof.
  split; [reflexivity|]. split; [vm_compute; reflexivity|].
  split; [vm_compute; reflexivity|].
  apply (proj2 (loads_missing_requirements lt "lock.json" home
                  (without_requirements [] []) eq_refl));
    vm_compute; reflexivity.
Defined.

Lemma loads_rejects_empty_artifacts_witness :
  reaches_locked_requirement lt "<string>" no_mappings
    (JObj (document [] [JObj resolve_without_artifacts]))
    [JObj resolve_without_artifacts] 0 (JObj resolve_without_artifacts)
    [ JObj [ ("project_name", JStr "foo"); ("version", JStr "1.0");
             ("requires_dists", JList []); ("requires_python", JNull);
             ("artifacts", JList []) ] ] 0 = true
  /\ loads lt "<string>" no_mappings
       (inl (JObj (document [] [JObj resolve_without_artifacts])))
     = raise_parse
         "Expected '.locked_resolves[0][0]' in <string> to have at least one artifact.".
Proof.
  split; [vm_compute; reflexivity|].
  destruct (loads_rejects_empty_artifacts lt "<string>" no_mappings
              (document [] [JObj resolve_without_artifacts])
              [JObj resolve_without_artifacts] 0 resolve_without_artifacts
              _ 0 _ eq_refl eq_refl eq_refl eq_refl eq_refl)
    as (_ & _ & Hreached & _).
  apply Hreached. vm_compute. reflexivity.
Defined.

(** C8, counterexample. A ["platform_tag"] that is present with no
    component at all is accepted: the document parses, and the locked
    resolve has no platform tag. *)
Lemma empty_platform_tag_is_accepted :
  dict_get (resolve_with_tag (JList [])) "platform_tag" = Some (JList [])
  /\ exists L,
       loads lt "<string>" no_mappings
         (inl (JObj (document [] [JObj (resolve_with_tag (JList []))]))) = Ok L
       /\ locked_resolves L
          = [ {| locked_requirements := []; platform_tag := None |} ].
Proof.
  split; [reflexivity|]. eexists. split; vm_compute; reflexivity.
Qed.

Lemma loads_platform_tag_arity_witness :
  reaches_locked_resolve lt "<string>" no_mappings
    (JObj (document [] [JObj (resolve_with_tag (JList [JStr "cp39"; JStr "abi3"]))]))
    [JObj (resolve_with_tag (JList [JStr "cp39"; JStr "abi3"]))] 0 = true
  /\ loads lt "<string>" no_mappings
       (inl (JObj (document []
                     [JObj (resolve_with_tag (JList [JStr "cp39"; JStr "abi3"]))])))
     = raise_parse
         ("The tag at '.locked_resolves[0][" ++ dq ++ "platform_tag" ++ dq
          ++ "]' must have 3 string components. Given 2 with types [str, str]: "
          ++ "['cp39', 'abi3']").
Proof.
  split; [vm_compute; reflexivity|].
  destruct (loads_platform_tag_arity lt "<string>" no_mappings
              (document [] [JObj (resolve_with_tag (JList [JStr "cp39"; JStr "abi3"]))])
              [JObj (resolve_with_tag (JList [JStr "cp39"; JStr "abi3"]))] 0
              (resolve_with_tag (JList [JStr "cp39"; JStr "abi3"]))
              [JStr "cp39"; JStr "abi3"] eq_refl eq_refl eq_refl
              ltac:(discriminate) eq_refl)
    as (_ & _ & Hreached).
  apply Hreached. vm_compute. reflexivity.
Defined.

Lemma loads_empty_platform_tag_is_absent_witness :
  dict_get (resolve_with_tag (JList [])) "platform_tag" = Some (JList [])
  /\ load_platform_tag "<string>" (lock_path 0) (JObj (resolve_with_tag (JList [])))
     = Ok None.
Proof.
  split; [reflexivity|].
  exact (proj1 (loads_empty_platform_tag_is_absent lt "<string>" no_mappings
                  (document [] [JObj (resolve_with_tag (JList []))])
                  [JObj (resolve_with_tag (JList []))] 0
                  (resolve_with_tag (JList [])) eq_refl eq_refl eq_refl)).
Defined.

Lemma digest_local_project_double_join_witness :
  os_path.isabs "out" = false
  /\ fst (digest_local_project plain_world "/src/proj" (Some "out"))
     = Returned "out/out/proj-1.0"
  /\ fst (digest_local_project plain_world "/src/proj" None)
     = Returned "/tmp/td/extracted/proj-1.0".
Proof.
  split; [reflexivity|]. split.
  - exact (proj1 (digest_local_project_double_join plain_world "/src/proj"
                    (Some "out") [ {| name := "proj-1.0/setup.py" |} ]
                    ["out/proj-1.0/setup.py"] "proj-1.0"
                    eq_refl eq_refl eq_refl eq_refl)).
  - exact (proj1 (digest_local_project_double_join plain_world "/src/proj"
                    None [ {| name := "proj-1.0/setup.py" |} ]
                    ["/tmp/td/extracted/proj-1.0/setup.py"] "proj-1.0"
                    eq_refl eq_refl eq_refl eq_refl)).
Defined.

End OnSamples.

(** * Further properties of the codec *)

Lemma mapM_enum_Forall2 {A B} (f : nat -> A -> result B) (R : A -> B -> Prop) :
  (forall i x y, f i x = Ok y -> R x y) ->
  forall l i ys, mapM_enum f i l = Ok ys -> Forall2 R l ys.
Proof.
  intros HR. induction l as [|x l IH]; intros i ys Hm.
  - injection Hm as <-. constructor.
  - cbn [mapM_enum] in Hm.
    apply bind_ok_inv in Hm as (y & Hy & Hm).
    apply bind_ok_inv in Hm as (ys' & Hys & Hm). injection Hm as <-.
    constructor; [exact (HR _ _ _ Hy)|exact (IH _ _ Hys)].
Qed.

Lemma mapM_enum_length {A B} (f : nat -> A -> result B) (l : list A) :
  forall i ys, mapM_enum f i l = Ok ys -> length ys = length l.
Proof.
  intros i ys Hm.
  apply (mapM_enum_Forall2 f (fun _ _ => True)) in Hm; [|auto].
  symmetry. exact (Forall2_length _ _ _ Hm).
Qed.

Section MoreCodec.
Context `{Externals}.
Variable lt : LockedRequirement -> LockedRequirement -> bool.
Variable source : string.
Variable pm : PathMappings.

(** X1. What the accessor returns. For a required key it returns a value
    exactly when the data is an object that holds the key with a value of
    the expected type, and it returns that value; for an optional key it
    returns a value exactly when the data is an object, the value of the
    key, or [None] when the key is missing. *)
Theorem get_ok_iff (key : string) (expected_type : ptype) (data : json)
    (path : string) (v : json) :
  (get py_str source key expected_type data path false = Ok v
   <-> exists d, data = JObj d /\ dict_get d key = Some v
                 /\ isinstance v expected_type = true)
  /\ (get py_str source key expected_type data path true = Ok v
      <-> exists d, data = JObj d /\ v = default JNull (dict_get d key)).
Proof.
  split; split.
  - apply get_required_ok_inv.
  - intros (d & -> & Hd & Ht). apply get_required_present; assumption.
  - unfold get. destruct data; try discriminate.
    destruct (dict_get m key) as [w|] eqn:Hd; cbn; intros [= <-]; exists m;
      (split; [reflexivity|rewrite Hd; reflexivity]).
  - intros (d & -> & ->). unfold get. destruct (dict_get d key); reflexivity.
Qed.

Lemma get_optional_default d key t path :
  get py_str source key t (JObj d) path true = Ok (default JNull (dict_get d key)).
Proof. unfold get. destruct (dict_get d key); reflexivity. Qed.

Lemma filter_nil_iff {A} (p : A -> bool) (l : list A) :
  List.filter p l = [] <-> forall x, In x l -> p x = false.
Proof.
  induction l as [|a l IH]; cbn; [tauto|].
  destruct (p a) eqn:Hp; split.
  - discriminate.
  - intros Hall. rewrite (Hall a) in Hp by auto. discriminate.
  - intros Hnil x [<-|Hx]; [exact Hp|]. apply IH; assumption.
  - intros Hall. apply IH. auto.
Qed.

(** X2. When the path-mapping check passes. It passes when the document
    has no ["path_mappings"], or a falsy one ([null], an empty object); with
    an object of declared names it passes exactly when every declared name
    is among the names of the caller's mappings, whatever else the caller
    gives. *)
Theorem check_path_mappings_passes (d : list (string * json)) :
  (truthy (default JNull (dict_get d "path_mappings")) = false ->
   check_path_mappings source pm (JObj d) = Ok ())
  /\ (forall declared,
        dict_get d "path_mappings" = Some (JObj declared) ->
        (check_path_mappings source pm (JObj d) = Ok ()
         <-> forall n, In n (dict_keys declared) -> n ∈ given_mappings pm)).
Proof.
  split.
  - intros Hfalsy. unfold check_path_mappings.
    rewrite get_optional_default. cbn [mbind result_bind]. rewrite Hfalsy.
    reflexivity.
  - intros declared Hd. unfold check_path_mappings.
    rewrite get_optional_default, Hd.
    change (default JNull (Some (JObj declared))) with (JObj declared).
    cbn [mbind result_bind]. rewrite or_empty_dict. unfold py_set. cbn [py_iter mbind result_bind].
    rewrite hashable_names. cbn [mbind result_bind]. rewrite unspecified_names.
    split.
    + intros Hok n Hn.
      destruct (List.filter _ (dict_keys declared)) as [|x xs] eqn:Hf;
        [|discriminate].
      pose proof (proj1 (filter_nil_iff _ _) Hf n Hn) as Hgiven. cbn in Hgiven.
      apply bool_decide_eq_false in Hgiven.
      destruct (decide (n ∈ given_mappings pm)); [assumption|contradiction].
    + intros Hall. rewrite (all_given pm _ Hall). reflexivity.
Qed.

(** ** What a returned lock holds *)

Lemma get_str_ok_inv d key path s :
  get_str source key (JObj d) path = Ok s -> dict_get d key = Some (JStr s).
Proof.
  unfold get_str. intros Hg. apply bind_ok_inv in Hg as (v & Hv & Hs).
  apply get_required_ok_inv in Hv as (d' & [= <-] & Hd & _).
  destruct v; try discriminate. injection Hs as ->. exact Hd.
Qed.

Lemma get_bool_ok_inv d key path b :
  get_bool source key (JObj d) path = Ok b -> dict_get d key = Some (JBool b).
Proof.
  unfold get_bool. intros Hg. apply bind_ok_inv in Hg as (v & Hv & Hb).
  apply get_required_ok_inv in Hv as (d' & [= <-] & Hd & _).
  destruct v; try discriminate. injection Hb as ->. exact Hd.
Qed.

Lemma parse_enum_value_ok_inv {T} `{Enum T} (v : json) (path : string) (x : T) :
  parse_enum_value v path = Ok x -> for_value v = inl x.
Proof.
  unfold parse_enum_value. destruct (for_value v); [|discriminate].
  intros [= ->]. reflexivity.
Qed.

Lemma get_enum_value_ok_inv {T} `{Enum T} d key path (x : T) :
  get_enum_value source (JObj d) key path None = Ok x ->
  exists s, dict_get d key = Some (JStr s) /\ for_value (JStr s) = inl x.
Proof.
  unfold get_enum_value. intros Hg. apply bind_ok_inv in Hg as (v & Hv & Hx).
  change (bool_decide (is_Some None)) with false in Hv.
  apply get_required_ok_inv in Hv as (d' & [= <-] & Hd & Ht).
  destruct v; try discriminate. eauto using parse_enum_value_ok_inv.
Qed.

Lemma get_enum_value_default_ok_inv {T} `{Enum T} d key path (dflt x : T) :
  get_enum_value source (JObj d) key path (Some dflt) = Ok x ->
  if truthy (default JNull (dict_get d key))
  then for_value (default JNull (dict_get d key)) = inl x
  else x = dflt.
Proof.
  unfold get_enum_value.
  change (bool_decide (is_Some (Some dflt))) with true.
  rewrite get_optional_default. cbn [mbind result_bind].
  destruct (truthy (default JNull (dict_get d key))); cbn [negb].
  - apply parse_enum_value_ok_inv.
  - intros [= ->]. reflexivity.
Qed.

Lemma loads_ok_enums_inv (d : list (string * json)) (L : Lockfile) :
  loads lt source pm (inl (JObj d)) = Ok L ->
  (exists s, dict_get d "style" = Some (JStr s)
             /\ for_value (JStr s) = inl (style L))
  /\ (exists s, dict_get d "resolver_version" = Some (JStr s)
                /\ for_value (JStr s) = inl (resolver_version L))
  /\ (if truthy (default JNull (dict_get d "pip_version"))
      then for_value (default JNull (dict_get d "pip_version")) = inl (pip_version L)
      else pip_version L = DEFAULT_PIP_VERSION).
Proof.
  intros HL.
  apply loads_ok_inv in HL as (ts & reqs & cs & lrs & _ & _ & _ & _ & _ & Hc).
  unfold create_lockfile in Hc.
  apply bind_ok_inv in Hc as (? & _ & Hc).
  apply bind_ok_inv in Hc as (st & Hstyle & Hc).
  apply bind_ok_inv in Hc as (? & _ & Hc).
  apply bind_ok_inv in Hc as (pv & Hpip & Hc).
  apply bind_ok_inv in Hc as (rv & Hresolver & Hc).
  repeat (apply bind_ok_inv in Hc as (? & _ & Hc)).
  injection Hc as <-. cbn [style resolver_version pip_version].
  split; [exact (get_enum_value_ok_inv _ _ _ _ Hstyle)|].
  split; [exact (get_enum_value_ok_inv _ _ _ _ Hresolver)|].
  exact (get_enum_value_default_ok_inv _ _ _ _ _ Hpip).
Qed.


(** X3. The enum values of a returned lock. Its style and its resolver
    version are the values of the strings under ["style"] and
    ["resolver_version"]. Its Pip version is the default one when
    ["pip_version"] is missing or falsy ([null], the empty string, [0],
    [false], an empty list or object), and the value of what the key holds
    otherwise. *)
Theorem loads_ok_enums (d : list (string * json)) (L : Lockfile) :
  loads lt source pm (inl (JObj d)) = Ok L ->
  (exists s, dict_get d "style" = Some (JStr s)
             /\ for_value (JStr s) = inl (style L))
  /\ (exists s, dict_get d "resolver_version" = Some (JStr s)
                /\ for_value (JStr s) = inl (resolver_version L))
  /\ (if truthy (default JNull (dict_get d "pip_version"))
      then for_value (default JNull (dict_get d "pip_version")) = inl (pip_version L)
      else pip_version L = DEFAULT_PIP_VERSION).
Proof.
  intros HL.
  apply loads_ok_inv in HL as (ts & reqs & cs & lrs & _ & _ & _ & _ & _ & Hc).
  unfold create_lockfile in Hc.
  apply bind_ok_inv in Hc as (? & _ & Hc).
  apply bind_ok_inv in Hc as (st & Hstyle & Hc).
  apply bind_ok_inv in Hc as (? & _ & Hc).
  apply bind_ok_inv in Hc as (pv & Hpip & Hc).
  apply bind_ok_inv in Hc as (rv & Hresolver & Hc).
  repeat (apply bind_ok_inv in Hc as (? & _ & Hc)).
  injection Hc as <-. cbn [style resolver_version pip_version].
  split; [exact (get_enum_value_ok_inv _ _ _ _ Hstyle)|].
  split; [exact (get_enum_value_ok_inv _ _ _ _ Hresolver)|].
  exact (get_enum_value_default_ok_inv _ _ _ _ _ Hpip).
Qed.

(** X4. The target systems of a returned lock. [loads] reads them from
    the entries of ["target_systems"], as the values of the entries in
    their order, and reads none when the key is missing or falsy; the
    returned lock holds the target systems read, whatever their order in
    the lock is. *)
Theorem loads_ok_target_systems (d : list (string * json)) (L : Lockfile) :
  loads lt source pm (inl (JObj d)) = Ok L ->
  exists ts,
    load_target_systems source (JObj d) = Ok ts
    /\ Permutation ts (target_systems L)
    /\ (truthy (default JNull (dict_get d "target_systems")) = false -> ts = [])
    /\ (forall items,
          dict_get d "target_systems" = Some (JList items) ->
          Forall2 (fun v t => for_value v = inl t) items ts).
Proof.
  intros HL.
  apply loads_ok_inv in HL as (ts & reqs & cs & lrs & _ & Hts & _ & _ & _ & Hc).
  apply create_lockfile_ok_inv in Hc as (-> & _).
  exists ts. split; [exact Hts|]. split; [reflexivity|].
  unfold load_target_systems in Hts. rewrite get_optional_default in Hts.
  cbn [mbind result_bind] in Hts. split.
  - intros Hfalsy. rewrite Hfalsy in Hts. cbn in Hts. injection Hts as <-. reflexivity.
  - intros items Hd. rewrite Hd in Hts.
    change (default JNull (Some (JList items))) with (JList items) in Hts.
    rewrite or_empty_list in Hts. cbn [py_iter mbind result_bind] in Hts.
    revert Hts. apply mapM_enum_Forall2. intros i x y. apply parse_enum_value_ok_inv.
Qed.

Lemma parse_requirement_ok_inv (raw : json) (path : string) (r : Requirement) :
  parse_requirement pm raw path = Ok r ->
  exists s, raw = JStr s /\ Requirement_parse (maybe_reify pm s) = inl r.
Proof.
  unfold parse_requirement. destruct raw; try discriminate.
  cbn [as_str mbind result_bind].
  destruct (Requirement_parse (maybe_reify pm s)) eqn:Hp; [|discriminate].
  intros [= ->]. eauto.
Qed.

(** X5. The requirements and the constraints of a returned lock. [loads]
    reads them entry by entry, in the order of the document, as what the
    requirement grammar reads from the reified strings under
    ["requirements"] and ["constraints"]. The returned lock holds the
    requirements read and no other, and the constraints read, whatever
    their order in the lock is. *)
Theorem loads_ok_requirements (d : list (string * json)) (L : Lockfile) :
  loads lt source pm (inl (JObj d)) = Ok L ->
  let reads (raw : json) (r : Requirement) :=
    exists s, raw = JStr s /\ Requirement_parse (maybe_reify pm s) = inl r in
  (exists items reqs,
     dict_get d "requirements" = Some (JList items)
     /\ load_requirements source pm (JObj d) = Ok reqs
     /\ Forall2 reads items reqs
     /\ forall r, In r (requirements L) <-> In r reqs)
  /\ (exists items cs,
        dict_get d "constraints" = Some (JList items)
        /\ load_constraints source pm (JObj d) = Ok cs
        /\ Forall2 reads items cs
        /\ Permutation cs (constraints L)).
Proof.
  intros HL reads.
  apply loads_ok_inv in HL as (ts & reqs & cs & lrs & _ & _ & Hr & Hcs & _ & Hc).
  apply create_lockfile_ok_inv in Hc as (_ & -> & -> & _).
  pose proof Hr as Hr'. pose proof Hcs as Hcs'.
  unfold load_requirements in Hr. apply bind_ok_inv in Hr as (items & Hg & Hr).
  apply get_list_ok_inv in Hg as (? & [= <-] & Hd).
  unfold load_constraints in Hcs. apply bind_ok_inv in Hcs as (items' & Hg' & Hcs).
  apply get_list_ok_inv in Hg' as (? & [= <-] & Hd').
  split.
  - exists items, reqs. split; [exact Hd|]. split; [exact Hr'|].
    split; [|intros r; reflexivity].
    revert Hr. apply mapM_enum_Forall2. intros i x y. apply parse_requirement_ok_inv.
  - exists items', cs. split; [exact Hd'|]. split; [exact Hcs'|].
    split; [|reflexivity].
    revert Hcs. apply mapM_enum_Forall2. intros i x y. apply parse_requirement_ok_inv.
Qed.

Lemma mapM_enum_all_ok {A B} (f : nat -> A -> result B) (l : list A) :
  (forall i x, In x l -> is_ok (f i x) = true) ->
  forall i, is_ok (mapM_enum f i l) = true.
Proof.
  induction l as [|x l IH]; intros Hall i; [reflexivity|].
  cbn [mapM_enum].
  pose proof (Hall i x (or_introl eq_refl)) as Hx.
  apply is_ok_true in Hx as (y & ->). cbn [mbind result_bind].
  assert (Hrest : is_ok (mapM_enum f (S i) l) = true)
    by (apply IH; intros j z Hz; apply Hall; right; exact Hz).
  apply is_ok_true in Hrest as (ys & ->). reflexivity.
Qed.

(** X6. A requirement string that the grammar rejects. The document never
    parses; and once the path-mapping check and the target systems have
    passed and the entries before it are requirement strings the grammar
    reads, [loads] raises the [ParseError] that names the entry,
    [.requirements[i]], and carries the text of the grammar's error. *)
Theorem loads_invalid_requirement
    (d : list (string * json)) (items : list json) (i : nat) (s err : string) :
  dict_get d "requirements" = Some (JList items) ->
  items !! i = Some (JStr s) ->
  Requirement_parse (maybe_reify pm s) = inr err ->
  (forall L, loads lt source pm (inl (JObj d)) <> Ok L)
  /\ (is_ok (check_path_mappings source pm (JObj d)) = true ->
      is_ok (load_target_systems source (JObj d)) = true ->
      Forall (fun raw => exists t r, raw = JStr t
                         /\ Requirement_parse (maybe_reify pm t) = inl r)
        (take i items) ->
      loads lt source pm (inl (JObj d))
      = raise_parse ("The requirement string at '.requirements[" ++ nat_str i
                     ++ "]' is invalid: " ++ err)).
Proof.
  intros Hd Hi Herr.
  assert (Hraise : forall path,
            parse_requirement pm (JStr s) path
            = raise_parse (msg_invalid_requirement path err)).
  { intros path. unfold parse_requirement. cbn [as_str mbind result_bind].
    rewrite Herr. reflexivity. }
  split.
  - intros L HL.
    apply loads_ok_inv in HL as (ts & reqs & cs & lrs & _ & _ & Hr & _).
    unfold load_requirements in Hr. rewrite (get_list_present _ _ _ _ _ Hd) in Hr.
    cbn [mbind result_bind] in Hr.
    destruct (mapM_enum_ok_lookup _ _ _ _ _ _ Hr Hi) as (y & Hy & _).
    cbv beta in Hy. rewrite Hraise in Hy. discriminate.
  - intros H1 H2 Hbefore.
    apply is_ok_true in H1 as ([] & H1). apply is_ok_true in H2 as (ts & H2).
    unfold loads. cbn [_load_json].
    change (Ok (JObj d) ≫= ?f) with (f (JObj d)). cbv beta.
    rewrite H1; cbn [mbind result_bind]. rewrite H2; cbn [mbind result_bind].
    unfold load_requirements. rewrite (get_list_present _ _ _ _ _ Hd).
    cbn [mbind result_bind].
    erewrite mapM_enum_raise_at; [reflexivity|exact Hi| |].
    + apply mapM_enum_all_ok. intros j x Hx.
      rewrite Forall_forall in Hbefore.
      destruct (Hbefore x (proj2 (list_elem_of_In _ _) Hx)) as (t & r & -> & Hp).
      unfold parse_requirement. cbn [as_str mbind result_bind]. rewrite Hp. reflexivity.
    + cbv beta. rewrite Hraise. unfold msg_invalid_requirement.
      rewrite !append_assoc. reflexivity.
Qed.

(** X7. The plain fields of a returned lock are those of the document: the
    Pex version, the entries of the list under ["requires_python"],
    whatever their order in the lock is, the six flags, and under
    [use_pep517] whatever the optional key holds, [None] when it is
    missing; the provenance is the [source] of the call. *)
Theorem loads_ok_fields (d : list (string * json)) (L : Lockfile) :
  loads lt source pm (inl (JObj d)) = Ok L ->
  dict_get d "pex_version" = Some (JStr (pex_version L))
  /\ (exists items,
        dict_get d "requires_python" = Some (JList items)
        /\ Permutation items (requires_python L))
  /\ dict_get d "allow_prereleases" = Some (JBool (allow_prereleases L))
  /\ dict_get d "allow_wheels" = Some (JBool (allow_wheels L))
  /\ dict_get d "allow_builds" = Some (JBool (allow_builds L))
  /\ dict_get d "prefer_older_binary" = Some (JBool (prefer_older_binary L))
  /\ dict_get d "build_isolation" = Some (JBool (build_isolation L))
  /\ dict_get d "transitive" = Some (JBool (transitive L))
  /\ use_pep517 L = default JNull (dict_get d "use_pep517")
  /\ lockfile_source L = source.
Proof.
  intros HL.
  apply loads_ok_inv in HL as (ts & reqs & cs & lrs & _ & _ & _ & _ & _ & Hc).
  unfold create_lockfile in Hc.
  apply bind_ok_inv in Hc as (? & Hpex & Hc).
  apply bind_ok_inv in Hc as (? & _ & Hc).
  apply bind_ok_inv in Hc as (python & Hpython & Hc).
  apply bind_ok_inv in Hc as (? & _ & Hc).
  apply bind_ok_inv in Hc as (? & _ & Hc).
  apply bind_ok_inv in Hc as (? & Hpre & Hc).
  apply bind_ok_inv in Hc as (? & Hwheels & Hc).
  apply bind_ok_inv in Hc as (? & Hbuilds & Hc).
  apply bind_ok_inv in Hc as (? & Holder & Hc).
  apply bind_ok_inv in Hc as (? & Hpep & Hc).
  apply bind_ok_inv in Hc as (? & Hiso & Hc).
  apply bind_ok_inv in Hc as (? & Htrans & Hc).
  injection Hc as <-. cbn.
  apply get_str_ok_inv in Hpex. apply get_list_ok_inv in Hpython as (? & [= <-] & Hpython).
  apply get_bool_ok_inv in Hpre, Hwheels, Hbuilds, Holder, Hiso, Htrans.
  rewrite get_optional_default in Hpep. injection Hpep as <-.
  split; [assumption|]. split; [exists python; split; [assumption|reflexivity]|].
  repeat (split; [assumption|]). split; reflexivity.
Qed.

(** X8. What is not a document. A text that is not JSON is rejected with
    the [ParseError] that carries the source and the decoder's error; a
    JSON value that is not an object is rejected with the [ParseError] of
    the first key read, ["path_mappings"], which carries the type and the
    value found. *)
Theorem loads_rejects_what_is_no_object :
  (forall err,
     loads lt source pm (inr err)
     = raise_parse ("The lock file at " ++ source
                    ++ " does not contain valid JSON: " ++ err))
  /\ (forall v,
        (forall d, v <> JObj d) ->
        loads lt source pm (inl v)
        = raise_parse
            ("Cannot retrieve '.[" ++ dq ++ "path_mappings" ++ dq ++ "]' in "
             ++ source ++ " because '.' is not a JSON object but a "
             ++ type_name v ++ " with value " ++ py_str v ++ ".")).
Proof.
  split; [reflexivity|].
  intros v Hv. unfold loads. cbn [_load_json].
  change (Ok v ≫= ?f) with (f v). cbv beta.
  unfold check_path_mappings, get.
  destruct v; try reflexivity. destruct (Hv m eq_refl).
Qed.

(** X9. Exceptions that are no [ParseError]. The optional key
    ["path_mappings"] is not type-checked: when it holds [true], a number
    other than 0, or a list with a list or an object in it, making the set
    of its names raises a [TypeError], and that is what [loads] raises. *)
Theorem loads_path_mappings_type_error (d : list (string * json)) (v : json) :
  dict_get d "path_mappings" = Some v ->
  v = JBool true
  \/ (exists n, v = JInt n /\ n <> 0%Z)
  \/ (exists l, v = JList l /\ forallb hashable l = false) ->
  loads lt source pm (inl (JObj d)) = Raise TypeError.
Proof.
  intros Hd Hv. unfold loads. cbn [_load_json].
  change (Ok (JObj d) ≫= ?f) with (f (JObj d)). cbv beta.
  unfold check_path_mappings. rewrite get_optional_default, Hd.
  change (default JNull (Some v)) with v. cbn [mbind result_bind].
  destruct Hv as [->|[(n & -> & Hn)|(l & -> & Hl)]].
  - reflexivity.
  - cbn [truthy]. apply Z.eqb_neq in Hn. rewrite Hn. reflexivity.
  - assert (Ht : truthy (JList l) = true) by (destruct l; [discriminate|reflexivity]).
    rewrite Ht. unfold py_set. cbn [py_iter mbind result_bind]. rewrite Hl. reflexivity.
Qed.

(** X10. A platform tag that is no list. The optional key ["platform_tag"]
    is not type-checked either: a string of three characters is taken as
    the tag of its characters, and an object with three keys passes the
    checks of [assemble_tag] and fails with a [KeyError] at
    [components[0]]. *)
Theorem load_platform_tag_no_list (lock_path : string) (lr : list (string * json)) :
  (forall a b c,
     dict_get lr "platform_tag"
     = Some (JStr (String a (String b (String c EmptyString)))) ->
     load_platform_tag source lock_path (JObj lr)
     = Ok (Some (Tag_new (String a EmptyString) (String b EmptyString)
                   (String c EmptyString))))
  /\ (forall k1 v1 k2 v2 k3 v3,
        dict_get lr "platform_tag" = Some (JObj [(k1, v1); (k2, v2); (k3, v3)]) ->
        load_platform_tag source lock_path (JObj lr) = Raise KeyError).
Proof.
  split.
  - intros a b c Hd. rewrite (load_platform_tag_present source _ lr _ Hd). reflexivity.
  - intros k1 v1 k2 v2 k3 v3 Hd.
    rewrite (load_platform_tag_present source _ lr _ Hd). reflexivity.
Qed.

Lemma insert_sorted_Permutation {A} (lt' : A -> A -> bool) (x : A) (l : list A) :
  Permutation (insert_sorted lt' x l) (x :: l).
Proof.
  induction l as [|y l IH]; [reflexivity|].
  cbn [insert_sorted]. destruct (lt' y x); [|reflexivity].
  rewrite IH. apply perm_swap.
Qed.

Lemma SortedTuple_Permutation {A} (lt' : A -> A -> bool) (l : list A) :
  Permutation (SortedTuple lt' l) l.
Proof.
  induction l as [|x l IH]; [reflexivity|].
  cbn [SortedTuple foldr]. fold (SortedTuple lt' l).
  rewrite insert_sorted_Permutation, IH. reflexivity.
Qed.

(** X11. The locked resolves of a returned lock. [loads] builds one for
    each entry of ["locked_resolves"], in the order of the document; the
    locked requirements of each are those read from the entries of its
    ["locked_requirements"], none lost and none added, and its platform tag
    is what [load_platform_tag] reads. The returned lock holds the locked
    resolves built, whatever their order in the lock is. *)
Theorem loads_ok_locked_resolves (d : list (string * json)) (L : Lockfile) :
  loads lt source pm (inl (JObj d)) = Ok L ->
  exists resolves built,
    dict_get d "locked_resolves" = Some (JList resolves)
    /\ load_locked_resolves lt source pm (JObj d) = Ok built
    /\ Permutation built (locked_resolves L)
    /\ length built = length resolves
    /\ forall i x,
         resolves !! i = Some x ->
         exists r lr reqs parsed,
           built !! i = Some r
           /\ x = JObj lr
           /\ load_platform_tag source (lock_path i) x = Ok (platform_tag r)
           /\ dict_get lr "locked_requirements" = Some (JList reqs)
           /\ mapM_enum
                (fun j req => load_locked_requirement source pm (req_path i j) req)
                0 reqs = Ok parsed
           /\ Permutation (locked_requirements r) parsed
           /\ length (locked_requirements r) = length reqs.
Proof.
  intros HL.
  apply loads_ok_inv in HL as (ts & reqs & cs & lrs & _ & _ & _ & _ & Hr & Hc).
  apply create_lockfile_ok_inv in Hc as (_ & _ & _ & -> & _).
  pose proof Hr as Hbuilt.
  apply load_locked_resolves_ok_inv in Hr as (resolves & Hd & Hm).
  exists resolves, lrs. split; [exact Hd|]. split; [exact Hbuilt|].
  split; [reflexivity|]. split; [exact (mapM_enum_length _ _ _ _ Hm)|].
  intros i x Hx.
  destruct (mapM_enum_ok_lookup _ _ _ _ _ _ Hm Hx) as (r & Hr & Hi).
  change (0 + i) with i in Hr.
  apply load_locked_resolve_ok_inv in Hr as (tag & items & parsed & Ht & Hg & Hp & ->).
  apply get_list_ok_inv in Hg as (lr & -> & Hlr).
  exists {| locked_requirements := SortedTuple lt parsed; platform_tag := tag |},
    lr, items, parsed.
  cbn [locked_requirements platform_tag].
  repeat (split; [assumption || reflexivity|]). split.
  - apply SortedTuple_Permutation.
  - rewrite (Permutation_length (SortedTuple_Permutation lt parsed)).
    exact (mapM_enum_length _ _ _ _ Hp).
Qed.

(** X12. What [as_json_data] writes can be read. For every lock and every
    set of path mappings, the document written passes the path-mapping
    check of [loads] under the same mappings, and holds every required
    top-level key with a value of the type [loads] expects. *)
Theorem as_json_data_is_well_formed (L : Lockfile) :
  check_path_mappings source pm (as_json_data L pm) = Ok ()
  /\ forall key t,
       In (key, t) required_keys ->
       exists v, json_get (as_json_data L pm) key = Some v
                 /\ isinstance v t = true.
Proof.
  split; [apply check_path_mappings_written|].
  intros key t Hin. unfold required_keys in Hin. cbn [In] in Hin.
  repeat (destruct Hin as [[= <- <-]|Hin]; [eexists; split; reflexivity|]).
  destruct Hin.
Qed.

Lemma loads_written_stable (src : string) (L : Lockfile) :
  lockfile_stable lt pm L ->
  loads lt src pm (inl (as_json_data L pm)) = Ok (with_source src L).
Proof.
  intros (Hstyle & Hts & Hpip & Hpip_text & Hresolver & Hreqs & Hcs & Hlrs).
  unfold loads. cbn [_load_json].
  change (Ok (as_json_data L pm) ≫= ?f) with (f (as_json_data L pm)). cbv beta.
  rewrite check_path_mappings_written; cbn [mbind result_bind].
  rewrite (load_target_systems_written src pm _ Hts); cbn [mbind result_bind].
  rewrite (load_requirements_written src pm _ Hreqs); cbn [mbind result_bind].
  rewrite (load_constraints_written src pm _ Hcs); cbn [mbind result_bind].
  rewrite (load_locked_resolves_written lt src pm _ Hlrs); cbn [mbind result_bind].
  apply create_lockfile_written; assumption.
Qed.

(** X13. [load]. A file that cannot be read gives the [ParseError] that
    names the path and carries the text of the [IOError]. A file that
    holds what [as_json_data] wrote for a lock that is stable under the
    path mappings gives that lock, with the path of the file as its
    provenance. *)
Theorem load_reads_what_was_written
    (read_file : string -> string + (json + string)) (lockfile_path : string) :
  (forall err,
     read_file lockfile_path = inl err ->
     load lt read_file lockfile_path pm
     = raise_parse ("Failed to read lock file at " ++ lockfile_path ++ ": " ++ err))
  /\ (forall L,
        read_file lockfile_path = inr (inl (as_json_data L pm)) ->
        lockfile_stable lt pm L ->
        load lt read_file lockfile_path pm = Ok (with_source lockfile_path L)).
Proof.
  split.
  - intros err Hr. unfold load. rewrite Hr. reflexivity.
  - intros L Hr Hs. unfold load. rewrite Hr.
    apply loads_written_stable, Hs.
Qed.

(** X14. An enum value outside its vocabulary. When ["style"] or
    ["resolver_version"] holds a string that [Enum.for_value] rejects, the
    document never parses, and reading the key raises the [ParseError]
    that names the key, [.["style"]], and carries the text of the
    [ValueError]. *)
Theorem loads_invalid_enum (d : list (string * json)) (s err : string) :
  (dict_get d "style" = Some (JStr s) ->
   for_value (T := LockStyle) (JStr s) = inr err ->
   get_enum_value (T := LockStyle) source (JObj d) "style" "." None
   = raise_parse ("The '.[" ++ dq ++ "style" ++ dq ++ "]' is invalid: " ++ err)
   /\ forall L, loads lt source pm (inl (JObj d)) <> Ok L)
  /\ (dict_get d "resolver_version" = Some (JStr s) ->
      for_value (T := ResolverVersion) (JStr s) = inr err ->
      get_enum_value (T := ResolverVersion) source (JObj d) "resolver_version" "." None
      = raise_parse ("The '.[" ++ dq ++ "resolver_version" ++ dq
                     ++ "]' is invalid: " ++ err)
      /\ forall L, loads lt source pm (inl (JObj d)) <> Ok L).
Proof.
  split; intros Hd Herr; split.
  - unfold get_enum_value, get. rewrite Hd. cbn. unfold parse_enum_value.
    rewrite Herr. reflexivity.
  - intros L HL. apply loads_ok_enums_inv in HL as ((s' & Hd' & Hv) & _).
    rewrite Hd in Hd'. injection Hd' as <-. rewrite Herr in Hv. discriminate.
  - unfold get_enum_value, get. rewrite Hd. cbn. unfold parse_enum_value.
    rewrite Herr. reflexivity.
  - intros L HL. apply loads_ok_enums_inv in HL as (_ & (s' & Hd' & Hv) & _).
    rewrite Hd in Hd'. injection Hd' as <-. rewrite Herr in Hv. discriminate.
Qed.

Lemma load_artifact_ok_inv (ap : string) (x : json) (a : Artifact) :
  load_artifact source pm ap x = Ok a ->
  exists u alg h,
    json_get x "url" = Some (JStr u)
    /\ json_get x "algorithm" = Some (JStr alg)
    /\ json_get x "hash" = Some (JStr h)
    /\ a = Artifact_from_url (maybe_reify pm u) {| algorithm := alg; hash := h |}.
Proof.
  unfold load_artifact. intros Hl.
  apply bind_ok_inv in Hl as (u & Hu & Hl).
  apply bind_ok_inv in Hl as (alg & Halg & Hl).
  apply bind_ok_inv in Hl as (h & Hh & Hl). injection Hl as <-.
  assert (Hobj : exists d, x = JObj d).
  { unfold get_str in Hu. apply bind_ok_inv in Hu as (? & Hu & _).
    apply get_required_ok_inv in Hu as (d & -> & _). eauto. }
  destruct Hobj as (d & ->).
  apply get_str_ok_inv in Hu, Halg, Hh. exists u, alg, h. auto.
Qed.

(** X15. What a locked requirement holds. [loads] reads one artifact from
    each entry of ["artifacts"], in their order, each with its URL reified
    and its fingerprint as written. The first artifact read is the primary
    artifact of the locked requirement built, and the others are its
    additional artifacts, whatever their order there is. Its pin is made of
    the strings under ["project_name"] and ["version"]; it has no Python
    requirement when ["requires_python"] is missing or falsy, and the
    specifier set of the string it holds otherwise; its dependencies are
    what the grammar reads from the reified strings under
    ["requires_dists"], whatever their order there is. *)
Theorem load_locked_requirement_ok
    (path : string) (r : list (string * json)) (q : LockedRequirement) :
  load_locked_requirement source pm path (JObj r) = Ok q ->
  (exists items more,
     dict_get r "artifacts" = Some (JList items)
     /\ load_artifacts source pm path (JObj r) = Ok (artifact q :: more)
     /\ Forall2
          (fun x a =>
             exists u alg h,
               json_get x "url" = Some (JStr u)
               /\ json_get x "algorithm" = Some (JStr alg)
               /\ json_get x "hash" = Some (JStr h)
               /\ a = Artifact_from_url (maybe_reify pm u)
                        {| algorithm := alg; hash := h |})
          items (artifact q :: more)
     /\ Permutation more (additional_artifacts q))
  /\ (exists n, dict_get r "project_name" = Some (JStr n)
                /\ ProjectName_new n = Some (project_name (pin q)))
  /\ (exists v, dict_get r "version" = Some (JStr v)
                /\ Version_new v = Some (version (pin q)))
  /\ (if truthy (default JNull (dict_get r "requires_python"))
      then exists s specifiers,
             dict_get r "requires_python" = Some (JStr s)
             /\ SpecifierSet_new s = inl specifiers
             /\ lr_requires_python q = Some specifiers
      else lr_requires_python q = None)
  /\ (exists items deps,
        dict_get r "requires_dists" = Some (JList items)
        /\ Forall2
             (fun raw dep =>
                exists s, raw = JStr s
                          /\ Requirement_parse (maybe_reify pm s) = inl dep)
             items deps
        /\ Permutation deps (requires_dists q)).
Proof.
  intros Hl. pose proof (load_locked_requirement_artifacts _ _ _ _ _ Hl) as Harts.
  pose proof Harts as Hloaded.
  unfold load_artifacts in Harts.
  apply bind_ok_inv in Harts as (items & Hitems & Harts).
  apply get_list_ok_inv in Hitems as (? & [= <-] & Hitems).
  split.
  { exists items, (additional_artifacts q). split; [exact Hitems|].
    split; [exact Hloaded|]. split; [|reflexivity].
    revert Harts. apply mapM_enum_Forall2. intros i x a. apply load_artifact_ok_inv. }
  unfold load_locked_requirement in Hl.
  apply bind_ok_inv in Hl as (artifacts & _ & Hl).
  destruct artifacts as [|a more]; [discriminate|].
  rewrite get_optional_default in Hl. cbn [mbind result_bind] in Hl.
  apply bind_ok_inv in Hl as (rp & Hrp & Hl).
  apply bind_ok_inv in Hl as (raw_name & Hname & Hl).
  apply bind_ok_inv in Hl as (pn & Hpn & Hl).
  apply bind_ok_inv in Hl as (raw_version & Hversion & Hl).
  apply bind_ok_inv in Hl as (ver & Hver & Hl).
  apply bind_ok_inv in Hl as (dists & Hdists & Hl).
  apply bind_ok_inv in Hl as (deps & Hdeps & Hl).
  injection Hl as <-. cbn [pin project_name version lr_requires_python requires_dists
                            LockedRequirement_create].
  apply get_str_ok_inv in Hname, Hversion.
  apply get_list_ok_inv in Hdists as (? & [= <-] & Hdists).
  split; [exists raw_name; split; [exact Hname|]|].
  { destruct (ProjectName_new raw_name); [|discriminate].
    injection Hpn as ->. reflexivity. }
  split; [exists raw_version; split; [exact Hversion|]|].
  { destruct (Version_new raw_version); [|discriminate].
    injection Hver as ->. reflexivity. }
  split.
  - destruct (truthy (default JNull (dict_get r "requires_python"))) eqn:Ht.
    + destruct (parse_version_specifier (default JNull (dict_get r "requires_python")) _)
        as [spec|] eqn:Hp; [|discriminate].
      injection Hrp as <-. unfold parse_version_specifier in Hp.
      destruct (dict_get r "requires_python") as [[]|]; try discriminate.
      cbn in Hp.
      destruct (SpecifierSet_new s) eqn:Hs; [|discriminate].
      injection Hp as ->. eauto.
    + injection Hrp as <-. reflexivity.
  - exists dists, deps. split; [exact Hdists|]. split; [|reflexivity].
    revert Hdeps. apply mapM_enum_Forall2. intros i x y. apply parse_requirement_ok_inv.
Qed.

Lemma dict_get_set_some d key key' v w :
  dict_get d key' = Some w -> exists w', dict_get (dict_set d key v) key' = Some w'.
Proof.
  intros Hd. destruct (String.eqb_spec key key') as [->|Hne].
  - rewrite dict_get_set_eq. eauto.
  - rewrite dict_get_set_ne by assumption. eauto.
Qed.

Lemma path_mappings_fold (ms : list PathMapping) :
  forall acc,
    let written :=
      fold_left
        (fun d m => dict_set d (pm_name m) (json_of_option_str (pm_description m)))
        ms acc in
    (forall k v,
       dict_get written k = Some v ->
       dict_get acc k = Some v
       \/ exists m, In m ms /\ pm_name m = k
                    /\ v = json_of_option_str (pm_description m))
    /\ (forall k w, dict_get acc k = Some w -> exists v, dict_get written k = Some v)
    /\ (forall m, In m ms -> exists v, dict_get written (pm_name m) = Some v).
Proof.
  induction ms as [|m ms IH]; intros acc; cbn zeta.
  - split; [auto|]. split; [eauto|]. intros m [].
  - cbn [fold_left].
    destruct (IH (dict_set acc (pm_name m) (json_of_option_str (pm_description m))))
      as (Hfrom & Hkeep & Hall).
    split; [|split].
    + intros k v Hk. destruct (Hfrom k v Hk) as [Hacc|(m' & Hin & Hn & Hv)].
      * destruct (String.eqb_spec (pm_name m) k) as [<-|Hne].
        -- rewrite dict_get_set_eq in Hacc. injection Hacc as <-.
           right. exists m. split; [left; reflexivity|]. split; reflexivity.
        -- rewrite dict_get_set_ne in Hacc by assumption. left; exact Hacc.
      * right. exists m'. split; [right; exact Hin|]. split; assumption.
    + intros k w Hk.
      destruct (dict_get_set_some acc (pm_name m)
                  k (json_of_option_str (pm_description m)) w Hk) as (w' & Hw').
      exact (Hkeep k w' Hw').
    + intros m' [<-|Hin]; [|exact (Hall m' Hin)].
      exact (Hkeep _ _ (dict_get_set_eq acc (pm_name m) _)).
Qed.

(** X16. The ["path_mappings"] that [as_json_data] writes. The object has
    a key for the name of every mapping and no other key, and each value
    is the description of a mapping of that name, [null] when it has none:
    the concrete paths are not written. *)
Theorem as_json_data_path_mappings (L : Lockfile) :
  exists written,
    json_get (as_json_data L pm) "path_mappings" = Some (JObj written)
    /\ (forall m, In m (mappings pm) ->
                  exists v, dict_get written (pm_name m) = Some v)
    /\ (forall k v,
          dict_get written k = Some v ->
          exists m, In m (mappings pm) /\ pm_name m = k
                    /\ v = json_of_option_str (pm_description m)).
Proof.
  destruct (path_mappings_fold (mappings pm) []) as (Hfrom & _ & Hall).
  eexists. split; [reflexivity|]. split; [exact Hall|].
  intros k v Hk. destruct (Hfrom k v Hk) as [Hnil|Hm]; [discriminate|exact Hm].
Qed.

End MoreCodec.

(** * Further properties of the extractor *)

Section MoreExtractor.
Import local_project.

Lemma prefix_cons (c d : ascii) (a b : string) :
  String.prefix (String c a) (String d b) = Ascii.eqb c d && String.prefix a b.
Proof.
  cbn [String.prefix]. destruct (ascii_dec c d) as [->|Hne].
  - rewrite Ascii.eqb_refl. reflexivity.
  - apply Ascii.eqb_neq in Hne. rewrite Hne. reflexivity.
Qed.

Lemma prefix_nil (b : string) : String.prefix EmptyString b = true.
Proof. destruct b; reflexivity. Qed.

Lemma prefix_append (a x : string) : String.prefix a (a ++ x) = true.
Proof.
  induction a as [|c a IH]; [apply prefix_nil|].
  change (String c a ++ x) with (String c (a ++ x)).
  rewrite prefix_cons, Ascii.eqb_refl. exact IH.
Qed.

Lemma prefix_append_same (a x y : string) :
  String.prefix (a ++ x) (a ++ y) = String.prefix x y.
Proof.
  induction a as [|c a IH]; [reflexivity|].
  change (String.prefix (String c (a ++ x)) (String c (a ++ y)) = String.prefix x y).
  rewrite prefix_cons, Ascii.eqb_refl. exact IH.
Qed.

Lemma common_chars_comm (a b : string) :
  os_path.common_chars a b = os_path.common_chars b a.
Proof.
  revert b. induction a as [|c a IH]; intros [|d b]; try reflexivity.
  cbn [os_path.common_chars]. rewrite (Ascii.eqb_sym d c).
  destruct (Ascii.eqb c d) eqn:Hcd; [|reflexivity].
  apply Ascii.eqb_eq in Hcd as ->. rewrite IH. reflexivity.
Qed.

Lemma common_chars_prefix (a b : string) :
  String.eqb (os_path.common_chars a b) a = String.prefix a b.
Proof.
  revert b. induction a as [|c a IH]; intros b.
  - rewrite prefix_nil. reflexivity.
  - destruct b as [|d b]; [reflexivity|].
    rewrite prefix_cons. cbn [os_path.common_chars].
    destruct (Ascii.eqb c d) eqn:Hcd; [|reflexivity].
    cbn [String.eqb andb]. rewrite Ascii.eqb_refl. apply IH.
Qed.

Lemma commonprefix_pair (a b : string) :
  os_path.commonprefix [a; b] = os_path.common_chars a b.
Proof.
  unfold os_path.commonprefix, os_path.str_min, os_path.str_max.
  cbn [fold_left]. destruct (String.leb a b); [reflexivity|apply common_chars_comm].
Qed.

Lemma is_within_directory_prefix (w : World) (directory target : string) :
  is_within_directory w directory target
  = String.prefix (os_path.abspath (getcwd w) directory)
      (os_path.abspath (getcwd w) target).
Proof.
  unfold is_within_directory. cbv zeta.
  rewrite commonprefix_pair. apply common_chars_prefix.
Qed.

(** X17. What [is_within_directory] decides: whether the absolute path of
    the directory is a leading run of characters of the absolute path of
    the target. *)
Theorem is_within_directory_is_a_prefix_test (w : World) (directory target : string) :
  is_within_directory w directory target
  = String.prefix (os_path.abspath (getcwd w) directory)
      (os_path.abspath (getcwd w) target).
Proof.
  unfold is_within_directory. cbv zeta.
  rewrite commonprefix_pair. apply common_chars_prefix.
Qed.

Lemma safe_extract_ok (w : World) (tf : list TarInfo) (path : string)
    (files : list string) :
  safe_extract w tf path = inr files ->
  files = map (fun member => os_path.join path (name member)) tf
  /\ forall member,
       In member tf ->
       is_within_directory w path (os_path.join path (name member)) = true.
Proof.
  unfold safe_extract.
  destruct (forallb _ tf) eqn:Hall; [|discriminate].
  intros [= <-]. split; [reflexivity|].
  intros member Hin. rewrite forallb_forall in Hall. exact (Hall member Hin).
Qed.

(** X18. One member outside refuses the whole archive. When a member of
    the sdist, wherever it stands in the archive, fails the check,
    [digest_local_project] raises the exception of [safe_extract]; no
    member is extracted and nothing is hashed. *)
Theorem digest_local_project_refuses_the_whole_archive
    (w : World) (directory : string) (dest_dir : option string)
    (tf : list TarInfo) (member : TarInfo) :
  build_sdist w = inr tf ->
  In member tf ->
  is_within_directory w (extract_dir w dest_dir)
    (os_path.join (extract_dir w dest_dir) (name member)) = false ->
  digest_local_project w directory dest_dir
  = (RaisedException "Attempted Path Traversal in Tar File",
     {| written := []; hashed := None |}).
Proof.
  intros Hbuild Hin Hout. unfold digest_local_project. rewrite Hbuild.
  unfold safe_extract.
  destruct (forallb _ tf) eqn:Hall; [|reflexivity].
  rewrite forallb_forall in Hall. rewrite (Hall member Hin) in Hout. discriminate.
Qed.

(** X19. What a call that returns has written. Every member of the sdist
    was written at [os.path.join(extract_dir, member.name)], the absolute
    path of each file written has the absolute path of the extraction
    directory as a leading run of characters, and the directory hashed is
    [os.path.join(extract_dir, entry)] for the sole entry of the listing. *)
Theorem digest_local_project_returned
    (w : World) (directory : string) (dest_dir : option string)
    (path : string) (effects : Effects) :
  digest_local_project w directory dest_dir = (Returned path, effects) ->
  exists tf entry,
    build_sdist w = inr tf
    /\ listdir w (extract_dir w dest_dir) = [entry]
    /\ written effects
       = map (fun member => os_path.join (extract_dir w dest_dir) (name member)) tf
    /\ hashed effects = Some (os_path.join (extract_dir w dest_dir) entry)
    /\ forall file,
         In file (written effects) ->
         String.prefix (os_path.abspath (getcwd w) (extract_dir w dest_dir))
           (os_path.abspath (getcwd w) file) = true.
Proof.
  unfold digest_local_project. intros Hd.
  destruct (build_sdist w) as [error|tf] eqn:Hbuild; [discriminate|].
  destruct (safe_extract w tf (extract_dir w dest_dir)) as [message|files] eqn:Hs;
    [discriminate|].
  destruct (listdir w (extract_dir w dest_dir)) as [|entry [|]] eqn:Hl;
    try discriminate.
  injection Hd as <- <-. apply safe_extract_ok in Hs as (-> & Hall).
  exists tf, entry. repeat (split; [reflexivity|]).
  cbn [written]. intros file Hin. apply in_map_iff in Hin as (member & <- & Hin).
  rewrite <- is_within_directory_prefix. exact (Hall member Hin).
Qed.

(** X20. A listing with more than one entry. When the members of the
    sdist pass the check and the extraction directory then lists more than
    one entry, [digest_local_project] fails its assertion with the message
    that names the project directory and the entries found; the members
    have been extracted by then, and nothing is hashed. *)
Theorem digest_local_project_asserts_one_entry
    (w : World) (directory : string) (dest_dir : option string)
    (tf : list TarInfo) (files : list string) :
  build_sdist w = inr tf ->
  safe_extract w tf (extract_dir w dest_dir) = inr files ->
  1 < length (listdir w (extract_dir w dest_dir)) ->
  digest_local_project w directory dest_dir
  = (RaisedAssertionError
       ("Expected sdist generated for " ++ directory
        ++ " to contain one top-level directory, found:" ++ newline
        ++ newline_join (listdir w (extract_dir w dest_dir))),
     {| written :=
          map (fun member => os_path.join (extract_dir w dest_dir) (name member)) tf;
        hashed := None |}).
Proof.
  intros Hbuild Hs Hlen. unfold digest_local_project. rewrite Hbuild, Hs.
  apply safe_extract_ok in Hs as (-> & _).
  destruct (listdir w (extract_dir w dest_dir)) as [|entry [|]];
    [cbn in Hlen; lia|cbn in Hlen; lia|reflexivity].
Qed.

(** ** Members that stay inside *)

Lemma split_sep_nonempty (s : string) : os_path.split_sep s <> [].
Proof.
  destruct s as [|c s]; [discriminate|]. cbn [os_path.split_sep].
  destruct (Ascii.eqb c "/"); [discriminate|].
  destruct (os_path.split_sep s); discriminate.
Qed.

Lemma split_sep_app (a b : string) :
  os_path.split_sep (a ++ String "/" b)
  = (os_path.split_sep a ++ os_path.split_sep b)%list.
Proof.
  induction a as [|c a IH]; [reflexivity|].
  change (String c a ++ String "/" b) with (String c (a ++ String "/" b)).
  cbn [os_path.split_sep]. rewrite IH.
  destruct (Ascii.eqb c "/"); [reflexivity|].
  pose proof (split_sep_nonempty a) as Hne.
  destruct (os_path.split_sep a); [contradiction|reflexivity].
Qed.

Lemma endswith_sep_inv (s : string) :
  os_path.endswith_sep s = true -> exists s', s = s' ++ "/".
Proof.
  induction s as [|c s IH]; [discriminate|].
  destruct s as [|d s].
  - cbn. intros Hc. apply Ascii.eqb_eq in Hc as ->. exists EmptyString. reflexivity.
  - intros He. destruct (IH He) as (s' & Hs'). exists (String c s').
    change (String c s' ++ "/") with (String c (s' ++ "/")). rewrite <- Hs'. reflexivity.
Qed.

Lemma endswith_sep_append (a b : string) :
  b <> EmptyString -> os_path.endswith_sep (a ++ b) = os_path.endswith_sep b.
Proof.
  intros Hb. induction a as [|c a IH]; [reflexivity|].
  change (String c a ++ b) with (String c (a ++ b)).
  destruct (a ++ b) as [|d r] eqn:Hab.
  - destruct a; [cbn in Hab; contradiction|discriminate].
  - exact IH.
Qed.

Lemma norm_steps_plain (slashes : nat) (comps : list string) :
  Forall (fun comp => comp <> "..") comps ->
  forall stack,
    fold_left (os_path.norm_step slashes) comps stack
    = (rev (List.filter kept comps) ++ stack)%list.
Proof.
  induction 1 as [|comp comps Hcomp _ IH]; intros stack; [reflexivity|].
  cbn [fold_left List.filter]. rewrite IH. unfold os_path.norm_step.
  unfold kept at 2.
  destruct (String.eqb comp EmptyString || String.eqb comp "."); cbn [negb];
    [reflexivity|].
  apply String.eqb_neq in Hcomp. rewrite Hcomp. cbn [negb orb rev].
  rewrite <- app_assoc. reflexivity.
Qed.

Lemma prefix_refl (a : string) : String.prefix a a = true.
Proof.
  induction a as [|c a IH]; [reflexivity|].
  rewrite prefix_cons, Ascii.eqb_refl. exact IH.
Qed.

Lemma sep_join_prefix (a b : list string) :
  String.prefix (os_path.sep_join a) (os_path.sep_join (a ++ b)%list) = true.
Proof.
  induction a as [|c a IH]; [apply prefix_nil|].
  destruct a as [|c' a].
  - destruct b as [|b0 b]; [apply prefix_refl|].
    change (String.prefix c (c ++ os_path.sep ++ os_path.sep_join (b0 :: b)) = true).
    apply prefix_append.
  - change (String.prefix (c ++ os_path.sep ++ os_path.sep_join (c' :: a))
              (c ++ os_path.sep ++ os_path.sep_join ((c' :: a) ++ b)%list) = true).
    rewrite !prefix_append_same. exact IH.
Qed.

Lemma initial_slashes_append (p x : string) :
  os_path.isabs p = true ->
  (os_path.endswith_sep p = true -> os_path.isabs x = false) ->
  os_path.initial_slashes (p ++ x) = os_path.initial_slashes p
  /\ (os_path.initial_slashes p = 1 \/ os_path.initial_slashes p = 2).
Proof.
  intros Habs Hend.
  destruct p as [|c1 p]; [discriminate|].
  rewrite isabs_cons in Habs. apply Ascii.eqb_eq in Habs as ->.
  unfold os_path.initial_slashes.
  destruct p as [|c2 p].
  - (* "/" *)
    specialize (Hend eq_refl). destruct x as [|d x]; [cbn; auto|].
    rewrite isabs_cons in Hend.
    change ("/" ++ String d x) with (String "/" (String d x)).
    rewrite !prefix_cons, (Ascii.eqb_sym "/" d), Hend. cbn. auto.
  - destruct (Ascii.eqb c2 "/") eqn:H2.
    + apply Ascii.eqb_eq in H2 as ->. destruct p as [|c3 p].
      * (* "//" *)
        specialize (Hend eq_refl). destruct x as [|d x]; [cbn; auto|].
        rewrite isabs_cons in Hend.
        change ("//" ++ String d x) with (String "/" (String "/" (String d x))).
        rewrite !prefix_cons, (Ascii.eqb_sym "/" d), Hend. cbn. auto.
      * change (String "/" (String "/" (String c3 p)) ++ x)
          with (String "/" (String "/" (String c3 (p ++ x)))).
        rewrite !prefix_cons, !prefix_nil.
        destruct (Ascii.eqb "/" c3); cbn; auto.
    + change (String "/" (String c2 p) ++ x) with (String "/" (String c2 (p ++ x))).
      rewrite !prefix_cons, (Ascii.eqb_sym "/" c2), H2. cbn. auto.
Qed.

Lemma normpath_absolute (p : string) :
  os_path.isabs p = true ->
  os_path.normpath p
  = (if (os_path.initial_slashes p =? 1)%nat then "/" else "//")
    ++ os_path.sep_join
         (rev (fold_left (os_path.norm_step (os_path.initial_slashes p))
                 (os_path.split_sep p) [])).
Proof.
  intros Habs.
  destruct (initial_slashes_append p EmptyString Habs (fun _ => eq_refl))
    as (_ & Hslashes).
  destruct p as [|c p]; [discriminate|]. unfold os_path.normpath.
  destruct Hslashes as [-> | ->]; reflexivity.
Qed.

Lemma norm_step_empty (slashes : nat) (stack : list string) :
  os_path.norm_step slashes stack EmptyString = stack.
Proof. reflexivity. Qed.

(** Below an absolute path [p], a plain name is normalized to a path that
    starts with the normalized [p]. *)
Lemma normpath_below (p name : string) :
  os_path.isabs p = true ->
  plain_name name = true ->
  String.prefix (os_path.normpath p)
    (os_path.normpath
       (p ++ (if os_path.endswith_sep p then EmptyString else "/") ++ name)) = true.
Proof.
  intros Habs Hplain. unfold plain_name in Hplain.
  apply andb_prop in Hplain as [Hrel Hcomps]. apply negb_true_iff in Hrel.
  assert (Hnames : Forall (fun comp => comp <> "..") (os_path.split_sep name)).
  { apply Forall_forall. intros comp Hin. rewrite forallb_forall in Hcomps.
    apply list_elem_of_In in Hin. specialize (Hcomps comp Hin).
    apply negb_true_iff, String.eqb_neq in Hcomps. exact Hcomps. }
  set (s := if os_path.endswith_sep p then EmptyString else "/").
  assert (Hslashes : os_path.initial_slashes (p ++ s ++ name) = os_path.initial_slashes p).
  { apply initial_slashes_append; [exact Habs|].
    intros Hend. unfold s. rewrite Hend. exact Hrel. }
  assert (Hqabs : os_path.isabs (p ++ s ++ name) = true).
  { rewrite isabs_append; [exact Habs|]. destruct p; discriminate. }
  assert (Hfold :
    fold_left (os_path.norm_step (os_path.initial_slashes p))
      (os_path.split_sep (p ++ s ++ name)) []
    = (rev (List.filter kept (os_path.split_sep name))
       ++ fold_left (os_path.norm_step (os_path.initial_slashes p))
            (os_path.split_sep p) [])%list).
  { unfold s. destruct (os_path.endswith_sep p) eqn:Hend.
    - destruct (endswith_sep_inv p Hend) as (p' & ->).
      change (EmptyString ++ name) with name.
      rewrite append_assoc. change ("/" ++ name) with (String "/" name).
      change (p' ++ "/") with (p' ++ String "/" EmptyString).
      rewrite !split_sep_app, !fold_left_app. cbn [os_path.split_sep fold_left].
      rewrite norm_step_empty. apply norm_steps_plain, Hnames.
    - change ("/" ++ name) with (String "/" name).
      rewrite split_sep_app, fold_left_app. apply norm_steps_plain, Hnames. }
  rewrite (normpath_absolute _ Habs), (normpath_absolute _ Hqabs), Hslashes, Hfold.
  rewrite prefix_append_same, rev_app_distr, rev_involutive.
  apply sep_join_prefix.
Qed.

Lemma abspath_join_plain (cwd path name : string) :
  os_path.isabs cwd = true ->
  path <> EmptyString ->
  os_path.isabs name = false ->
  exists p,
    os_path.isabs p = true
    /\ os_path.abspath cwd path = os_path.normpath p
    /\ os_path.abspath cwd (os_path.join path name)
       = os_path.normpath
           (p ++ (if os_path.endswith_sep p then EmptyString else "/") ++ name).
Proof.
  intros Hcwd Hpath Hname. unfold os_path.abspath.
  rewrite (join_relative path name Hpath Hname).
  rewrite (isabs_append path _ Hpath).
  destruct (os_path.isabs path) eqn:Habs.
  - exists path. auto.
  - assert (Hc : cwd <> EmptyString) by (destruct cwd; discriminate).
    exists (os_path.join cwd path).
    rewrite (join_relative cwd path Hc Habs).
    assert (Hend : os_path.endswith_sep
                     (cwd ++ (if os_path.endswith_sep cwd then EmptyString else "/")
                      ++ path)
                   = os_path.endswith_sep path).
    { rewrite endswith_sep_append.
      - destruct (os_path.endswith_sep cwd); [reflexivity|].
        apply (endswith_sep_append "/" path Hpath).
      - destruct (os_path.endswith_sep cwd); [exact Hpath|discriminate]. }
    split; [rewrite isabs_append by exact Hc; exact Hcwd|]. split; [reflexivity|].
    rewrite Hend, join_relative; [|exact Hc|].
    + rewrite !append_assoc. reflexivity.
    + rewrite isabs_append by exact Hpath. exact Habs.
Qed.

(** X21. An archive of plain names is never refused. With an absolute
    current directory and a non-empty extraction path, a member whose name
    is relative and has no [..] among its components passes the check; an
    archive of such members is extracted whole, each member at
    [os.path.join(path, member.name)]. *)
Theorem safe_extract_accepts_plain_names
    (w : World) (tf : list TarInfo) (path : string) :
  os_path.isabs (getcwd w) = true ->
  path <> EmptyString ->
  (forall member, In member tf -> plain_name (name member) = true) ->
  (forall member,
     In member tf ->
     is_within_directory w path (os_path.join path (name member)) = true)
  /\ safe_extract w tf path
     = inr (map (fun member => os_path.join path (name member)) tf).
Proof.
  intros Hcwd Hpath Hplain.
  assert (Hall : forall member,
            In member tf ->
            is_within_directory w path (os_path.join path (name member)) = true).
  { intros member Hin. specialize (Hplain member Hin).
    rewrite is_within_directory_prefix.
    assert (Hrel : os_path.isabs (name member) = false).
    { unfold plain_name in Hplain. apply andb_prop in Hplain as [Hrel _].
      apply negb_true_iff in Hrel. exact Hrel. }
    destruct (abspath_join_plain (getcwd w) path (name member) Hcwd Hpath Hrel)
      as (p & Hp & -> & ->).
    apply normpath_below; assumption. }
  split; [exact Hall|].
  unfold safe_extract.
  rewrite (proj2 (forallb_forall _ tf)); [reflexivity|exact Hall].
Qed.

End MoreExtractor.

(** ** The further properties on the samples *)

Section OnMoreSamples.
Import Demo Samples MoreSamples local_project.

#[local] Abbreviation lt := Demo.LockedRequirement_lt.
#[local] Abbreviation the_lock := (lock (Some ">=3.7")).

Lemma written_items_load :
  loads lt "<string>" home (inl (JObj written_items)) = Ok the_lock.
Proof. vm_compute. reflexivity. Defined.

Lemma check_path_mappings_passes_witness :
  dict_get declares_home "path_mappings"
  = Some (JObj [("HOME", JStr "the home directory")])
  /\ (forall n, In n ["HOME"] -> n ∈ given_mappings home)
  /\ check_path_mappings "<string>" home (JObj declares_home) = Ok ().
Proof.
  assert (Hgiven : forall n, In n ["HOME"] -> n ∈ given_mappings home).
  { intros n [<-|[]]. vm_compute. set_solver. }
  split; [reflexivity|]. split; [exact Hgiven|].
  exact (proj2 (proj2 (check_path_mappings_passes "<string>" home declares_home)
                  [("HOME", JStr "the home directory")] eq_refl) Hgiven).
Defined.

Lemma loads_ok_enums_witness :
  loads lt "<string>" home (inl (JObj written_items)) = Ok the_lock
  /\ for_value (T := PipVersion) (JStr "22.2.2") = inl Impl.v22_2_2.
Proof.
  split; [exact written_items_load|].
  exact (proj2 (proj2 (loads_ok_enums lt "<string>" home written_items the_lock
                         written_items_load))).
Defined.

Lemma loads_ok_target_systems_witness :
  loads lt "<string>" home (inl (JObj written_items)) = Ok the_lock
  /\ exists ts,
       load_target_systems "<string>" (JObj written_items) = Ok ts
       /\ Permutation ts (target_systems the_lock)
       /\ Forall2 (fun v t => for_value (T := TargetSystem) v = inl t)
            [JStr "linux"; JStr "mac"] ts.
Proof.
  split; [exact written_items_load|].
  destruct (loads_ok_target_systems lt "<string>" home written_items the_lock
              written_items_load) as (ts & Hts & Hperm & _ & Hitems).
  exists ts. split; [exact Hts|]. split; [exact Hperm|].
  exact (Hitems [JStr "linux"; JStr "mac"] eq_refl).
Defined.

Lemma loads_ok_requirements_witness :
  loads lt "<string>" home (inl (JObj written_items)) = Ok the_lock
  /\ exists items reqs,
       dict_get written_items "requirements" = Some (JList items)
       /\ load_requirements "<string>" home (JObj written_items) = Ok reqs
       /\ Forall2
            (fun raw r =>
               exists s, raw = JStr s
                         /\ Requirement_parse (maybe_reify home s) = inl r)
            items reqs
       /\ forall r, In r (requirements the_lock) <-> In r reqs.
Proof.
  split; [exact written_items_load|].
  exact (proj1 (loads_ok_requirements lt "<string>" home written_items the_lock
                  written_items_load)).
Defined.

Lemma loads_invalid_requirement_witness :
  dict_get with_empty_requirement "requirements"
  = Some (JList [JStr "foo"; JStr EmptyString])
  /\ Requirement_parse (maybe_reify no_mappings EmptyString)
     = inr "Parse error at end of input"
  /\ loads lt "<string>" no_mappings (inl (JObj with_empty_requirement))
     = raise_parse
         "The requirement string at '.requirements[1]' is invalid: Parse error at end of input".
Proof.
  split; [reflexivity|]. split; [reflexivity|].
  apply (proj2 (loads_invalid_requirement lt "<string>" no_mappings
                  with_empty_requirement [JStr "foo"; JStr EmptyString] 1
                  EmptyString "Parse error at end of input"
                  eq_refl eq_refl eq_refl)).
  - vm_compute. reflexivity.
  - vm_compute. reflexivity.
  - repeat constructor. exists "foo", "foo". split; reflexivity.
Defined.

Lemma loads_ok_fields_witness :
  loads lt "<string>" home (inl (JObj written_items)) = Ok the_lock
  /\ dict_get written_items "pex_version" = Some (JStr (pex_version the_lock)).
Proof.
  split; [exact written_items_load|].
  exact (proj1 (loads_ok_fields lt "<string>" home written_items the_lock
                  written_items_load)).
Defined.

Lemma loads_path_mappings_type_error_witness :
  dict_get with_numeric_path_mappings "path_mappings" = Some (JInt 5)
  /\ loads lt "<string>" home (inl (JObj with_numeric_path_mappings))
     = Raise TypeError.
Proof.
  split; [reflexivity|].
  apply (loads_path_mappings_type_error lt "<string>" home
           with_numeric_path_mappings (JInt 5) eq_refl).
  right. left. exists 5%Z. split; [reflexivity|discriminate].
Defined.

Lemma load_platform_tag_no_list_witness :
  dict_get (resolve_with_tag (JStr "abc")) "platform_tag" = Some (JStr "abc")
  /\ load_platform_tag "<string>" ".locked_resolves[0]"
       (JObj (resolve_with_tag (JStr "abc")))
     = Ok (Some ("a", "b", "c")).
Proof.
  split; [reflexivity|].
  exact (proj1 (load_platform_tag_no_list "<string>" ".locked_resolves[0]"
                  (resolve_with_tag (JStr "abc")))
           "a"%char "b"%char "c"%char eq_refl).
Defined.

Lemma loads_ok_locked_resolves_witness :
  loads lt "<string>" home (inl (JObj written_items)) = Ok the_lock
  /\ exists resolves built,
       dict_get written_items "locked_resolves" = Some (JList resolves)
       /\ load_locked_resolves lt "<string>" home (JObj written_items) = Ok built
       /\ Permutation built (locked_resolves the_lock)
       /\ length built = length resolves.
Proof.
  split; [exact written_items_load|].
  destruct (loads_ok_locked_resolves lt "<string>" home written_items the_lock
              written_items_load) as (resolves & built & Hd & Hb & Hperm & Hlen & _).
  exists resolves, built. repeat (split; [assumption|]). assumption.
Defined.

Lemma load_reads_what_was_written_witness :
  one_file "lock.json" = inr (inl (as_json_data the_lock home))
  /\ lockfile_stable lt home the_lock
  /\ load lt one_file "lock.json" home = Ok (with_source "lock.json" the_lock).
Proof.
  assert (Hs : lockfile_stable lt home the_lock) by repeat constructor.
  split; [reflexivity|]. split; [exact Hs|].
  exact (proj2 (load_reads_what_was_written lt home one_file "lock.json")
           the_lock eq_refl Hs).
Defined.

Lemma loads_invalid_enum_witness :
  dict_get with_unknown_style "style" = Some (JStr "lenient")
  /\ for_value (T := LockStyle) (JStr "lenient")
     = inr "'lenient' is not a known value"
  /\ get_enum_value (T := LockStyle) "<string>" (JObj with_unknown_style) "style" "." None
     = raise_parse
         ("The '.[" ++ dq ++ "style" ++ dq
          ++ "]' is invalid: 'lenient' is not a known value").
Proof.
  split; [reflexivity|]. split; [reflexivity|].
  exact (proj1 (proj1 (loads_invalid_enum lt "<string>" home with_unknown_style
                         "lenient" "'lenient' is not a known value")
                  eq_refl eq_refl)).
Defined.

Lemma load_locked_requirement_ok_witness :
  load_locked_requirement "<string>" home ".locked_resolves[0][0]"
    (JObj written_requirement) = Ok (foo (Some ">=3.7"))
  /\ exists n,
       dict_get written_requirement "project_name" = Some (JStr n)
       /\ ProjectName_new n = Some (project_name (pin (foo (Some ">=3.7")))).
Proof.
  assert (Hl : load_locked_requirement "<string>" home ".locked_resolves[0][0]"
                 (JObj written_requirement) = Ok (foo (Some ">=3.7")))
    by (vm_compute; reflexivity).
  split; [exact Hl|].
  exact (proj1 (proj2 (load_locked_requirement_ok "<string>" home
                         ".locked_resolves[0][0]" written_requirement
                         (foo (Some ">=3.7")) Hl))).
Defined.

Lemma digest_local_project_refuses_the_whole_archive_witness :
  is_within_directory climbing_world (extract_dir climbing_world None)
    (os_path.join (extract_dir climbing_world None) "../../etc/passwd") = false
  /\ digest_local_project climbing_world "/src/proj" None
     = (RaisedException "Attempted Path Traversal in Tar File",
        {| written := []; hashed := None |}).
Proof.
  split; [vm_compute; reflexivity|].
  apply (digest_local_project_refuses_the_whole_archive climbing_world "/src/proj"
           None _ {| name := "../../etc/passwd" |} eq_refl).
  - right. left. reflexivity.
  - vm_compute. reflexivity.
Defined.

Lemma digest_local_project_returned_witness :
  digest_local_project plain_world "/src/proj" None
  = (Returned "/tmp/td/extracted/proj-1.0",
     {| written := ["/tmp/td/extracted/proj-1.0/setup.py"];
        hashed := Some "/tmp/td/extracted/proj-1.0" |})
  /\ exists tf entry,
       build_sdist plain_world = inr tf
       /\ listdir plain_world (extract_dir plain_world None) = [entry].
Proof.
  assert (Hd : digest_local_project plain_world "/src/proj" None
               = (Returned "/tmp/td/extracted/proj-1.0",
                  {| written := ["/tmp/td/extracted/proj-1.0/setup.py"];
                     hashed := Some "/tmp/td/extracted/proj-1.0" |}))
    by (vm_compute; reflexivity).
  split; [exact Hd|].
  destruct (digest_local_project_returned plain_world "/src/proj" None _ _ Hd)
    as (tf & entry & Hb & Hl & _).
  exists tf, entry. split; assumption.
Defined.

Lemma digest_local_project_asserts_one_entry_witness :
  1 < length (listdir two_entries_world (extract_dir two_entries_world None))
  /\ fst (digest_local_project two_entries_world "/src/proj" None)
     = RaisedAssertionError
         ("Expected sdist generated for /src/proj to contain one top-level directory, found:"
          ++ newline ++ "proj-1.0" ++ newline ++ "README").
Proof.
  assert (Hlen : 1 < length (listdir two_entries_world
                                (extract_dir two_entries_world None)))
    by (vm_compute; lia).
  split; [exact Hlen|].
  rewrite (digest_local_project_asserts_one_entry two_entries_world "/src/proj" None
             _ _ eq_refl eq_refl Hlen).
  reflexivity.
Defined.

Lemma safe_extract_accepts_plain_names_witness :
  plain_name "proj-1.0/setup.py" = true
  /\ safe_extract plain_world [ {| name := "proj-1.0/setup.py" |} ] "/tmp/td/extracted"
     = inr ["/tmp/td/extracted/proj-1.0/setup.py"].
Proof.
  split; [reflexivity|].
  apply (proj2 (safe_extract_accepts_plain_names plain_world
                  [ {| name := "proj-1.0/setup.py" |} ] "/tmp/td/extracted"
                  eq_refl ltac:(discriminate)
                  ltac:(intros member [<-|[]]; reflexivity))).
Defined.

End OnMoreSamples.
